(** * BLAZE, BCH payment detection: a shallow embedding of the backend

    The development follows the Python modules of the backend:

    - [PriceOracle] and [Monitor]: [address_monitor_multi.py]
      (price cache, tiered reward, payment handler, UTXO diffing,
       subscription reconciliation);
    - [Fulcrum]: [fulcrum_client.py] (connect and version negotiation);
    - [Registry]: [address_listener_multi.py] (the in-memory watch list);
    - [Session] and [Listening]: the client and the listener over their
      lifetime, with the watchdog of the monitor;
    - [Cleanup]: [cronjobs/cleanup_old_bch_addresses.py];
    - [QRCode]: the placement of the logo in [cashaddressgenerator.py].

    Python [float] is IEEE 754 binary64, which is what Rocq's primitive
    [float] computes; Python [int] is [Z]; [dict] and [set] are stdpp's
    [gmap] and [gset].  Exceptions are explicit: a computation returns a
    [result], and [try]/[except] is [try_except]. *)

From Stdlib Require Import ZArith Floats Lia List Bool Ascii String.
From stdpp Require Import gmap strings list pretty.

Set Warnings "-inexact-float,-register-all".
Local Open Scope Z_scope.

(** ** Python values and numeric conversions *)

Module Py.

(** The exceptions the modelled code can meet. *)
Inductive exn :=
| ValueError | OverflowError | TypeError | AttributeError | KeyError
| IndexError | ConnectionError | TimeoutError | ServerError
| StoreUnavailable | IntegrityError.

Inductive result (A : Type) :=
| Ok (a : A)
| Raise (e : exn).
Arguments Ok {A} a.
Arguments Raise {A} e.

(** The integer a finite float denotes after rounding: [m * 2^e] with the
    sign [s], rounded down, up, or towards zero. *)
Definition signed (s : bool) (m : positive) : Z := if s then Z.neg m else Z.pos m.

Definition scaled_floor (v e : Z) : Z := if 0 <=? e then v * 2 ^ e else v / 2 ^ (- e).

Definition scaled_ceil (v e : Z) : Z := - scaled_floor (- v) e.

(** [math.floor(x)]: [OverflowError] on an infinity, [ValueError] on a NaN. *)
Definition floor (x : float) : result Z :=
  match Prim2SF x with
  | S754_zero _ => Ok 0
  | S754_finite s m e => Ok (scaled_floor (signed s m) e)
  | S754_infinity _ => Raise OverflowError
  | S754_nan => Raise ValueError
  end.

(** [math.ceil(x)]. *)
Definition ceil (x : float) : result Z :=
  match Prim2SF x with
  | S754_zero _ => Ok 0
  | S754_finite s m e => Ok (scaled_ceil (signed s m) e)
  | S754_infinity _ => Raise OverflowError
  | S754_nan => Raise ValueError
  end.

(** [int(x)] on a float: truncation towards zero. *)
Definition int_of_float (x : float) : result Z :=
  match Prim2SF x with
  | S754_zero _ => Ok 0
  | S754_finite s m e =>
      Ok (if s then scaled_ceil (Z.neg m) e else scaled_floor (Z.pos m) e)
  | S754_infinity _ => Raise OverflowError
  | S754_nan => Raise ValueError
  end.

(** [float(n)] on an int: the nearest binary64 value, [OverflowError] when
    it is out of range. *)
Definition float_of_int (n : Z) : result float :=
  let f := SF2Prim (binary_normalize prec emax n 0 false) in
  if is_infinity f then Raise OverflowError else Ok f.

(** Truth value of a float: every value but the two zeros. *)
Definition float_truthy (x : float) : bool := negb (x =? 0)%float.

(** [x or 0.0] on a float. *)
Definition or_zero (x : float) : float := if float_truthy x then x else 0%float.

(** A decoded JSON document ([json.loads]). *)
Inductive json :=
| JNull
| JBool (b : bool)
| JInt (n : Z)
| JFloat (f : float)
| JStr (s : string)
| JArr (items : list json)
| JObj (fields : list (string * json)).

(** Truth value of a decoded document. *)
Definition truthy (j : json) : bool :=
  match j with
  | JNull => false
  | JBool b => b
  | JInt n => negb (n =? 0)
  | JFloat f => float_truthy f
  | JStr s => negb (String.eqb s "")
  | JArr items => match items with [] => false | _ => true end
  | JObj fields => match fields with [] => false | _ => true end
  end.

(** [d.get(key)] on the fields of a decoded object (its keys are distinct). *)
Fixpoint obj_get (key : string) (fields : list (string * json)) : option json :=
  match fields with
  | [] => None
  | (k, v) :: rest => if String.eqb k key then Some v else obj_get key rest
  end.

(** [key in d]. *)
Definition obj_has (key : string) (fields : list (string * json)) : bool :=
  match obj_get key fields with Some _ => true | None => false end.

(** [str(n)] on an int, and on an optional int ([str(None)] is ["None"]). *)
Definition str_of_int (n : Z) : string := pretty n.

Definition str_of_opt_int (o : option Z) : string :=
  match o with Some n => str_of_int n | None => "None" end.

End Py.

Import Py.

(** ** The price oracle ([address_monitor_multi.py], lines 39-115) *)

Module PriceOracle.

(** [_PRICE_CACHE_EUR] and [_PRICE_CACHE_USD]: [{"ts": .., "price": ..}]. *)
Record CacheEntry := { ts : Z; price : option float }.

Record PriceCache := { _PRICE_CACHE_EUR : CacheEntry; _PRICE_CACHE_USD : CacheEntry }.

Definition initial_cache : PriceCache :=
  {| _PRICE_CACHE_EUR := {| ts := 0; price := None |};
     _PRICE_CACHE_USD := {| ts := 0; price := None |} |}.

(** What one HTTP GET gives: a transport or decode failure, or the decoded
    document. *)
Inductive fetch_outcome :=
| FetchFailed
| Fetched (data : json).

Section Refresh.

(** [float(s)] on a string is Python's own parser; the refresher is modelled
    for every behaviour of it. *)
Variable float_of_str : string -> result float.

(** [float(v)] on a decoded value. *)
Definition to_float (v : json) : result float :=
  match v with
  | JNull => Raise TypeError
  | JBool b => Ok (if b then 1%float else 0%float)
  | JInt n => float_of_int n
  | JFloat f => Ok f
  | JStr s => float_of_str s
  | JArr _ => Raise TypeError
  | JObj _ => Raise TypeError
  end.

(** [float(d.get(currency) or 0.0)]. *)
Definition quoted (currency : string) (d : list (string * json)) : result float :=
  match obj_get currency d with
  | None => Ok 0%float
  | Some v => if truthy v then to_float v else Ok 0%float
  end.

(** [data.get("bitcoin-cash", {})], which must again be an object. *)
Definition quotes (data : json) : result (list (string * json)) :=
  match data with
  | JObj fields =>
      match obj_get "bitcoin-cash" fields with
      | None => Ok []
      | Some (JObj d) => Ok d
      | Some _ => Raise AttributeError
      end
  | _ => Raise AttributeError
  end.

(** The two values of the [try] block, or the exception it stops on. *)
Definition fetched_values (o : fetch_outcome) : result (float * float) :=
  match o with
  | FetchFailed => Raise ConnectionError
  | Fetched data =>
      match quotes data with
      | Raise e => Raise e
      | Ok d =>
          match quoted "eur" d with
          | Raise e => Raise e
          | Ok eur_val =>
              match quoted "usd" d with
              | Raise e => Raise e
              | Ok usd_val => Ok (eur_val, usd_val)
              end
          end
      end
  end.

Definition write_if_positive (now_ts : Z) (val : float) (c : CacheEntry) : CacheEntry :=
  if (0 <? val)%float then {| ts := now_ts; price := Some val |} else c.

(** [_refresh_bch_prices_once]. *)
Definition _refresh_bch_prices_once (now_ts : Z) (o : fetch_outcome) (c : PriceCache)
  : PriceCache :=
  match fetched_values o with
  | Raise _ => c
  | Ok (eur_val, usd_val) =>
      if (0 <? eur_val)%float || (0 <? usd_val)%float then
        {| _PRICE_CACHE_EUR := write_if_positive now_ts eur_val (_PRICE_CACHE_EUR c);
           _PRICE_CACHE_USD := write_if_positive now_ts usd_val (_PRICE_CACHE_USD c) |}
      else c
  end.

(** The refresher thread: one refresh per element of the schedule. *)
Fixpoint refresher (schedule : list (Z * fetch_outcome)) (c : PriceCache) : PriceCache :=
  match schedule with
  | [] => c
  | (now_ts, o) :: rest => refresher rest (_refresh_bch_prices_once now_ts o c)
  end.

End Refresh.

(** [get_bch_eur_price_cached] and [get_bch_usd_price_cached]. *)
Definition get_bch_eur_price_cached (c : PriceCache) : option float :=
  price (_PRICE_CACHE_EUR c).

Definition get_bch_usd_price_cached (c : PriceCache) : option float :=
  price (_PRICE_CACHE_USD c).

(** [if price:] on a cached price: set and not zero. *)
Definition available (p : option float) : option float :=
  match p with
  | Some x => if float_truthy x then Some x else None
  | None => None
  end.

End PriceOracle.

(** ** The Electrum client ([fulcrum_client.py]): connect and negotiate *)

Module Fulcrum.

(** A JSON-RPC request as [_send_request] writes it. *)
Record Request := { rq_method : string; rq_params : list json; rq_id : Z }.

Record FulcrumClient := {
  client_name : string;
  protocol_version : string;
  connected : bool;
  stop_event : bool;      (* set by [disconnect], never cleared *)
  request_id : Z;
  outbox : list Request   (* what was written to the socket, oldest first *)
}.

(** [FulcrumClient(host, port, transport)] with the default names. *)
Definition new_client : FulcrumClient :=
  {| client_name := "PythonFulcrumClient"; protocol_version := "1.5.0";
     connected := false; stop_event := false; request_id := 0; outbox := [] |}.

(** What happens to one request on the wire: the write fails, no message
    with the request's id arrives within the 30 s (and the reader may have
    seen the peer close meanwhile), or the peer answers with a message
    that carries the id. *)
Inductive exchange :=
| SendFails
| NoReply (peer_closed : bool)
| Reply (message : list (string * json)).

Definition set_connected (b : bool) (c : FulcrumClient) : FulcrumClient :=
  {| client_name := client_name c; protocol_version := protocol_version c;
     connected := b; stop_event := stop_event c;
     request_id := request_id c; outbox := outbox c |}.

Definition with_request (r : Request) (c : FulcrumClient) : FulcrumClient :=
  {| client_name := client_name c; protocol_version := protocol_version c;
     connected := connected c; stop_event := stop_event c;
     request_id := rq_id r; outbox := outbox c ++ [r] |}.

Definition bump_id (c : FulcrumClient) : FulcrumClient :=
  {| client_name := client_name c; protocol_version := protocol_version c;
     connected := connected c; stop_event := stop_event c;
     request_id := request_id c + 1; outbox := outbox c |}.

(** The message [_receive_messages_socket] files under the request's id:
    its loop runs [while not self.stop_event.is_set() and self.connected],
    so without a reader the answer of the peer is never filed. *)
Definition delivered (x : exchange) (c : FulcrumClient)
  : option (list (string * json)) :=
  match x with
  | Reply message => if stop_event c then None else Some message
  | _ => None
  end.

(** [_send_request]. *)
Definition _send_request (method : string) (params : list json) (x : exchange)
  (c : FulcrumClient) : result json * FulcrumClient :=
  if negb (connected c) then (Raise ConnectionError, c)
  else
    let request := {| rq_method := method; rq_params := params;
                      rq_id := request_id c + 1 |} in
    match x with
    | SendFails => (Raise ConnectionError, bump_id c)
    | NoReply peer_closed =>
        (Raise TimeoutError, set_connected (negb peer_closed) (with_request request c))
    | Reply _ =>
        let c' := with_request request c in
        match delivered x c with
        | None => (Raise TimeoutError, c')
        | Some [] => (Ok JNull, c')
        | Some message =>
            if obj_has "error" message then (Raise ServerError, c')
            else (Ok (default JNull (obj_get "result" message)), c')
        end
    end.

(** [server_version]. *)
Definition server_version (x : exchange) (c : FulcrumClient)
  : result json * FulcrumClient :=
  _send_request "server.version" [JStr (client_name c); JStr (protocol_version c)] x c.

(** The code points of a UTF-8 string: a byte [10xxxxxx] continues the
    character before it. *)
Definition continuation (a : ascii) : bool :=
  let n := N_of_ascii a in ((128 <=? n) && (n <? 192))%N.

Fixpoint code_points (s : string) : list string :=
  match s with
  | EmptyString => []
  | String a rest =>
      match code_points rest with
      | [] => [String a EmptyString]
      | p :: ps =>
          match p with
          | String b _ =>
              if continuation b then String a p :: ps
              else String a EmptyString :: p :: ps
          | EmptyString => String a EmptyString :: ps
          end
      end
  end.

(** [response[k]]. *)
Definition getitem (response : json) (k : nat) : result json :=
  match response with
  | JArr items =>
      match nth_error items k with Some v => Ok v | None => Raise IndexError end
  | JStr s =>
      match nth_error (code_points s) k with
      | Some ch => Ok (JStr ch)
      | None => Raise IndexError
      end
  | JObj _ => Raise KeyError
  | JNull | JBool _ | JInt _ | JFloat _ => Raise TypeError
  end.

(** [_negotiate_version]. *)
Definition _negotiate_version (x : exchange) (c : FulcrumClient)
  : bool * FulcrumClient :=
  match server_version x c with
  | (Raise _, c') => (false, c')
  | (Ok response, c') =>
      if truthy response then
        match getitem response 0, getitem response 1 with
        | Ok _, Ok _ => (true, c')
        | _, _ => (false, c')
        end
      else (false, c')
  end.

(** [connect], through [_connect_socket]: [socket_ok] says whether the
    socket could be opened. *)
Definition connect (socket_ok : bool) (x : exchange) (c : FulcrumClient)
  : bool * FulcrumClient :=
  if socket_ok then _negotiate_version x (set_connected true c)
  else (false, c).

(** [disconnect]. *)
Definition disconnect (c : FulcrumClient) : FulcrumClient :=
  {| client_name := client_name c; protocol_version := protocol_version c;
     connected := false; stop_event := true;
     request_id := request_id c; outbox := outbox c |}.

(** [server_ping]. *)
Definition server_ping (x : exchange) (c : FulcrumClient)
  : result json * FulcrumClient :=
  _send_request "server.ping" [] x c.

End Fulcrum.

(** ** The registry listener ([address_listener_multi.py]) *)

Module Registry.

(** [AddressConfig], typed as the [bch] table types its columns:
    [created_at] is the instant in microseconds since the epoch, [None]
    when the row has none that parses. *)
Record AddressConfig := {
  address : string;
  user_id : option Z;
  device_id : option Z;
  created_at : option Z;
  threshold : option Z;
  euro_amount : option float
}.

(** What [json.loads(payload)] gives: a decode error, a document that is
    not an object, or an object, read as the row it carries. [action] is
    the raw value of the key when present; [row_address] is [None] when the
    key ["address"] is missing. *)
Inductive payload :=
| Malformed
| NotAnObject
| RowObject (action : option json) (row_address : option string)
    (row_user_id row_device_id row_created_at row_threshold : option Z)
    (row_euro_amount : option float).

(** What the handler did. *)
Inductive handled :=
| Upserted (a : string)
| Deleted (a : string)
| Reloaded (ok : bool)
| Failed (e : exn).

(** [load_addresses]: [table] is the result of the SELECT. *)
Definition load_addresses (table : result (list AddressConfig))
  (addresses : gmap string AddressConfig) : bool * gmap string AddressConfig :=
  match table with
  | Raise _ => (false, addresses)
  | Ok rows => (true, foldl (fun m r => <[address r := r]> m) ∅ rows)
  end.

Section Handler.

(** [str.upper]. *)
Variable upper : string -> string.

(** [data.get('action', '').upper()]. *)
Definition action_of (action : option json) : result string :=
  match action with
  | None => Ok (upper "")
  | Some (JStr s) => Ok (upper s)
  | Some _ => Raise AttributeError
  end.

(** [_handle_notification]. *)
Definition _handle_notification (p : payload) (table : result (list AddressConfig))
  (addresses : gmap string AddressConfig) : handled * gmap string AddressConfig :=
  match p with
  | Malformed =>
      let '(ok, m) := load_addresses table addresses in (Reloaded ok, m)
  | NotAnObject => (Failed AttributeError, addresses)
  | RowObject action row_address uid did cat thr eur =>
      match action_of action with
      | Raise e => (Failed e, addresses)
      | Ok act =>
          if String.eqb act "INSERT" || String.eqb act "UPDATE" then
            match row_address with
            | None => (Failed KeyError, addresses)
            | Some a =>
                let address_config :=
                  {| address := a; user_id := uid; device_id := did;
                     created_at := cat; threshold := thr; euro_amount := eur |} in
                (Upserted a, <[a := address_config]> addresses)
            end
          else if String.eqb act "DELETE" then
            match row_address with
            | None => (Failed KeyError, addresses)
            | Some a => (Deleted a, delete a addresses)
            end
          else
            let '(ok, m) := load_addresses table addresses in (Reloaded ok, m)
      end
  end.

End Handler.

(** [str.upper] on ASCII text. *)
Definition ascii_upper_char (a : ascii) : ascii :=
  let n := N_of_ascii a in
  if ((97 <=? n) && (n <=? 122))%N then ascii_of_N (n - 32) else a.

Fixpoint ascii_upper (s : string) : string :=
  match s with
  | EmptyString => EmptyString
  | String a rest => String (ascii_upper_char a) (ascii_upper rest)
  end.

(** [get_payments]: a copy of the values. *)
Definition get_payments (addresses : gmap string AddressConfig) : list AddressConfig :=
  map snd (map_to_list addresses).

End Registry.

(** ** State and exceptions *)

Module Eff.

(** A computation over a state [S]: it returns or raises, and leaves the
    state it reached either way. *)
Definition M (S A : Type) : Type := S -> result A * S.

Definition ret {S A} (a : A) : M S A := fun s => (Ok a, s).

Definition bind {S A B} (m : M S A) (k : A -> M S B) : M S B :=
  fun s => match m s with
           | (Ok a, s') => k a s'
           | (Raise e, s') => (Raise e, s')
           end.

Definition raise {S A} (e : exn) : M S A := fun s => (Raise e, s).

(** [try: m  except Exception as e: h e]. *)
Definition try_except {S A} (m : M S A) (h : exn -> M S A) : M S A :=
  fun s => match m s with
           | (Ok a, s') => (Ok a, s')
           | (Raise e, s') => h e s'
           end.

Definition lift_result {S A} (r : result A) : M S A := fun s => (r, s).

Definition gets {S A} (f : S -> A) : M S A := fun s => (Ok (f s), s).

Definition modify {S} (f : S -> S) : M S unit := fun s => (Ok tt, f s).

(** Run a computation on a component of the state. *)
Definition zoom {S T A} (get : S -> T) (set : T -> S -> S) (m : M T A) : M S A :=
  fun s => let '(r, t) := m (get s) in (r, set t s).

(** [for x in xs: body x]. *)
Fixpoint for_each {S A} (body : A -> M S unit) (xs : list A) : M S unit :=
  match xs with
  | [] => ret tt
  | x :: rest => bind (body x) (fun _ => for_each body rest)
  end.

End Eff.

Import Eff.

Declare Scope eff_scope.
Delimit Scope eff_scope with eff.
Notation "x <- m ;; k" := (bind m (fun x => k))
  (at level 100, m at next level, right associativity) : eff_scope.
Notation "m ;;; k" := (bind m (fun _ => k))
  (at level 100, right associativity) : eff_scope.

(** ** The monitor ([address_monitor_multi.py]) *)

Module Monitor.

Import PriceOracle Registry.
Local Open Scope eff_scope.

(** *** Tiered reward (lines 21-23 and 117-130) *)

Definition GRAIN_MULTIPLIER_LT_20 : float := 4.0.
Definition GRAIN_MULTIPLIER_20_TO_49_99 : float := 5.0.
Definition GRAIN_MULTIPLIER_GE_50 : float := 6.0.

(** The [multiplier] that [compute_grain_reward_eur] selects. *)
Definition multiplier (eur_amount : float) : float :=
  if (eur_amount <? 20.0)%float then GRAIN_MULTIPLIER_LT_20
  else if (eur_amount <? 50.0)%float then GRAIN_MULTIPLIER_20_TO_49_99
  else GRAIN_MULTIPLIER_GE_50.

Definition compute_grain_reward_eur (eur_amount : float) : float :=
  (eur_amount * multiplier eur_amount)%float.

(** *** Unspent outputs and payment events *)

(** One entry of a [listunspent] answer; [None] is a missing or null key. *)
Record Utxo := {
  tx_hash : option string;
  tx_pos : option Z;
  value : option Z;
  height : option Z
}.

(** [(u.get("tx_hash"), u.get("tx_pos"))]. *)
Abbreviation UtxoKey := (option string * option Z)%type.

Definition key_of (u : Utxo) : UtxoKey := (tx_hash u, tx_pos u).

(** [{key_of u for u in utxos if u.get("tx_hash") is not None}]. *)
Definition keys_of (utxos : list Utxo) : gset UtxoKey :=
  list_to_set (key_of <$> filter (fun u => is_Some (tx_hash u)) utxos).

Inductive Status := confirmed | unconfirmed | unknown.

(** The [event] dictionary. *)
Record PaymentEvent := {
  ev_address : string;
  ev_tx_hash : option string;
  ev_tx_pos : option Z;
  value_sats : Z;
  value_bch : float;
  ev_height : Z;
  status : Status
}.

(** The event built for an output (lines 431-444). *)
Definition synthesize (address : string) (u : Utxo) : result PaymentEvent :=
  let value_sats := default 0 (value u) in
  let height :=
    match height u with
    | Some h => if h =? 0 then -1 else h
    | None => -1
    end in
  let status :=
    if height =? 0 then unconfirmed
    else if 0 <? height then confirmed else unknown in
  match float_of_int value_sats with
  | Raise e => Raise e
  | Ok f =>
      Ok {| ev_address := address; ev_tx_hash := tx_hash u; ev_tx_pos := tx_pos u;
            value_sats := value_sats; value_bch := (f / 1e8)%float;
            ev_height := height; status := status |}
  end.

(** *** The relational store *)

Record UserRow := { username : option string; grain_balance : option Z }.

Record DeviceRow := {
  alias : option string;
  stream_name : option string;
  crypto_feed_price : option float;
  total_feedings_today : option Z;
  total_feedings : option Z;
  last_feeding : option Z
}.

(** A row of [bchpayment]; [tx_id] is its primary key. *)
Record BchPayment := {
  tx_id : string;
  amount : Z;
  reference : string;
  description : string;
  pay_address : string;
  pay_euro_amount : option float;
  usd_amount : option float;
  succeeded_at : Z
}.

Record Tables := {
  users : gmap Z UserRow;
  devices : gmap Z DeviceRow;
  bchpayment : gmap string BchPayment
}.

(** The SQL statements of the monitor. *)
Inductive statement :=
| SelectUsername (id : Z)
| UpdateGrainBalance (id : Z) (grain_delta : Z)
| SelectDevice (id : option Z)
| UpdateFeedings (id : option Z) (now_utc : Z)
| SelectCryptoFeedPrice (id : option Z)
| InsertBchPayment (r : BchPayment).

(** What the handler prints. *)
Inductive message :=
| PaymentDetected (address : string) (sats : Z)
| UsernameLookupFailed (e : exn)
| SkippingGrainUpdate
| GrainUpdateFailed (e : exn)
| AliasLookupFailed (e : exn)
| FeedingUpdateFailed (e : exn)
| FeedPriceLookupFailed (e : exn)
| InsertFailed (e : exn)
| AddressError (address : string) (e : exn)
| SubscribeFailed (address : string) (e : exn).

(** The store as the monitor meets it: the tables, whether each coming
    statement finds the store unavailable ([true] raises; an exhausted
    schedule means available), the statements issued so far, each with
    whether it succeeded, and the messages printed. *)
Record Store := {
  tables : Tables;
  db_faults : list bool;
  statements : list (statement * bool);
  printed : list message
}.

Definition credit (grain_delta : Z) (u : UserRow) : UserRow :=
  {| username := username u;
     grain_balance := Some (default 0 (grain_balance u) + grain_delta) |}.

Definition feed (now_utc : Z) (d : DeviceRow) : DeviceRow :=
  {| alias := alias d; stream_name := stream_name d;
     crypto_feed_price := crypto_feed_price d;
     total_feedings_today := Some (default 0 (total_feedings_today d) + 1);
     total_feedings := Some (default 0 (total_feedings d) + 1);
     last_feeding := Some now_utc |}.

(** The effect of a statement on the tables, when the store is available. *)
Definition apply_statement (st : statement) (t : Tables) : result Tables :=
  match st with
  | SelectUsername _ | SelectDevice _ | SelectCryptoFeedPrice _ => Ok t
  | UpdateGrainBalance id grain_delta =>
      Ok {| users := alter (credit grain_delta) id (users t);
            devices := devices t; bchpayment := bchpayment t |}
  | UpdateFeedings None _ => Ok t
  | UpdateFeedings (Some id) now_utc =>
      Ok {| users := users t;
            devices := alter (feed now_utc) id (devices t);
            bchpayment := bchpayment t |}
  | InsertBchPayment r =>
      match bchpayment t !! tx_id r with
      | Some _ => Raise IntegrityError
      | None =>
          Ok {| users := users t; devices := devices t;
                bchpayment := <[tx_id r := r]> (bchpayment t) |}
      end
  end.

(** [conn.execute(...)] in a transaction of its own. *)
Definition execute (st : statement) : M Store unit :=
  fun s =>
    let fault := match db_faults s with b :: _ => b | [] => false end in
    let rest := tail (db_faults s) in
    let outcome := if fault then Raise StoreUnavailable else apply_statement st (tables s) in
    match outcome with
    | Ok t =>
        (Ok tt, {| tables := t; db_faults := rest;
                   statements := statements s ++ [(st, true)];
                   printed := printed s |})
    | Raise e =>
        (Raise e, {| tables := tables s; db_faults := rest;
                     statements := statements s ++ [(st, false)];
                     printed := printed s |})
    end.

(** [print(...)]. *)
Definition print (m : message) : M Store unit :=
  modify (fun s => {| tables := tables s; db_faults := db_faults s;
                      statements := statements s;
                      printed := printed s ++ [m] |}).

(** [SELECT username FROM users WHERE id = :id LIMIT 1], [.scalar()]. *)
Definition select_username (id : Z) : M Store (option string) :=
  execute (SelectUsername id) ;;;
  gets (fun s => users (tables s) !! id ≫= username).

(** [SELECT alias, stream_name FROM devices WHERE id = :id LIMIT 1],
    [.mappings().first()]. *)
Definition select_device (id : option Z) : M Store (option DeviceRow) :=
  execute (SelectDevice id) ;;;
  gets (fun s => id ≫= fun i => devices (tables s) !! i).

(** [SELECT crypto_feed_price FROM devices WHERE id = :id LIMIT 1],
    [.scalar()]. *)
Definition select_crypto_feed_price (id : option Z) : M Store (option float) :=
  execute (SelectCryptoFeedPrice id) ;;;
  gets (fun s => id ≫= fun i => devices (tables s) !! i ≫= crypto_feed_price).

(** [write_payment_record] (lines 133-163); [now] is the store's [NOW()]. *)
Definition write_payment_record (now : Z) (tx_id : string) (amount_sats : Z)
  (reference description address : string) (euro_amount usd_amount : option float)
  : M Store unit :=
  try_except
    (execute (InsertBchPayment
       {| tx_id := tx_id; amount := amount_sats; reference := reference;
          description := description; pay_address := address;
          pay_euro_amount := euro_amount; usd_amount := usd_amount;
          succeeded_at := now |}))
    (fun e => print (InsertFailed e)).

(** *** The payment handler (lines 204-409) *)

(** The handler's frame: the store and the three locals that outlive its
    [try] blocks. *)
Record Frame := {
  store : Store;
  description_ : string;
  euro_amount_insert : option float;
  usd_amount_insert : option float
}.

Definition on_store {A} (m : M Store A) : M Frame A :=
  zoom store
    (fun s f => {| store := s; description_ := description_ f;
                   euro_amount_insert := euro_amount_insert f;
                   usd_amount_insert := usd_amount_insert f |}) m.

Definition set_description (d : string) : M Frame unit :=
  modify (fun f => {| store := store f; description_ := d;
                      euro_amount_insert := euro_amount_insert f;
                      usd_amount_insert := usd_amount_insert f |}).

Definition set_euro_amount_insert (x : float) : M Frame unit :=
  modify (fun f => {| store := store f; description_ := description_ f;
                      euro_amount_insert := Some x;
                      usd_amount_insert := usd_amount_insert f |}).

Definition set_usd_amount_insert (x : float) : M Frame unit :=
  modify (fun f => {| store := store f; description_ := description_ f;
                      euro_amount_insert := euro_amount_insert f;
                      usd_amount_insert := Some x |}).

(** [threshold_sats] as lines 250-257 normalise it: set and positive. *)
Definition threshold_sats_of (payment : AddressConfig) : option Z :=
  match threshold payment with
  | None => None
  | Some v =>
      match float_of_int v with
      | Raise _ => None
      | Ok f =>
          match int_of_float f with
          | Raise _ => None
          | Ok t => if t <=? 0 then None else Some t
          end
      end
  end.

(** [str(username) if username else f"user {user_id}"]. *)
Definition display_name (username : option string) (user_id : Z) : string :=
  match username with
  | Some n => if String.eqb n "" then "user " ++ str_of_int user_id else n
  | None => "user " ++ str_of_int user_id
  end.

(** The end of each rewarding path: the ceiling of the tiered reward is
    added to the balance, then the description is set. *)
Definition credit_grain (user_id : Z) (username : option string) (eur_amount : float)
  : M Frame unit :=
  grain_delta <- lift_result (ceil (compute_grain_reward_eur eur_amount)) ;;
  on_store (execute (UpdateGrainBalance user_id grain_delta)) ;;;
  set_description
    (display_name username user_id ++ " (+" ++ str_of_int grain_delta ++ " grain)").

(** [if price_usd: usd_amount_insert = value_bch * price_usd]. *)
Definition snapshot_usd (prices : PriceCache) (value_bch : float) : M Frame unit :=
  match available (get_bch_usd_price_cached prices) with
  | Some price_usd => set_usd_amount_insert (value_bch * price_usd)%float
  | None => ret tt
  end.

(** The price-based method: the block of lines 288-311, 314-337 and
    340-363. *)
Definition price_based (prices : PriceCache) (user_id : Z) (username : option string)
  (event : PaymentEvent) : M Frame unit :=
  let value_bch := or_zero (value_bch event) in
  match available (get_bch_eur_price_cached prices) with
  | Some price_eur =>
      let eur_amount := (value_bch * price_eur)%float in
      set_euro_amount_insert eur_amount ;;;
      snapshot_usd prices value_bch ;;;
      credit_grain user_id username eur_amount
  | None => on_store (print SkippingGrainUpdate)
  end.

(** The configured amount: lines 265-285. *)
Definition configured (prices : PriceCache) (user_id : Z) (username : option string)
  (eur_amount : float) (event : PaymentEvent) : M Frame unit :=
  set_euro_amount_insert eur_amount ;;;
  snapshot_usd prices (or_zero (value_bch event)) ;;;
  credit_grain user_id username eur_amount.

(** Thirty minutes, in microseconds. *)
Definition window : Z := 30 * 60 * 1000000.

(** The [try] block of lines 236-363. *)
Definition grain_update (prices : PriceCache) (now : Z) (payment : AddressConfig)
  (user_id : Z) (username : option string) (event : PaymentEvent) : M Frame unit :=
  match created_at payment with
  | None => raise ValueError
  | Some created_at_dt =>
      let within_window := now - created_at_dt <? window in
      let amount_sats := value_sats event in
      match within_window, threshold_sats_of payment with
      | true, Some threshold_sats =>
          if threshold_sats <=? amount_sats then
            match euro_amount payment with
            | Some euro_amount_cfg =>
                if (0 <? euro_amount_cfg)%float
                then configured prices user_id username euro_amount_cfg event
                else price_based prices user_id username event
            | None => price_based prices user_id username event
            end
          else price_based prices user_id username event
      | _, _ => price_based prices user_id username event
      end
  end.

(** The user-linked branch (lines 220-365); it gives the [reference]. *)
Definition user_branch (prices : PriceCache) (now : Z) (payment : AddressConfig)
  (user_id : Z) (event : PaymentEvent) : M Frame string :=
  username <- try_except (on_store (select_username user_id))
                (fun e => on_store (print (UsernameLookupFailed e)) ;;; ret None) ;;
  try_except (grain_update prices now payment user_id username event)
    (fun e => on_store (print (GrainUpdateFailed e))) ;;;
  ret (str_of_int user_id).

Definition nonempty (o : option string) : option string :=
  match o with
  | Some s => if String.eqb s "" then None else Some s
  | None => None
  end.

(** The device-linked branch (lines 366-407). *)
Definition device_branch (prices : PriceCache) (now : Z) (payment : AddressConfig)
  (event : PaymentEvent) : M Frame string :=
  let device_id := device_id payment in
  let value_bch := or_zero (value_bch event) in
  match available (get_bch_eur_price_cached prices) with
  | Some price_eur => set_euro_amount_insert (value_bch * price_eur)%float
  | None => ret tt
  end ;;;
  snapshot_usd prices value_bch ;;;
  row <- try_except (on_store (select_device device_id))
           (fun e => on_store (print (AliasLookupFailed e)) ;;; ret None) ;;
  let reference :=
    match nonempty (row ≫= alias) with
    | Some a => a
    | None => str_of_opt_int device_id
    end in
  match nonempty (row ≫= stream_name) with
  | Some s => set_description ("Direct payment to " ++ s)
  | None => ret tt
  end ;;;
  try_except (on_store (execute (UpdateFeedings device_id now)))
    (fun e => on_store (print (FeedingUpdateFailed e))) ;;;
  ret reference.

(** [threshold_handler]. *)
Definition threshold_handler (prices : PriceCache) (now : Z) (payment : AddressConfig)
  (event : PaymentEvent) : M Store unit :=
  print (PaymentDetected (address payment) (value_sats event)) ;;;
  let tx_id := default "" (ev_tx_hash event) in
  let amount_sats := value_sats event in
  let branch :=
    match user_id payment with
    | Some user_id => user_branch prices now payment user_id event
    | None => device_branch prices now payment event
    end in
  fun s =>
    let frame :=
      {| store := s;
         description_ :=
           "Auto-detected payment to " ++ address payment ++ " (" ++ tx_id ++ ":"
             ++ str_of_opt_int (ev_tx_pos event) ++ ")";
         euro_amount_insert := None; usd_amount_insert := None |} in
    match branch frame with
    | (Raise e, f) => (Raise e, store f)
    | (Ok reference, f) =>
        let address_str :=
          if String.eqb (ev_address event) "" then address payment
          else ev_address event in
        write_payment_record now tx_id amount_sats reference (description_ f)
          address_str (euro_amount_insert f) (usd_amount_insert f) (store f)
    end.

(** *** The Electrum peer as the monitor meets it *)

Inductive rpc :=
| ListUnspent (address : string)
| Subscribe (address : string)
| Unsubscribe (address : string)
| HeadersSubscribe
| Ping.

(** [chain] is the peer's unspent outputs per address; [rpc_faults]
    schedules the calls that raise, as [db_faults] does; [calls] are the
    calls made so far, each with whether it returned. *)
Record Net := {
  chain : gmap string (list Utxo);
  rpc_faults : list bool;
  calls : list (rpc * bool)
}.

(** A call of the client. *)
Definition call (c : rpc) : M Net unit :=
  fun n =>
    let fault := match rpc_faults n with b :: _ => b | [] => false end in
    let n' ok := {| chain := chain n; rpc_faults := tail (rpc_faults n);
                    calls := calls n ++ [(c, ok)] |} in
    if fault then (Raise ConnectionError, n' false) else (Ok tt, n' true).

(** [client.blockchain_address_listunspent(address)]. *)
Definition listunspent (address : string) : M Net (list Utxo) :=
  call (ListUnspent address) ;;;
  gets (fun n => default [] (chain n !! address)).

(** *** The monitor's state (the locals of [run_monitor]) *)

Record World := {
  db : Store;
  net : Net;
  known_utxos_by_addr : gmap string (gset UtxoKey);
  address_to_payment : gmap string AddressConfig;
  current_addresses : gset string;
  received : list PaymentEvent;   (* one per "received" line printed *)
  prices : PriceCache;
  now : Z
}.

Definition set_db (s : Store) (w : World) : World :=
  {| db := s; net := net w; known_utxos_by_addr := known_utxos_by_addr w;
     address_to_payment := address_to_payment w;
     current_addresses := current_addresses w; received := received w;
     prices := prices w; now := now w |}.

Definition set_net (n : Net) (w : World) : World :=
  {| db := db w; net := n; known_utxos_by_addr := known_utxos_by_addr w;
     address_to_payment := address_to_payment w;
     current_addresses := current_addresses w; received := received w;
     prices := prices w; now := now w |}.

Definition set_known (k : gmap string (gset UtxoKey)) (w : World) : World :=
  {| db := db w; net := net w; known_utxos_by_addr := k;
     address_to_payment := address_to_payment w;
     current_addresses := current_addresses w; received := received w;
     prices := prices w; now := now w |}.

Definition set_watch (addresses : gset string) (m : gmap string AddressConfig)
  (w : World) : World :=
  {| db := db w; net := net w; known_utxos_by_addr := known_utxos_by_addr w;
     address_to_payment := m; current_addresses := addresses;
     received := received w; prices := prices w; now := now w |}.

Definition add_received (e : PaymentEvent) (w : World) : World :=
  {| db := db w; net := net w; known_utxos_by_addr := known_utxos_by_addr w;
     address_to_payment := address_to_payment w;
     current_addresses := current_addresses w; received := received w ++ [e];
     prices := prices w; now := now w |}.

Definition on_db {A} (m : M Store A) : M World A := zoom db set_db m.

Definition on_net {A} (m : M Net A) : M World A := zoom net set_net m.

(** The handler, with the price cache and the clock of the moment. *)
Definition handle (payment : AddressConfig) (event : PaymentEvent) : M World unit :=
  fun w => on_db (threshold_handler (prices w) (now w) payment event) w.

(** *** Notifications (lines 411-487) *)

(** The sats threshold of a device (lines 472-477). *)
Definition device_threshold_sats (crypto_price_eur : float) (price_eur : option float)
  : result Z :=
  match price_eur with
  | Some p =>
      if float_truthy p && (0 <? p)%float
      then floor ((crypto_price_eur / p) * 1e8)%float
      else Ok 0
  | None => Ok 0
  end.

(** [max(int(math.floor(threshold_sats * 0.95)), 0)]. *)
Definition effective_threshold (threshold_sats : Z) : result Z :=
  match float_of_int threshold_sats with
  | Raise e => Raise e
  | Ok f =>
      match floor (f * 0.95)%float with
      | Raise e => Raise e
      | Ok t => Ok (Z.max t 0)
      end
  end.

(** The device-linked gate (lines 457-481). *)
Definition device_gate (payment : AddressConfig) (event : PaymentEvent) : M World unit :=
  crypto_price_eur <-
    try_except (on_db (select_crypto_feed_price (device_id payment)))
      (fun e => on_db (print (FeedPriceLookupFailed e)) ;;; ret None) ;;
  match crypto_price_eur with
  | None => handle payment event
  | Some crypto_price_eur =>
      price_eur <- gets (fun w => get_bch_eur_price_cached (prices w)) ;;
      threshold_sats <- lift_result (device_threshold_sats crypto_price_eur price_eur) ;;
      effective_threshold <- lift_result (effective_threshold threshold_sats) ;;
      if effective_threshold <=? value_sats event then handle payment event
      else ret tt
  end.

(** The body of the loop over [utxos] (lines 428-481). *)
Definition emit (address : string) (new_keys : gset UtxoKey) (u : Utxo) : M World unit :=
  if decide (key_of u ∈ new_keys) then
    event <- lift_result (synthesize address u) ;;
    modify (add_received event) ;;;
    payment <- gets (fun w => address_to_payment w !! address) ;;
    match payment with
    | Some payment =>
        match user_id payment with
        | Some _ => handle payment event
        | None => device_gate payment event
        end
    | None => ret tt
    end
  else ret tt.

(** [known_utxos_by_addr.setdefault(address, set())]. *)
Definition setdefault_known (address : string) : M World (gset UtxoKey) :=
  fun w =>
    match known_utxos_by_addr w !! address with
    | Some known => (Ok known, w)
    | None => (Ok ∅, set_known (<[address := ∅]> (known_utxos_by_addr w)) w)
    end.

(** [known.clear(); known.update(current_keys)]: [known] is the set held
    under [address], and nothing in between rebinds the entry. *)
Definition update_known (address : string) (current_keys : gset UtxoKey) : M World unit :=
  modify (fun w => set_known (<[address := current_keys]> (known_utxos_by_addr w)) w).

(** The [try] block of [fetch_and_emit] (lines 418-483). *)
Definition fetch_and_emit_body (address : string) : M World unit :=
  utxos <- on_net (listunspent address) ;;
  let current_keys := keys_of utxos in
  known <- setdefault_known address ;;
  let new_keys := current_keys ∖ known in
  (if decide (new_keys = ∅) then ret tt
   else for_each (emit address new_keys) utxos) ;;;
  update_known address current_keys.

(** [fetch_and_emit]. *)
Definition fetch_and_emit (address : string) : M World unit :=
  try_except (fetch_and_emit_body address)
    (fun e => on_db (print (AddressError address e))).

(** [on_address_change]: the worker it starts, run to its end. *)
Definition on_address_change (params : list string) : M World unit :=
  match params with
  | [] => ret tt
  | address :: _ => fetch_and_emit address
  end.

(** *** Subscriptions (lines 498-517, 545-563 and 569-602) *)

(** Priming and subscribing one address: lines 549-563, 585-599 and
    504-516. *)
Definition prime (addr : string) : M World unit :=
  utxos <- try_except (on_net (listunspent addr)) (fun _ => ret []) ;;
  modify (fun w => set_known (<[addr := keys_of utxos]> (known_utxos_by_addr w)) w) ;;;
  try_except (on_net (call (Subscribe addr)))
    (fun e => on_db (print (SubscribeFailed addr e))).

(** [_build_address_set]. *)
Definition _build_address_set (payments : list AddressConfig) : gset string :=
  list_to_set (address <$> payments).

(** [{p.address: p for p in payments}]. *)
Definition address_map (payments : list AddressConfig) : gmap string AddressConfig :=
  foldl (fun m p => <[address p := p]> m) ∅ payments.


(** Dropping one address (lines 576-582). *)
Definition forget (addr : string) : M World unit :=
  try_except (on_net (call (Unsubscribe addr))) (fun _ => ret tt) ;;;
  modify (fun w => set_known (delete addr (known_utxos_by_addr w)) w).

(** One turn of the reconciliation loop (lines 569-602). *)
Definition sync (updated_payments : list AddressConfig) : M World unit :=
  let updated_addresses := _build_address_set updated_payments in
  current <- gets current_addresses ;;
  let to_add := updated_addresses ∖ current in
  let to_remove := current ∖ updated_addresses in
  for_each forget (elements to_remove) ;;;
  for_each prime (elements to_add) ;;;
  modify (set_watch updated_addresses (address_map updated_payments)).


End Monitor.

(** * Specification vocabulary *)

Import PriceOracle Registry Monitor.

(** ** The price cache *)

(** A cache entry holds no price or a strictly positive one. *)
Definition positive_or_none (c : CacheEntry) : Prop :=
  match price c with
  | None => True
  | Some p => (0 <? p)%float = true
  end.

(** The value a refresh offers for each currency: [None] when the fetch
    or the decoding raised. *)
Definition offered_eur float_of_str (o : fetch_outcome) : option float :=
  match fetched_values float_of_str o with Ok (e, _) => Some e | Raise _ => None end.

Definition offered_usd float_of_str (o : fetch_outcome) : option float :=
  match fetched_values float_of_str o with Ok (_, u) => Some u | Raise _ => None end.

Definition not_positive (v : option float) : Prop :=
  match v with Some x => (0 <? x)%float = false | None => True end.

(** ** What a run of the handler leaves in the store *)

Definition is_ok {A} (r : result A) : bool :=
  match r with Ok _ => true | Raise _ => false end.

(** Whether the next statement finds the store unavailable. *)
Definition next_fault (s : Store) : bool :=
  match db_faults s with b :: _ => b | [] => false end.

(** The tables after the statements of a trace, those that succeeded
    applied in order. *)
Definition replay1 (t : Tables) (x : statement * bool) : Tables :=
  if snd x then
    match apply_statement (fst x) t with Ok t' => t' | Raise _ => t end
  else t.

Definition replay (tr : list (statement * bool)) (t : Tables) : Tables :=
  foldl replay1 t tr.

(** [run s tr s']: from [s], the statements [tr] were issued and led to
    [s']. *)
Record run (s : Store) (tr : list (statement * bool)) (s' : Store) : Prop := {
  run_statements : statements s' = statements s ++ tr;
  run_tables : tables s' = replay tr (tables s);
  run_faults : db_faults s' = drop (length tr) (db_faults s)
}.

(** The row the handler hands to [write_payment_record]. *)
Definition payment_row (now : Z) (payment : AddressConfig) (event : PaymentEvent)
  (reference description : string) (euro_amount usd_amount : option float) : BchPayment :=
  {| tx_id := default "" (ev_tx_hash event);
     amount := value_sats event;
     reference := reference;
     description := description;
     pay_address :=
       if String.eqb (ev_address event) "" then address payment else ev_address event;
     pay_euro_amount := euro_amount;
     usd_amount := usd_amount;
     succeeded_at := now |}.

(** Whether an insert of [r] goes through in [s]. *)
Definition insertable (r : BchPayment) (s : Store) : bool :=
  negb (next_fault s) && bool_decide (bchpayment (tables s) !! tx_id r = None).

(** The [users] table after the statements of a trace. *)
Definition users_after (tr : list (statement * bool)) (u : gmap Z UserRow)
  : gmap Z UserRow :=
  foldl (fun u x =>
           match x with
           | (UpdateGrainBalance id grain_delta, true) => alter (credit grain_delta) id u
           | _ => u
           end) u tr.

(** The statements a rewarding path issues: none, or one balance update
    by the ceiling of the tiered reward of the amount recorded. *)
Definition rewarded (user_id : Z) (recorded : option float)
  (tr : list (statement * bool)) : Prop :=
  tr = [] \/
  exists eur d ok,
    recorded = Some eur /\
    ceil (compute_grain_reward_eur eur) = Ok d /\
    tr = [(UpdateGrainBalance user_id d, ok)].


(** ** Concrete data, after the scenarios of the specification *)

Module Scenario.

Definition prices_400 : PriceCache :=
  {| _PRICE_CACHE_EUR := {| ts := 1; price := Some 400%float |};
     _PRICE_CACHE_USD := {| ts := 1; price := Some 430%float |} |}.

Definition prices_500 : PriceCache :=
  {| _PRICE_CACHE_EUR := {| ts := 1; price := Some 500%float |};
     _PRICE_CACHE_USD := {| ts := 1; price := Some 540%float |} |}.

(** One user (7) and one device (3, charging 0.50 EUR a feeding). *)
Definition some_tables : Tables :=
  {| users := {[ 7 := {| username := Some "alice"; grain_balance := Some 5 |} ]};
     devices :=
       {[ 3 := {| alias := Some "feeder"; stream_name := Some "cam1";
                  crypto_feed_price := Some 0.5%float;
                  total_feedings_today := None; total_feedings := Some 9;
                  last_feeding := None |} ]};
     bchpayment := ∅ |}.

Definition some_store : Store :=
  {| tables := some_tables; db_faults := []; statements := []; printed := [] |}.

Definition noon : Z := 1700000000000000.

Definition minutes (n : Z) : Z := n * 60 * 1000000.

(** A user-linked address created five minutes before [noon], with a
    threshold of 200000 sats and the given amount. *)
Definition user_address (euro_amount : option float) : AddressConfig :=
  {| address := "bitcoincash:quser"; user_id := Some 7; device_id := None;
     created_at := Some (noon - minutes 5); threshold := Some 200000;
     euro_amount := euro_amount |}.

Definition device_address : AddressConfig :=
  {| address := "bitcoincash:qdevice"; user_id := None; device_id := Some 3;
     created_at := Some (noon - minutes 5); threshold := None;
     euro_amount := None |}.

Definition output (sats : Z) : Utxo :=
  {| tx_hash := Some "a0"; tx_pos := Some 0; value := Some sats; height := Some 812345 |}.

(** An output that was there before the monitor looked. *)
Definition old_output : Utxo :=
  {| tx_hash := Some "f9"; tx_pos := Some 1; value := Some 70000; height := Some 800000 |}.

Definition payment_of (address : string) (sats : Z) (bch : float) : PaymentEvent :=
  {| ev_address := address; ev_tx_hash := Some "a0"; ev_tx_pos := Some 0;
     value_sats := sats; value_bch := bch; ev_height := 812345; status := confirmed |}.

Definition some_net (address : string) (utxos : list Utxo) (faults : list bool) : Net :=
  {| chain := {[ address := utxos ]}; rpc_faults := faults; calls := [] |}.

(** The monitor watching [payments], with [known] outputs, in front of a
    peer that lists [utxos] for [address]. *)
Definition some_world (prices : PriceCache) (payments : list AddressConfig)
  (known : gmap string (gset UtxoKey)) (address : string) (utxos : list Utxo)
  (faults : list bool) : World :=
  {| db := some_store; net := some_net address utxos faults;
     known_utxos_by_addr := known;
     address_to_payment := address_map payments;
     current_addresses := _build_address_set payments;
     received := []; prices := prices; now := noon |}.

(** The user address watched, its old output known, a new one listed. *)
Definition notified_world : World :=
  some_world prices_400 [user_address (Some 10%float)]
    {[ "bitcoincash:quser" := {[ key_of old_output ]} ]}
    "bitcoincash:quser" [old_output; output 250000] [].

(** The user address about to be primed while its first request raises. *)
Definition unprimed_world : World :=
  some_world prices_400 [user_address (Some 10%float)] ∅
    "bitcoincash:quser" [old_output] [true].

End Scenario.


(** ** The worker *)

(** [same_memory w w']: [w'] differs from [w] in the store at most. *)
Definition same_memory (w w' : World) : Prop :=
  net w' = net w /\
  known_utxos_by_addr w' = known_utxos_by_addr w /\
  address_to_payment w' = address_to_payment w /\
  current_addresses w' = current_addresses w /\
  received w' = received w /\
  prices w' = prices w /\
  now w' = now w.

(** The key of the output an event reports. *)
Definition event_key (e : PaymentEvent) : UtxoKey := (ev_tx_hash e, ev_tx_pos e).


(** What the peer lists for an address. *)
Definition listed (n : Net) (address : string) : list Utxo :=
  default [] (chain n !! address).

(** Whether the next call of the client raises. *)
Definition next_rpc_fault (n : Net) : bool :=
  match rpc_faults n with b :: _ => b | [] => false end.

(** [primed addr w w']: between [w] and [w'] the address was primed, its
    outputs requested and then the subscription made, and it is known in
    [w'] by the keys of the answer, or by no key when the request
    raised. *)
Definition primed (addr : string) (w w' : World) : Prop :=
  exists fetched subscribed before after,
    calls (net w') = calls (net w) ++ before
      ++ [(ListUnspent addr, fetched); (Subscribe addr, subscribed)] ++ after /\
    known_utxos_by_addr w' !! addr
    = Some (if fetched then keys_of (listed (net w) addr) else ∅).

(** ** The client and the registry *)

(** A result with elements at positions 0 and 1: an array of at least two
    elements, or a string of at least two characters. *)
Definition two_leading_elements (response : json) : Prop :=
  match response with
  | JArr items => (2 <= length items)%nat
  | JStr s => (2 <= length (Fulcrum.code_points s))%nat
  | _ => False
  end.

(** The shape the specification asks of the result: an array of exactly
    two elements. *)
Definition two_element_array (response : json) : Prop :=
  match response with
  | JArr items => length items = 2%nat
  | _ => False
  end.

(** The request [server_version] writes. *)
Definition version_request (c : Fulcrum.FulcrumClient) : Fulcrum.Request :=
  {| Fulcrum.rq_method := "server.version";
     Fulcrum.rq_params :=
       [JStr (Fulcrum.client_name c); JStr (Fulcrum.protocol_version c)];
     Fulcrum.rq_id := Fulcrum.request_id c + 1 |}.

(** The full reload of [_handle_notification]. *)
Definition reloaded (table : result (list AddressConfig))
  (addresses : gmap string AddressConfig) : handled * gmap string AddressConfig :=
  let '(ok, m) := load_addresses table addresses in (Reloaded ok, m).

(** * The rest of the backend *)

(** ** The client over its lifetime ([fulcrum_client.py]) *)

Module Session.

Import Fulcrum.


(** What the threads of the monitor do with their client: [connect],
    [disconnect], and the protocol methods, each of which is
    [_send_request(method, params)]. *)
Inductive op :=
| Connect (socket_ok : bool) (x : exchange)
| Disconnect
| Request (method : string) (params : list json) (x : exchange).

Inductive outcome :=
| Connected (ok : bool)
| Closed
| Answered (r : result json).

Definition step (o : op) (c : FulcrumClient) : outcome * FulcrumClient :=
  match o with
  | Connect socket_ok x =>
      let '(ok, c') := connect socket_ok x c in (Connected ok, c')
  | Disconnect => (Closed, disconnect c)
  | Request method params x =>
      let '(r, c') := _send_request method params x c in (Answered r, c')
  end.

Fixpoint session (ops : list op) (c : FulcrumClient) : list outcome * FulcrumClient :=
  match ops with
  | [] => ([], c)
  | o :: rest =>
      let '(r, c1) := step o c in
      let '(rs, c2) := session rest c1 in
      (r :: rs, c2)
  end.

(** One turn of [_connection_watchdog] ([address_monitor_multi.py], lines
    519-541): a ping; when it raises, [disconnect], [connect], and on
    success [_resubscribe_all]. *)
Inductive watchdog_outcome :=
| Alive
| Restored            (* [_resubscribe_all()] runs *)
| ReconnectFailed.

Definition _connection_watchdog_turn (ping : exchange) (socket_ok : bool)
  (version : exchange) (c : FulcrumClient) : watchdog_outcome * FulcrumClient :=
  match server_ping ping c with
  | (Ok _, c1) => (Alive, c1)
  | (Raise _, c1) =>
      match connect socket_ok version (disconnect c1) with
      | (true, c2) => (Restored, c2)
      | (false, c2) => (ReconnectFailed, c2)
      end
  end.

(** The watchdog thread beside the others: before each of its turns the
    other threads do [ops] with the client. *)
Fixpoint _connection_watchdog
  (turns : list (list op * (exchange * bool * exchange))) (c : FulcrumClient)
  : list watchdog_outcome * FulcrumClient :=
  match turns with
  | [] => ([], c)
  | (ops, (ping, socket_ok, version)) :: rest =>
      let c1 := snd (session ops c) in
      let '(o, c2) := _connection_watchdog_turn ping socket_ok version c1 in
      let '(os, c3) := _connection_watchdog rest c2 in
      (o :: os, c3)
  end.

End Session.

(** ** The listener over its lifetime ([address_listener_multi.py]) *)

Module Listening.

Import Registry.

(** The inner loop of [_listen_loop] (lines 138-141): the notifications
    are handled oldest first; each comes with what the table holds when it
    is handled. *)
Fixpoint drain (upper : string -> string)
  (notifies : list (payload * result (list AddressConfig)))
  (addresses : gmap string AddressConfig)
  : list handled * gmap string AddressConfig :=
  match notifies with
  | [] => ([], addresses)
  | (p, table) :: rest =>
      let '(h, m) := _handle_notification upper p table addresses in
      let '(hs, m') := drain upper rest m in
      (h :: hs, m')
  end.

(** [get_address]. *)
Definition get_address (addresses : gmap string AddressConfig) (address : string)
  : option AddressConfig :=
  addresses !! address.

(** The listener from its start in [run_monitor] (lines 175-180): the
    empty map, [load_addresses], then the notifications. *)
Definition listener (upper : string -> string)
  (table : result (list AddressConfig))
  (notifies : list (payload * result (list AddressConfig)))
  : gmap string AddressConfig :=
  snd (drain upper notifies (snd (load_addresses table ∅))).

End Listening.

(** ** The cleanup job ([cronjobs/cleanup_old_bch_addresses.py]) *)

Module Cleanup.

Import Registry Monitor.

(** [INTERVAL '24 hours'], in microseconds. *)
Definition day : Z := 24 * 60 * 60 * 1000000.

(** [address IN (SELECT address FROM bchpayment)]. *)
Definition paid (bchpayment : gmap string BchPayment) (a : string) : bool :=
  existsb (fun kp => String.eqb (pay_address (snd kp)) a) (map_to_list bchpayment).

(** [created_at < NOW() - INTERVAL '24 hours']: not true of a row without
    [created_at]. *)
Definition expired (now : Z) (r : AddressConfig) : bool :=
  match created_at r with
  | Some c => c <? now - day
  | None => false
  end.

(** The rows the [DELETE] leaves. *)
Definition kept (now : Z) (bchpayment : gmap string BchPayment)
  (bch : list AddressConfig) : list AddressConfig :=
  List.filter (fun r => negb (expired now r && negb (paid bchpayment (address r)))) bch.

(** What the job prints after its first line. *)
Inductive report :=
| CleanedUp (deleted : nat)
| CleanupError (e : exn).

(** [cleanup_old_bch_addresses]: the pool is created outside the [try];
    [store_ok] says whether the [DELETE] went through. *)
Definition cleanup_old_bch_addresses (pool_ok store_ok : bool) (now : Z)
  (bchpayment : gmap string BchPayment) (bch : list AddressConfig)
  : result report * list AddressConfig :=
  if negb pool_ok then (Raise StoreUnavailable, bch)
  else if store_ok then
    let rows := kept now bchpayment bch in
    (Ok (CleanedUp (length bch - length rows)%nat), rows)
  else (Ok (CleanupError StoreUnavailable), bch).

End Cleanup.

(** ** The logo on the QR code ([cashaddressgenerator.py], lines 68-102) *)

Module QRCode.

(** [round(x)] on a float: the nearest integer, a tie going to the even
    one. *)
Definition round (x : float) : result Z :=
  match Prim2SF x with
  | S754_zero _ => Ok 0
  | S754_finite s m e =>
      let n :=
        if 0 <=? e then Z.pos m * 2 ^ e
        else
          let d := 2 ^ (- e) in
          let q := Z.pos m / d in
          let r := Z.pos m mod d in
          if 2 * r <? d then q
          else if d <? 2 * r then q + 1
          else if Z.even q then q else q + 1 in
      Ok (if s then - n else n)
  | S754_infinity _ => Raise OverflowError
  | S754_nan => Raise ValueError
  end.

(** [a / b] on two ints, for operands that are floats exactly (below
    2^53, as pixel counts are), where it is the quotient of the two
    floats. *)
Definition true_div (a b : Z) : result float :=
  match float_of_int a, float_of_int b with
  | Ok x, Ok y => Ok (x / y)%float
  | Raise e, _ => Raise e
  | _, Raise e => Raise e
  end.

Definition box_size_value : Z := 6.

Definition margin_px : Z := 1 * box_size_value.

(** [max(8, int(min(qr_w, qr_h) * 0.2) - 2 * margin_px)]. *)
Definition target_size (qr_w qr_h : Z) : result Z :=
  match float_of_int (Z.min qr_w qr_h) with
  | Raise e => Raise e
  | Ok m =>
      match int_of_float (m * 0.2)%float with
      | Raise e => Raise e
      | Ok t => Ok (Z.max 8 (t - 2 * margin_px))
      end
  end.

(** [((raw + box_size_value - 1) // box_size_value) * box_size_value]. *)
Definition whole_modules (raw : Z) : Z :=
  ((raw + box_size_value - 1) / box_size_value) * box_size_value.

(** [int(round(x / box_size_value)) * box_size_value]. *)
Definition snap (x : Z) : result Z :=
  match true_div x box_size_value with
  | Raise e => Raise e
  | Ok q =>
      match round q with
      | Raise e => Raise e
      | Ok n => Ok (n * box_size_value)
      end
  end.

(** Where the white square and the icon go: the size and the top left
    corner of the square, and the top left corner of the icon. *)
Record placement := {
  bg_w : Z; bg_h : Z;
  bg_left : Z; bg_top : Z;
  icon_left : Z; icon_top : Z
}.

(** Lines 79-95, for a code of [qr_w] by [qr_h] pixels and an icon of
    [icon_w] by [icon_h]. *)
Definition place_icon (qr_w qr_h icon_w icon_h : Z) : result placement :=
  let padding := margin_px in
  let bg_w_raw := icon_w + 2 * padding in
  let bg_h_raw := icon_h + 2 * padding in
  let bg_w := whole_modules bg_w_raw in
  let bg_h := whole_modules bg_h_raw in
  match snap ((qr_w - bg_w) / 2) with
  | Raise e => Raise e
  | Ok bg_left =>
      match snap ((qr_h - bg_h) / 2) with
      | Raise e => Raise e
      | Ok bg_top =>
          Ok {| bg_w := bg_w; bg_h := bg_h; bg_left := bg_left; bg_top := bg_top;
                icon_left := bg_left + (bg_w - icon_w) / 2;
                icon_top := bg_top + (bg_h - icon_h) / 2 |}
      end
  end.

End QRCode.

(** ** Vocabulary for the lifetimes *)


(** An outcome that gave the caller nothing: [connect] returned [False],
    or the request raised. *)
Definition fruitless (o : Session.outcome) : Prop :=
  match o with
  | Session.Connected ok => ok = false
  | Session.Closed => True
  | Session.Answered r => is_ok r = false
  end.

(** Every entry of the map sits under its own address. *)
Definition keyed (addresses : gmap string AddressConfig) : Prop :=
  forall k r, addresses !! k = Some r -> address r = k.

(** The last row of a table with the given address. *)
Definition last_row (a : string) (rows : list AddressConfig) : option AddressConfig :=
  last (filter (fun r => address r = a) rows).

(** The latest value above zero that a schedule of refreshes offered for
    a currency, with the time of that refresh. *)
Definition latest_positive (offered : fetch_outcome -> option float)
  (schedule : list (Z * fetch_outcome)) : option (Z * float) :=
  last (omap (fun x : Z * fetch_outcome =>
                match offered (snd x) with
                | Some v => if (0 <? v)%float then Some (fst x, v) else None
                | None => None
                end) schedule).

(** The cache entry that holds it. *)
Definition entry_of (latest : option (Z * float)) (otherwise : CacheEntry) : CacheEntry :=
  match latest with
  | Some (t, v) => {| ts := t; price := Some v |}
  | None => otherwise
  end.

(** The address a call of the client is about. *)
Definition rpc_address (c : rpc) : option string :=
  match c with
  | ListUnspent a | Subscribe a | Unsubscribe a => Some a
  | HeadersSubscribe | Ping => None
  end.

(** ** More concrete data *)

Module Edge.

(** The output of 100000 sats on the user address, forty minutes after
    the address was created. *)
Definition late : Z := Scenario.noon + Scenario.minutes 35.

Definition small_payment : PaymentEvent :=
  Scenario.payment_of "bitcoincash:quser" 100000 0.001.

(** The store after that output has been handled once. *)
Definition handled_once : Store :=
  snd (threshold_handler Scenario.prices_400 late
         (Scenario.user_address (Some 10%float)) small_payment Scenario.some_store).

(** The row a notification in the documented format leaves: address,
    user and device, nothing else. *)
Definition notified_address : AddressConfig :=
  {| address := "bitcoincash:quser"; user_id := Some 7; device_id := None;
     created_at := None; threshold := None; euro_amount := None |}.

(** A device address whose device is not in the table. *)
Definition stray_device_address : AddressConfig :=
  {| address := "bitcoincash:qstray"; user_id := None; device_id := Some 99;
     created_at := Some (Scenario.noon - Scenario.minutes 5); threshold := None;
     euro_amount := None |}.


End Edge.

(** The [bch] table two days after [noon]: the user address and the
    device address, both created five minutes before [noon]. *)
Module Old.

Definition two_days_later : Z := Scenario.noon + 2 * Cleanup.day.

Definition bch : list AddressConfig :=
  [Scenario.user_address (Some 10%float); Scenario.device_address].

End Old.
(** * Properties *)

(** ** Order of binary64 values *)

Lemma SFcompare_antisym (x y : spec_float) :
  SFcompare y x = option_map CompOpp (SFcompare x y).
Proof.
  destruct x as [sx|sx| |sx mx ex], y as [sy|sy| |sy my ey]; simpl;
    try reflexivity; try (destruct sx; reflexivity); try (destruct sy; reflexivity);
    try (destruct sx, sy; reflexivity).
  destruct sx, sy; simpl; try reflexivity;
    rewrite (Z.compare_antisym ex ey);
    destruct (ex ?= ey)%Z; simpl; try reflexivity;
    rewrite (Pos.compare_cont_antisym mx my Eq); simpl;
    destruct (Pos.compare_cont Eq mx my); reflexivity.
Qed.





Lemma ltb_not_eqb (x y : float) : (x <? y)%float = true -> (y =? x)%float = false.
Proof.
  rewrite ltb_spec, FloatAxioms.eqb_spec. unfold SFltb, SFeqb.
  rewrite (SFcompare_antisym (Prim2SF x) (Prim2SF y)).
  destruct (SFcompare (Prim2SF x) (Prim2SF y)) as [[]|]; simpl; congruence.
Qed.

Lemma positive_truthy (p : float) : (0 <? p)%float = true -> float_truthy p = true.
Proof. intros H. unfold float_truthy. rewrite (ltb_not_eqb _ _ H). reflexivity. Qed.

(** ** The price cache *)

Lemma write_if_positive_keeps now_ts val c :
  positive_or_none c -> positive_or_none (write_if_positive now_ts val c).
Proof.
  unfold write_if_positive. destruct (0 <? val)%float eqn:E; [|tauto].
  intros _. exact E.
Qed.

Lemma refresh_keeps_positive float_of_str now_ts o c :
  positive_or_none (_PRICE_CACHE_EUR c) /\ positive_or_none (_PRICE_CACHE_USD c) ->
  positive_or_none (_PRICE_CACHE_EUR (_refresh_bch_prices_once float_of_str now_ts o c)) /\
  positive_or_none (_PRICE_CACHE_USD (_refresh_bch_prices_once float_of_str now_ts o c)).
Proof.
  intros [He Hu]. unfold _refresh_bch_prices_once.
  destruct (fetched_values float_of_str o) as [[eur_val usd_val]|]; [|tauto].
  destruct ((0 <? eur_val)%float || (0 <? usd_val)%float); [|tauto].
  simpl. split; apply write_if_positive_keeps; assumption.
Qed.

Lemma refresher_keeps_positive float_of_str schedule : forall c,
  positive_or_none (_PRICE_CACHE_EUR c) /\ positive_or_none (_PRICE_CACHE_USD c) ->
  positive_or_none (_PRICE_CACHE_EUR (refresher float_of_str schedule c)) /\
  positive_or_none (_PRICE_CACHE_USD (refresher float_of_str schedule c)).
Proof.
  induction schedule as [|[now_ts o] rest IH]; intros c H; simpl; [exact H|].
  apply IH, refresh_keeps_positive, H.
Qed.

Lemma refresh_keeps_eur float_of_str now_ts o c :
  not_positive (offered_eur float_of_str o) ->
  _PRICE_CACHE_EUR (_refresh_bch_prices_once float_of_str now_ts o c) = _PRICE_CACHE_EUR c.
Proof.
  unfold offered_eur, _refresh_bch_prices_once.
  destruct (fetched_values float_of_str o) as [[e u]|]; simpl; [|reflexivity].
  intros H. rewrite H. simpl. destruct (0 <? u)%float; simpl; [|reflexivity].
  unfold write_if_positive. rewrite H. reflexivity.
Qed.

Lemma refresh_keeps_usd float_of_str now_ts o c :
  not_positive (offered_usd float_of_str o) ->
  _PRICE_CACHE_USD (_refresh_bch_prices_once float_of_str now_ts o c) = _PRICE_CACHE_USD c.
Proof.
  unfold offered_usd, _refresh_bch_prices_once.
  destruct (fetched_values float_of_str o) as [[e u]|]; simpl; [|reflexivity].
  intros H. rewrite H, orb_false_r. destruct (0 <? e)%float; simpl; [|reflexivity].
  unfold write_if_positive. rewrite H. reflexivity.
Qed.

(** C9. Starting from the empty cache, after any sequence of refreshes
    (whatever each fetch returned, and however [float] reads a string)
    [get_bch_eur_price_cached] and [get_bch_usd_price_cached] return
    [None] or a price [p] with [0 < p]; and a refresh whose fetch failed or
    whose value for a currency is missing, zero or otherwise not above
    zero leaves that currency's entry as it was. *)
Theorem price_cache_positive :
  forall (float_of_str : string -> result float),
    (forall schedule,
        let c := refresher float_of_str schedule initial_cache in
        match get_bch_eur_price_cached c with
        | None => True | Some p => (0 <? p)%float = true end /\
        match get_bch_usd_price_cached c with
        | None => True | Some p => (0 <? p)%float = true end) /\
    (forall now_ts o c,
        (not_positive (offered_eur float_of_str o) ->
         _PRICE_CACHE_EUR (_refresh_bch_prices_once float_of_str now_ts o c)
         = _PRICE_CACHE_EUR c) /\
        (not_positive (offered_usd float_of_str o) ->
         _PRICE_CACHE_USD (_refresh_bch_prices_once float_of_str now_ts o c)
         = _PRICE_CACHE_USD c)) /\
    offered_eur float_of_str FetchFailed = None /\
    offered_eur float_of_str (Fetched (JObj [])) = Some 0%float /\
    offered_eur float_of_str (Fetched (JObj [("bitcoin-cash", JObj [])])) = Some 0%float /\
    offered_eur float_of_str
      (Fetched (JObj [("bitcoin-cash", JObj [("eur", JInt 0); ("usd", JFloat 0)])]))
    = Some 0%float /\
    offered_eur float_of_str
      (Fetched (JObj [("bitcoin-cash", JObj [("eur", JNull); ("usd", JNull)])]))
    = Some 0%float.
Proof.
  intros float_of_str. split; [|split; [|repeat split; reflexivity]].
  - intros schedule c.
    apply (refresher_keeps_positive float_of_str schedule initial_cache).
    split; exact I.
  - intros now_ts o c. split.
    + apply refresh_keeps_eur.
    + apply refresh_keeps_usd.
Qed.

(** ** Runs of the store *)

Lemma run_nil s : run s [] s.
Proof. split; simpl; [symmetry; apply app_nil_r|reflexivity|reflexivity]. Qed.

Lemma run_app s tr1 s1 tr2 s2 : run s tr1 s1 -> run s1 tr2 s2 -> run s (tr1 ++ tr2) s2.
Proof.
  intros [H1 H2 H3] [K1 K2 K3]. split.
  - rewrite K1, H1. symmetry. apply app_assoc.
  - rewrite K2, H2. unfold replay. symmetry. apply foldl_app.
  - rewrite K3, H3, drop_drop, length_app; reflexivity.
Qed.

Lemma run_printed s tr s' p :
  run s tr s' ->
  run s tr {| tables := tables s'; db_faults := db_faults s';
              statements := statements s'; printed := p |}.
Proof. intros [H1 H2 H3]. split; assumption. Qed.

Lemma run_from_printed s tr s' p :
  run s tr s' ->
  run {| tables := tables s; db_faults := db_faults s;
         statements := statements s; printed := p |} tr s'.
Proof. intros [H1 H2 H3]. split; assumption. Qed.

Lemma execute_run st s r s' :
  execute st s = (r, s') ->
  run s [(st, is_ok r)] s' /\ printed s' = printed s /\
  is_ok r = negb (next_fault s) && is_ok (apply_statement st (tables s)).
Proof.
  unfold execute, next_fault.
  destruct (match db_faults s with b :: _ => b | [] => false end).
  - intros [= <- <-]. simpl. split; [|split; reflexivity].
    split; simpl; [reflexivity|reflexivity|]. destruct (db_faults s); reflexivity.
  - destruct (apply_statement st (tables s)) eqn:E; intros [= <- <-]; simpl;
      (split; [|split; reflexivity]);
      (split; simpl; [reflexivity| |destruct (db_faults s); reflexivity]).
    + unfold replay1. simpl. rewrite E. reflexivity.
    + reflexivity.
Qed.

Lemma print_run m s : exists s', print m s = (Ok tt, s') /\ run s [] s' /\
  printed s' = printed s ++ [m].
Proof.
  eexists. split; [reflexivity|]. split; [|reflexivity].
  apply run_printed, run_nil.
Qed.

(** ** The blocks of the handler *)

Lemma snapshot_usd_run prices vb f :
  exists f', snapshot_usd prices vb f = (Ok tt, f') /\ store f' = store f /\
    euro_amount_insert f' = euro_amount_insert f /\
    usd_amount_insert f' =
      match available (get_bch_usd_price_cached prices) with
      | Some price_usd => Some (vb * price_usd)%float
      | None => usd_amount_insert f
      end.
Proof.
  unfold snapshot_usd.
  destruct (available (get_bch_usd_price_cached prices)); eexists; repeat split.
Qed.

Lemma on_store_execute st f r f' :
  on_store (execute st) f = (r, f') ->
  run (store f) [(st, is_ok r)] (store f') /\
  printed (store f') = printed (store f) /\
  is_ok r = negb (next_fault (store f)) && is_ok (apply_statement st (tables (store f))) /\
  description_ f' = description_ f /\
  euro_amount_insert f' = euro_amount_insert f /\
  usd_amount_insert f' = usd_amount_insert f.
Proof.
  unfold on_store, zoom. destruct (execute st (store f)) as [r0 s0] eqn:E.
  intros [= <- <-]. simpl. apply execute_run in E. tauto.
Qed.

Lemma credit_grain_run user_id username eur_amount f r f' :
  credit_grain user_id username eur_amount f = (r, f') ->
  euro_amount_insert f' = euro_amount_insert f /\
  usd_amount_insert f' = usd_amount_insert f /\
  printed (store f') = printed (store f) /\
  match ceil (compute_grain_reward_eur eur_amount) with
  | Ok d => run (store f) [(UpdateGrainBalance user_id d, is_ok r)] (store f')
  | Raise _ => f' = f /\ is_ok r = false
  end.
Proof.
  unfold credit_grain, bind, lift_result.
  destruct (ceil (compute_grain_reward_eur eur_amount)) as [d|e].
  - destruct (on_store (execute (UpdateGrainBalance user_id d)) f) as [r0 f0] eqn:E.
    apply on_store_execute in E. destruct E as (Hr & Hp & _ & _ & He & Hu).
    destruct r0; intros [= <- <-]; simpl; auto.
  - intros [= <- <-]. auto.
Qed.

Lemma configured_run prices user_id username eur_amount event f r f' :
  configured prices user_id username eur_amount event f = (r, f') ->
  euro_amount_insert f' = Some eur_amount /\
  match ceil (compute_grain_reward_eur eur_amount) with
  | Ok d => run (store f) [(UpdateGrainBalance user_id d, is_ok r)] (store f')
  | Raise _ => run (store f) [] (store f')
  end.
Proof.
  unfold configured, bind, set_euro_amount_insert, modify.
  match goal with |- context [snapshot_usd ?p ?v ?g] =>
    destruct (snapshot_usd_run p v g) as (f1 & -> & Hs & He & _) end.
  intros H. apply credit_grain_run in H. destruct H as (He' & _ & _ & H).
  split; [rewrite He', He; reflexivity|].
  destruct (ceil (compute_grain_reward_eur eur_amount)).
  - rewrite Hs in H. exact H.
  - destruct H as [-> _]. rewrite Hs. apply run_nil.
Qed.

Lemma price_based_run prices user_id username event f r f' :
  price_based prices user_id username event f = (r, f') ->
  match available (get_bch_eur_price_cached prices) with
  | Some price_eur =>
      let eur_amount := (or_zero (value_bch event) * price_eur)%float in
      euro_amount_insert f' = Some eur_amount /\
      match ceil (compute_grain_reward_eur eur_amount) with
      | Ok d => run (store f) [(UpdateGrainBalance user_id d, is_ok r)] (store f')
      | Raise _ => run (store f) [] (store f')
      end
  | None =>
      r = Ok tt /\ run (store f) [] (store f') /\
      euro_amount_insert f' = euro_amount_insert f /\
      usd_amount_insert f' = usd_amount_insert f
  end.
Proof.
  unfold price_based.
  destruct (available (get_bch_eur_price_cached prices)) as [price_eur|].
  - unfold bind, set_euro_amount_insert, modify.
    match goal with |- context [snapshot_usd ?p ?v ?g] =>
      destruct (snapshot_usd_run p v g) as (f1 & -> & Hs & He & _) end.
    intros H. apply credit_grain_run in H. destruct H as (He' & _ & _ & H).
    split; [rewrite He', He; reflexivity|].
    match type of H with match ?c with _ => _ end => destruct c end.
    + rewrite Hs in H. exact H.
    + destruct H as [-> _]. rewrite Hs. apply run_nil.
  - unfold on_store, zoom, print, modify. intros [= <- <-]. simpl.
    repeat split; try reflexivity. apply run_printed, run_nil.
Qed.

Lemma configured_rewarded prices user_id username eur_amount event f r f' :
  configured prices user_id username eur_amount event f = (r, f') ->
  exists tr, run (store f) tr (store f') /\ rewarded user_id (euro_amount_insert f') tr.
Proof.
  intros H. apply configured_run in H. destruct H as [He H].
  destruct (ceil (compute_grain_reward_eur eur_amount)) as [d|e] eqn:E.
  - eexists. split; [exact H|]. right. eauto 10.
  - eexists. split; [exact H|]. left. reflexivity.
Qed.

Lemma price_based_rewarded prices user_id username event f r f' :
  price_based prices user_id username event f = (r, f') ->
  exists tr, run (store f) tr (store f') /\ rewarded user_id (euro_amount_insert f') tr.
Proof.
  intros H. apply price_based_run in H.
  destruct (available (get_bch_eur_price_cached prices)) as [price_eur|].
  - destruct H as [He H].
    match type of H with match ?c with _ => _ end => destruct c as [d|e] eqn:E end.
    + eexists. split; [exact H|]. right. eauto 10.
    + eexists. split; [exact H|]. left. reflexivity.
  - destruct H as (_ & H & _). eexists. split; [exact H|]. left. reflexivity.
Qed.

Lemma grain_update_rewarded prices now payment user_id username event f r f' :
  grain_update prices now payment user_id username event f = (r, f') ->
  exists tr, run (store f) tr (store f') /\ rewarded user_id (euro_amount_insert f') tr.
Proof.
  unfold grain_update.
  destruct (created_at payment) as [created|].
  - destruct (now - created <? window), (threshold_sats_of payment) as [t|];
      try apply price_based_rewarded.
    destruct (t <=? value_sats event); [|apply price_based_rewarded].
    destruct (euro_amount payment) as [cfg|]; [|apply price_based_rewarded].
    destruct (0 <? cfg)%float; [apply configured_rewarded|apply price_based_rewarded].
  - intros [= <- <-]. exists []. split; [apply run_nil|left; reflexivity].
Qed.

Lemma is_ok_insert r t :
  is_ok (apply_statement (InsertBchPayment r) t)
  = bool_decide (bchpayment t !! tx_id r = None).
Proof.
  simpl. case_bool_decide as H.
  - rewrite H. reflexivity.
  - destruct (bchpayment t !! tx_id r); [reflexivity|congruence].
Qed.

Lemma write_payment_record_run now tx a ref d addr eur usd s :
  let row := {| tx_id := tx; amount := a; reference := ref; description := d;
                pay_address := addr; pay_euro_amount := eur; usd_amount := usd;
                succeeded_at := now |} in
  exists s',
    write_payment_record now tx a ref d addr eur usd s = (Ok tt, s') /\
    run s [(InsertBchPayment row, insertable row s)] s' /\
    (insertable row s = true -> printed s' = printed s) /\
    (insertable row s = false -> exists e, printed s' = printed s ++ [InsertFailed e]).
Proof.
  intros row. unfold write_payment_record, try_except. fold row.
  destruct (execute (InsertBchPayment row) s) as [r s1] eqn:E.
  apply execute_run in E. destruct E as (Hr & Hp & Hok).
  rewrite is_ok_insert in Hok. fold (insertable row s) in Hok.
  destruct r as [[]|e]; simpl in Hok; rewrite <- Hok.
  - exists s1. repeat split; try apply Hr; [auto|discriminate].
  - eexists. split; [reflexivity|]. split; [apply run_printed, Hr|].
    split; [discriminate|]. intros _. exists e. simpl. rewrite Hp. reflexivity.
Qed.

Lemma select_username_run user_id f :
  exists (username : option string) f1,
    try_except (on_store (select_username user_id))
      (fun e => bind (on_store (print (UsernameLookupFailed e))) (fun _ => ret None)) f
    = (Ok username, f1) /\
    run (store f) [(SelectUsername user_id, negb (next_fault (store f)))] (store f1) /\
    description_ f1 = description_ f /\
    euro_amount_insert f1 = euro_amount_insert f /\
    usd_amount_insert f1 = usd_amount_insert f.
Proof.
  unfold try_except, on_store, zoom, select_username, bind.
  destruct (execute (SelectUsername user_id) (store f)) as [r s1] eqn:E.
  apply execute_run in E. destruct E as (Hr & Hp & Hok).
  simpl in Hok. rewrite andb_true_r in Hok. rewrite <- Hok.
  destruct r as [[]|e]; simpl.
  - do 2 eexists. split; [reflexivity|]. simpl. auto.
  - do 2 eexists. split; [reflexivity|]. simpl. split; [|auto].
    apply run_printed, Hr.
Qed.

Lemma threshold_handler_user prices now payment event s user_id :
  Registry.user_id payment = Some user_id ->
  exists username f1 r f2 desc s',
    run s [(SelectUsername user_id, negb (next_fault s))] (store f1) /\
    euro_amount_insert f1 = None /\ usd_amount_insert f1 = None /\
    grain_update prices now payment user_id username event f1 = (r, f2) /\
    threshold_handler prices now payment event s = (Ok tt, s') /\
    let row := payment_row now payment event (str_of_int user_id) desc
                 (euro_amount_insert f2) (usd_amount_insert f2) in
    exists s2,
      run (store f2) [] s2 /\
      run s2 [(InsertBchPayment row, insertable row s2)] s' /\
      (insertable row s2 = false -> exists e, last (printed s') = Some (InsertFailed e)).
Proof.
  intros Hu. unfold threshold_handler. rewrite Hu. unfold bind at 1.
  destruct (print_run (PaymentDetected (address payment) (value_sats event)) s)
    as (s0 & -> & Hs0 & _).
  unfold user_branch. unfold bind at 1.
  match goal with |- context [try_except (on_store (select_username user_id)) ?h ?f] =>
    destruct (select_username_run user_id f) as (username & f1 & -> & Hr1 & Hd1 & He1 & Hu1)
  end.
  simpl in Hr1, He1, Hu1.
  unfold bind at 1, try_except at 1.
  destruct (grain_update prices now payment user_id username event f1) as [r f2] eqn:Eg.
  exists username, f1, r, f2.
  assert (Hfault : next_fault s0 = next_fault s).
  { unfold next_fault. rewrite (run_faults _ _ _ Hs0). reflexivity. }
  rewrite Hfault in Hr1.
  assert (Hrun1 : run s [(SelectUsername user_id, negb (next_fault s))] (store f1)).
  { apply (run_app s [] s0 _ _ Hs0 Hr1). }
  destruct r as [[]|e]; simpl.
  - match goal with |- context [write_payment_record ?n ?t ?a ?rf ?d ?ad ?eu ?us ?st] =>
      destruct (write_payment_record_run n t a rf d ad eu us st) as (s' & -> & Hw & _ & Hf)
    end.
    exists (description_ f2), s'.
    split; [exact Hrun1|]. split; [exact He1|]. split; [exact Hu1|].
    split; [exact Eg|]. split; [reflexivity|].
    exists (store f2). split; [apply run_nil|]. split; [exact Hw|].
    intros Hi. destruct (Hf Hi) as [e ->]. exists e. apply last_snoc.
  - match goal with |- context [write_payment_record ?n ?t ?a ?rf ?d ?ad ?eu ?us ?st] =>
      destruct (write_payment_record_run n t a rf d ad eu us st) as (s' & -> & Hw & _ & Hf)
    end.
    exists (description_ f2), s'.
    split; [exact Hrun1|]. split; [exact He1|]. split; [exact Hu1|].
    split; [exact Eg|]. split; [reflexivity|].
    eexists. split; [apply run_printed, run_nil|]. split; [exact Hw|].
    intros Hi. destruct (Hf Hi) as [e' ->]. exists e'. apply last_snoc.
Qed.

Lemma replay_users tr : forall t, users (replay tr t) = users_after tr (users t).
Proof.
  unfold replay, users_after.
  induction tr as [|[st ok] tr IH]; intros t; simpl; [reflexivity|].
  rewrite IH. f_equal. unfold replay1. simpl.
  destruct st as [| | |[]| |r], ok; simpl; try reflexivity.
  destruct (bchpayment t !! tx_id r); reflexivity.
Qed.

Lemma next_fault_drop s s' n :
  db_faults s' = drop n (db_faults s) -> next_fault s' = nth n (db_faults s) false.
Proof.
  unfold next_fault. intros ->. generalize (db_faults s). clear.
  induction n as [|n IH]; intros [|b l]; simpl; try reflexivity.
  - apply IH.
Qed.

Lemma grain_update_price_mode prices now payment user_id username event created :
  created_at payment = Some created ->
  (window <= now - created \/ threshold_sats_of payment = None \/
   exists t, threshold_sats_of payment = Some t /\ value_sats event < t) ->
  grain_update prices now payment user_id username event
  = price_based prices user_id username event.
Proof.
  intros Hc H. unfold grain_update. rewrite Hc.
  destruct (now - created <? window) eqn:Ew; [|reflexivity].
  destruct (threshold_sats_of payment) as [t|] eqn:Et; [|reflexivity].
  destruct H as [H|[H|(t' & H & Hlt)]].
  - apply Z.ltb_lt in Ew. lia.
  - discriminate.
  - injection H as <-. destruct (t <=? value_sats event) eqn:E; [|reflexivity].
    apply Z.leb_le in E. lia.
Qed.


(** Every run of the handler on a user-linked address: the username is
    looked up, the [try] block of the reward runs ([P] says what it issues
    and what it leaves in the two recorded amounts), and the row is
    inserted. *)
Lemma user_payment_of prices now payment event s user_id
  (P : option float -> option float -> list (statement * bool) -> Prop) :
  Registry.user_id payment = Some user_id ->
  (forall username f r f',
      euro_amount_insert f = None -> usd_amount_insert f = None ->
      grain_update prices now payment user_id username event f = (r, f') ->
      exists tr, run (store f) tr (store f') /\
                 P (euro_amount_insert f') (usd_amount_insert f') tr) ->
  exists s' s2 grain row,
    threshold_handler prices now payment event s = (Ok tt, s') /\
    run s ((SelectUsername user_id, negb (next_fault s)) :: grain) s2 /\
    run s2 [(InsertBchPayment row, insertable row s2)] s' /\
    P (pay_euro_amount row) (usd_amount row) grain /\
    tx_id row = default "" (ev_tx_hash event) /\
    amount row = value_sats event /\
    (insertable row s2 = false -> exists e, last (printed s') = Some (InsertFailed e)).
Proof.
  intros Hu HP.
  destruct (threshold_handler_user prices now payment event s user_id Hu)
    as (username & f1 & r & f2 & desc & s' & H1 & He1 & Hu1 & Hg & Hh & s2 & H2 & H3 & Hl).
  destruct (HP _ _ _ _ He1 Hu1 Hg) as (grain & Hrun & Hgrain).
  pose proof (run_app _ _ _ _ _ H1 Hrun) as H12.
  pose proof (run_app _ _ _ _ _ H12 H2) as H123. rewrite app_nil_r in H123.
  exists s', s2, grain. eexists. split; [exact Hh|]. split; [exact H123|].
  split; [exact H3|]. split; [exact Hgrain|]. split; [reflexivity|].
  split; [reflexivity|]. exact Hl.
Qed.

(** The same, read on the store: the statements issued, whether the
    insert went through, and the tables left. *)
Lemma run_insert s tr s2 row s' :
  run s tr s2 ->
  run s2 [(InsertBchPayment row, insertable row s2)] s' ->
  statements s' = statements s ++ tr ++ [(InsertBchPayment row, insertable row s2)] /\
  insertable row s2
  = negb (nth (length tr) (db_faults s) false)
    && bool_decide (bchpayment (replay tr (tables s)) !! tx_id row = None) /\
  users (tables s') = users_after tr (users (tables s)) /\
  (insertable row s2 = true -> bchpayment (tables s') !! tx_id row = Some row).
Proof.
  intros H1 H2. pose proof (run_app _ _ _ _ _ H1 H2) as H.
  split; [apply (run_statements _ _ _ H)|].
  split.
  { unfold insertable. rewrite (next_fault_drop s s2 _ (run_faults _ _ _ H1)).
    rewrite (run_tables _ _ _ H1). reflexivity. }
  split.
  { rewrite (run_tables _ _ _ H2), replay_users. simpl.
    destruct (insertable row s2); rewrite (run_tables _ _ _ H1), replay_users;
      reflexivity. }
  intros Hi. rewrite (run_tables _ _ _ H2). rewrite Hi. unfold replay. simpl.
  unfold replay1. simpl. unfold insertable in Hi.
  apply andb_true_iff in Hi. destruct Hi as [_ Hi]. apply bool_decide_eq_true in Hi.
  rewrite Hi. simpl. apply lookup_insert_eq.
Qed.

(** ** User-linked payments *)

Lemma users_after_rewarded user_id recorded grain s (b : bool) :
  rewarded user_id recorded grain ->
  bchpayment (replay ((SelectUsername user_id, b) :: grain) (tables s))
  = bchpayment (tables s).
Proof.
  intros [->|(eur & d & ok & _ & _ & ->)]; unfold replay, replay1; simpl.
  - destruct b; reflexivity.
  - destruct b, ok; reflexivity.
Qed.



(** C4. On a user-linked address handled by the price-based method (the
    window has passed, or no positive threshold is set, or the output is
    below it) while no EUR price is cached, no balance update is issued
    and the [users] table is left as it was; the row is still inserted,
    with no [euro_amount] (and no [usd_amount]): the insert is issued, and
    goes through unless the store is unavailable or the [tx_id] is
    already recorded. *)
Theorem price_mode_without_price prices now payment event s user_id created :
  Registry.user_id payment = Some user_id ->
  created_at payment = Some created ->
  (window <= now - created \/ threshold_sats_of payment = None \/
   exists t, threshold_sats_of payment = Some t /\ value_sats event < t) ->
  get_bch_eur_price_cached prices = None ->
  exists s' row,
    threshold_handler prices now payment event s = (Ok tt, s') /\
    statements s' = statements s
      ++ [(SelectUsername user_id, negb (next_fault s));
          (InsertBchPayment row,
           negb (nth 1 (db_faults s) false)
           && bool_decide (bchpayment (tables s) !! tx_id row = None))] /\
    tx_id row = default "" (ev_tx_hash event) /\
    amount row = value_sats event /\
    pay_euro_amount row = None /\
    usd_amount row = None /\
    users (tables s') = users (tables s) /\
    (nth 1 (db_faults s) false = false ->
     bchpayment (tables s) !! tx_id row = None ->
     bchpayment (tables s') !! tx_id row = Some row).
Proof.
  intros Hu Hc Hmode Hprice.
  destruct (user_payment_of prices now payment event s user_id
              (fun eur usd tr => eur = None /\ usd = None /\ tr = []) Hu)
    as (s' & s2 & grain & row & Hh & H1 & H2 & (Heur & Husd & ->) & Htx & Ham & _).
  { intros username f r f' He0 Hu0.
    rewrite (grain_update_price_mode _ _ _ _ _ _ _ Hc Hmode).
    intros H. apply price_based_run in H. rewrite Hprice in H. simpl in H.
    destruct H as (_ & Hrun & He' & Hu'). exists []. split; [exact Hrun|].
    rewrite He', Hu'. auto. }
  destruct (run_insert _ _ _ _ _ H1 H2) as (Hst & Hok & Hus & Hins).
  assert (Hb : bchpayment (replay [(SelectUsername user_id, negb (next_fault s))] (tables s))
               = bchpayment (tables s)).
  { unfold replay, replay1. simpl. destruct (next_fault s); reflexivity. }
  rewrite Hb in Hok. simpl in Hok.
  exists s', row. split; [exact Hh|]. split; [rewrite Hst, Hok; reflexivity|].
  split; [exact Htx|]. split; [exact Ham|]. split; [exact Heur|]. split; [exact Husd|].
  split.
  - rewrite Hus. simpl. destruct (next_fault s); reflexivity.
  - intros Hf Hn. apply Hins. rewrite Hok, Hf. simpl.
    apply bool_decide_eq_true. exact Hn.
Qed.



(** C4 at scenario S4: forty minutes after creation, nothing cached. *)
Lemma price_mode_without_price_S4 :
  exists s' row,
    threshold_handler initial_cache (Scenario.noon + Scenario.minutes 35)
      (Scenario.user_address (Some 10%float))
      (Scenario.payment_of "bitcoincash:quser" 100000 0.001) Scenario.some_store
    = (Ok tt, s') /\
    statements s' = statements Scenario.some_store
      ++ [(SelectUsername 7, negb (next_fault Scenario.some_store));
          (InsertBchPayment row,
           negb (nth 1 (db_faults Scenario.some_store) false)
           && bool_decide (bchpayment (tables Scenario.some_store) !! tx_id row = None))] /\
    tx_id row = default "" (ev_tx_hash (Scenario.payment_of "bitcoincash:quser" 100000 0.001)) /\
    amount row = value_sats (Scenario.payment_of "bitcoincash:quser" 100000 0.001) /\
    pay_euro_amount row = None /\
    usd_amount row = None /\
    users (tables s') = users (tables Scenario.some_store) /\
    (nth 1 (db_faults Scenario.some_store) false = false ->
     bchpayment (tables Scenario.some_store) !! tx_id row = None ->
     bchpayment (tables s') !! tx_id row = Some row).
Proof.
  apply (price_mode_without_price initial_cache (Scenario.noon + Scenario.minutes 35)
           (Scenario.user_address (Some 10%float))
           (Scenario.payment_of "bitcoincash:quser" 100000 0.001) Scenario.some_store
           7 (Scenario.noon - Scenario.minutes 5)).
  - reflexivity.
  - reflexivity.
  - left. vm_compute. discriminate.
  - reflexivity.
Defined.

(** ** Device-linked payments *)

Lemma is_ok_update_feedings id now t :
  is_ok (apply_statement (UpdateFeedings id now) t) = true.
Proof. destruct id; reflexivity. Qed.

Lemma threshold_handler_device prices now payment event s :
  Registry.user_id payment = None ->
  exists s' s2 row,
    threshold_handler prices now payment event s = (Ok tt, s') /\
    run s [(SelectDevice (device_id payment), negb (next_fault s));
           (UpdateFeedings (device_id payment) now,
            negb (nth 1 (db_faults s) false))] s2 /\
    run s2 [(InsertBchPayment row, insertable row s2)] s' /\
    pay_euro_amount row
    = match available (get_bch_eur_price_cached prices) with
      | Some price_eur => Some (or_zero (value_bch event) * price_eur)%float
      | None => None
      end /\
    usd_amount row
    = match available (get_bch_usd_price_cached prices) with
      | Some price_usd => Some (or_zero (value_bch event) * price_usd)%float
      | None => None
      end /\
    tx_id row = default "" (ev_tx_hash event) /\
    amount row = value_sats event /\
    (insertable row s2 = false -> exists e, last (printed s') = Some (InsertFailed e)).
Proof.
  intros Hu. unfold threshold_handler. rewrite Hu. unfold bind at 1.
  destruct (print_run (PaymentDetected (address payment) (value_sats event)) s)
    as (s0 & -> & Hs0 & _).
  assert (Hf0 : db_faults s0 = db_faults s) by apply (run_faults _ _ _ Hs0).
  unfold device_branch.
  set (f0 := {| store := s0; description_ := _; euro_amount_insert := None;
                usd_amount_insert := None |}).
  (* the two recorded amounts *)
  assert (exists f1, (match available (get_bch_eur_price_cached prices) with
                      | Some price_eur =>
                          set_euro_amount_insert (or_zero (value_bch event) * price_eur)%float
                      | None => ret tt
                      end) f0 = (Ok tt, f1) /\ store f1 = s0 /\
                     usd_amount_insert f1 = None /\
                     euro_amount_insert f1
                     = match available (get_bch_eur_price_cached prices) with
                       | Some price_eur => Some (or_zero (value_bch event) * price_eur)%float
                       | None => None
                       end) as (f1 & E1 & Hs1 & Hu1 & He1).
  { destruct (available (get_bch_eur_price_cached prices)); eexists; repeat split. }
  unfold bind at 1. rewrite E1.
  destruct (snapshot_usd_run prices (or_zero (value_bch event)) f1)
    as (f2 & E2 & Hs2 & He2 & Hu2).
  unfold bind at 1. rewrite E2.
  unfold try_except, on_store, zoom, select_device, print,
    modify, gets, ret, set_description, bind.
  cbn -[execute nonempty write_payment_record].
  assert (Hn2 : next_fault (store f2) = next_fault s).
  { unfold next_fault. rewrite Hs2, Hs1, Hf0. reflexivity. }
  destruct (execute (SelectDevice (device_id payment)) (store f2)) as [r3 s3] eqn:E3.
  apply execute_run in E3. destruct E3 as (Hr3 & _ & Hok3).
  simpl in Hok3. rewrite andb_true_r, Hn2 in Hok3. rewrite Hok3 in Hr3.
  rewrite Hs2, Hs1 in Hr3.
  pose proof (run_app _ _ _ _ _ Hs0 Hr3) as Hr03. simpl in Hr03.
  pose proof (next_fault_drop _ _ _ (run_faults _ _ _ Hr03)) as Hn3. simpl in Hn3.
  destruct r3 as [[]|e3]; cbn -[execute nonempty write_payment_record].
  all: match goal with |- context [nonempty ?x] => destruct (nonempty x) end.
  all: cbn -[execute nonempty write_payment_record].
  all: match goal with |- context [execute ?st ?x] =>
         destruct (execute st x) as [r4 s4] eqn:E4;
         apply execute_run in E4; destruct E4 as (Hr4 & _ & Hok4);
         rewrite is_ok_update_feedings, andb_true_r in Hok4;
         unfold next_fault in Hok4; simpl in Hok4; fold (next_fault s3) in Hok4;
         rewrite Hn3 in Hok4; rewrite Hok4 in Hr4
       end.
  all: destruct r4 as [[]|e4]; cbn -[execute nonempty write_payment_record].
  all: match goal with
       | |- context [write_payment_record ?n ?t ?a ?rf ?d ?ad ?eu ?us ?st] =>
           destruct (write_payment_record_run n t a rf d ad eu us st)
             as (s' & -> & Hw & _ & Hl)
       end.
  all: exists s'; eexists; eexists; split; [reflexivity|].
  all: split; [|split; [exact Hw|]].
  all: try (split; [simpl; rewrite He2; exact He1|];
            split; [simpl; rewrite Hu2, Hu1; reflexivity|];
            split; [reflexivity|]; split; [reflexivity|];
            intros Hi; destruct (Hl Hi) as [e ->]; exists e; apply last_snoc).
  all: match goal with
       | |- run ?a [?x; ?y] ?b => change (run a ([x] ++ [y]) b)
       end.
  all: first
         [ solve [eapply run_app;
                  [exact Hr03|first [exact Hr4|apply run_printed; exact Hr4]]]
         | solve [eapply run_app;
                  [apply run_printed; exact Hr03
                  |first [exact Hr4|apply run_printed; exact Hr4]]] ].
Qed.

(** ** The insert never raises *)

Lemma handle_on_db payment event w :
  exists s',
    threshold_handler (prices w) (now w) payment event (db w) = (Ok tt, s') /\
    handle payment event w = (Ok tt, set_db s' w).
Proof.
  assert (exists s', threshold_handler (prices w) (now w) payment event (db w)
                     = (Ok tt, s')) as [s' Hs'].
  { destruct (Registry.user_id payment) as [user_id|] eqn:Hu.
    - destruct (user_payment_of (prices w) (now w) payment event (db w) user_id
                  (fun e _ tr => rewarded user_id e tr) Hu) as (s' & _ & _ & _ & Hh & _).
      { intros username f r f' _ _. apply grain_update_rewarded. }
      eauto.
    - destruct (threshold_handler_device (prices w) (now w) payment event (db w) Hu)
        as (s' & _ & _ & Hh & _).
      eauto. }
  exists s'. split; [exact Hs'|].
  unfold handle, on_db, zoom. rewrite Hs'. reflexivity.
Qed.

(** C10. [write_payment_record] returns for every store: when the insert
    goes through, the row is in [bchpayment]; when it fails (the store is
    unavailable, or the [tx_id] is already recorded) the tables are left
    as they were and the failure is printed.  Hence the handler returns
    for every event, the worker runs to its end, and what the monitor
    holds in memory (the known outputs, the watch list, the events
    received) is the same whether the insert went through or not. *)
Theorem write_payment_record_never_raises :
  (forall now tx a ref d addr eur usd s,
      let row := {| tx_id := tx; amount := a; reference := ref; description := d;
                    pay_address := addr; pay_euro_amount := eur; usd_amount := usd;
                    succeeded_at := now |} in
      exists s',
        write_payment_record now tx a ref d addr eur usd s = (Ok tt, s') /\
        statements s' = statements s ++ [(InsertBchPayment row, insertable row s)] /\
        (insertable row s = true ->
         bchpayment (tables s') !! tx = Some row /\ printed s' = printed s) /\
        (insertable row s = false ->
         tables s' = tables s /\ exists e, printed s' = printed s ++ [InsertFailed e])) /\
  (forall row s, is_Some (bchpayment (tables s) !! tx_id row) -> insertable row s = false) /\
  (forall row s, next_fault s = true -> insertable row s = false) /\
  (forall prices now payment event s,
      exists s', threshold_handler prices now payment event s = (Ok tt, s')) /\
  (forall payment event w,
      exists w', handle payment event w = (Ok tt, w') /\
                 known_utxos_by_addr w' = known_utxos_by_addr w /\
                 address_to_payment w' = address_to_payment w /\
                 current_addresses w' = current_addresses w /\
                 received w' = received w) /\
  (forall address w, exists w', fetch_and_emit address w = (Ok tt, w')).
Proof.
  split; [|split; [|split; [|split; [|split]]]].
  - intros now tx a ref d addr eur usd s row.
    destruct (write_payment_record_run now tx a ref d addr eur usd s)
      as (s' & Hw & Hrun & Hp1 & Hp2).
    fold row in Hrun, Hp1, Hp2.
    exists s'. split; [exact Hw|]. split; [apply (run_statements _ _ _ Hrun)|].
    split.
    + intros Hi. split; [|exact (Hp1 Hi)].
      destruct (run_insert s [] s row s' (run_nil s) Hrun) as (_ & _ & _ & H).
      apply H, Hi.
    + intros Hi. split; [|exact (Hp2 Hi)].
      rewrite (run_tables _ _ _ Hrun), Hi. reflexivity.
  - intros row s [r Hr]. unfold insertable. rewrite Hr.
    rewrite andb_false_iff. right. apply bool_decide_eq_false. discriminate.
  - intros row s Hf. unfold insertable. rewrite Hf. reflexivity.
  - intros prices now payment event s.
    destruct (handle_on_db payment event
                {| db := s; net := {| chain := ∅; rpc_faults := []; calls := [] |};
                   known_utxos_by_addr := ∅; address_to_payment := ∅;
                   current_addresses := ∅; received := [];
                   prices := prices; now := now |}) as (s' & H & _).
    exists s'. exact H.
  - intros payment event w. destruct (handle_on_db payment event w) as (s' & _ & H).
    eexists. split; [exact H|]. repeat split.
  - intros address w. unfold fetch_and_emit, try_except.
    destruct (fetch_and_emit_body address w) as [[[]|e] w1]; eauto.
Qed.

(** ** The device gate *)

Lemma device_gate_lookup payment w device row crypto_price_eur :
  device_id payment = Some device ->
  devices (tables (db w)) !! device = Some row ->
  crypto_feed_price row = Some crypto_price_eur ->
  next_fault (db w) = false ->
  exists s1,
    try_except (on_db (select_crypto_feed_price (device_id payment)))
      (fun e => bind (on_db (print (FeedPriceLookupFailed e))) (fun _ => ret None)) w
    = (Ok (Some crypto_price_eur), set_db s1 w) /\
    run (db w) [(SelectCryptoFeedPrice (Some device), true)] s1 /\
    tables s1 = tables (db w).
Proof.
  intros Hd Hrow Hcp Hf.
  unfold try_except, on_db, zoom, select_crypto_feed_price, bind.
  destruct (execute (SelectCryptoFeedPrice (device_id payment)) (db w)) as [r s1] eqn:E.
  apply execute_run in E. destruct E as (Hr & _ & Hok).
  rewrite Hf in Hok. simpl in Hok. rewrite Hok, Hd in Hr.
  assert (Ht : tables s1 = tables (db w)) by apply (run_tables _ _ _ Hr).
  destruct r as [[]|e]; [|discriminate].
  exists s1. unfold gets. rewrite Ht, Hd. simpl. rewrite Hrow. simpl. rewrite Hcp.
  split; [reflexivity|]. split; [exact Hr|reflexivity].
Qed.

(** C3. On a device-linked address whose [crypto_feed_price] is read from
    the store: [threshold_sats] is [floor((crypto_feed_price / price_eur)
    * 1e8)] when the cached EUR price is positive and 0 otherwise; with
    [t = floor(threshold_sats * 0.95)] (the code takes [max(t, 0)], the
    same gate for an output of no negative value), the handler runs,
    issuing the counter update and the insert, exactly when
    [value_sats >= t]; below [t] nothing but the lookup is issued and the
    tables are left as they were. *)
Theorem device_gate_threshold payment event w device row crypto_price_eur threshold_sats f t :
  Registry.user_id payment = None ->
  device_id payment = Some device ->
  devices (tables (db w)) !! device = Some row ->
  crypto_feed_price row = Some crypto_price_eur ->
  next_fault (db w) = false ->
  device_threshold_sats crypto_price_eur (get_bch_eur_price_cached (prices w))
  = Ok threshold_sats ->
  float_of_int threshold_sats = Ok f ->
  floor (f * 0.95)%float = Ok t ->
  0 <= value_sats event ->
  (forall p, get_bch_eur_price_cached (prices w) = Some p -> (0 <? p)%float = true ->
             floor ((crypto_price_eur / p) * 1e8)%float = Ok threshold_sats) /\
  (forall p, get_bch_eur_price_cached (prices w) = Some p -> (0 <? p)%float = false ->
             threshold_sats = 0) /\
  (get_bch_eur_price_cached (prices w) = None -> threshold_sats = 0) /\
  effective_threshold threshold_sats = Ok (Z.max t 0) /\
  (t <= value_sats event ->
   exists w' paid ok2 ok3 ok4,
     device_gate payment event w = (Ok tt, w') /\
     statements (db w') = statements (db w)
       ++ [(SelectCryptoFeedPrice (Some device), true);
           (SelectDevice (Some device), ok2);
           (UpdateFeedings (Some device) (now w), ok3);
           (InsertBchPayment paid, ok4)] /\
     tx_id paid = default "" (ev_tx_hash event) /\
     amount paid = value_sats event) /\
  (value_sats event < t ->
   exists w',
     device_gate payment event w = (Ok tt, w') /\
     statements (db w') = statements (db w)
       ++ [(SelectCryptoFeedPrice (Some device), true)] /\
     tables (db w') = tables (db w)).
Proof.
  intros Hu Hd Hrow Hcp Hf Hts Hfl Ht Hv.
  assert (Heff : effective_threshold threshold_sats = Ok (Z.max t 0)).
  { unfold effective_threshold. rewrite Hfl, Ht. reflexivity. }
  split; [|split; [|split; [|split; [exact Heff|]]]].
  - intros p Hp Hpos. rewrite Hp in Hts. simpl in Hts.
    rewrite (positive_truthy _ Hpos), Hpos in Hts. exact Hts.
  - intros p Hp Hpos. rewrite Hp in Hts. simpl in Hts.
    rewrite Hpos, andb_false_r in Hts. congruence.
  - intros Hp. rewrite Hp in Hts. simpl in Hts. congruence.
  - destruct (device_gate_lookup payment w device row crypto_price_eur Hd Hrow Hcp Hf)
      as (s1 & Hlook & Hrun & Htab).
    assert (Hgate : forall b, (Z.max t 0 <=? value_sats event) = b ->
              device_gate payment event w
              = if b then handle payment event (set_db s1 w) else (Ok tt, set_db s1 w)).
    { intros b Hb. unfold device_gate. unfold bind at 1. rewrite Hlook.
      unfold bind at 1, gets. simpl prices. unfold bind at 1, lift_result.
      rewrite Hts. unfold bind at 1. rewrite Heff. rewrite Hb.
      destruct b; reflexivity. }
    split.
    + intros Hle. rewrite (Hgate true) by (apply Z.leb_le; lia).
      destruct (handle_on_db payment event (set_db s1 w)) as (s' & Hh & ->).
      simpl in Hh.
      destruct (threshold_handler_device (prices w) (now w) payment event s1 Hu)
        as (s'' & s2 & paid & Hh' & Hr2 & Hr3 & _ & _ & Htx & Ham & _).
      rewrite Hh in Hh'. injection Hh' as <-.
      pose proof (run_app _ _ _ _ _ (run_app _ _ _ _ _ Hrun Hr2) Hr3) as Hall.
      rewrite Hd in Hall.
      eexists. exists paid. do 3 eexists. split; [reflexivity|].
      split; [exact (run_statements _ _ _ Hall)|]. split; [exact Htx|exact Ham].
    + intros Hlt. rewrite (Hgate false) by (apply Z.leb_gt; lia).
      eexists. split; [reflexivity|]. simpl.
      split; [exact (run_statements _ _ _ Hrun)|exact Htab].
Qed.

(** C3 at scenario S5: a feeding costs 0.50 EUR, one BCH is 500 EUR, and
    90000 sats arrive. *)
Lemma device_gate_threshold_S5 :
  device_threshold_sats 0.5 (Some 500%float) = Ok 100000 /\
  effective_threshold 100000 = Ok 95000 /\
  exists w',
    device_gate Scenario.device_address
      (Scenario.payment_of "bitcoincash:qdevice" 90000 0.0009)
      (Scenario.some_world Scenario.prices_500 [Scenario.device_address] ∅
         "bitcoincash:qdevice" [] [])
    = (Ok tt, w') /\
    statements (db w') = [(SelectCryptoFeedPrice (Some 3), true)] /\
    tables (db w') = Scenario.some_tables.
Proof.
  destruct (device_gate_threshold Scenario.device_address
              (Scenario.payment_of "bitcoincash:qdevice" 90000 0.0009)
              (Scenario.some_world Scenario.prices_500 [Scenario.device_address] ∅
                 "bitcoincash:qdevice" [] [])
              3
              {| alias := Some "feeder"; stream_name := Some "cam1";
                 crypto_feed_price := Some 0.5%float;
                 total_feedings_today := None; total_feedings := Some 9;
                 last_feeding := None |}
              0.5%float 100000 100000%float 95000)
    as (_ & _ & _ & Heff & _ & Hbelow).
  - reflexivity.
  - reflexivity.
  - vm_compute. reflexivity.
  - reflexivity.
  - reflexivity.
  - vm_compute. reflexivity.
  - vm_compute. reflexivity.
  - vm_compute. reflexivity.
  - vm_compute. discriminate.
  - split; [vm_compute; reflexivity|]. split; [exact Heff|].
    apply Hbelow. vm_compute. reflexivity.
Defined.

(** Scenario S6: 120000 sats pass the gate of 95000. *)
Example device_gate_S6 :
  exists w',
    device_gate Scenario.device_address
      (Scenario.payment_of "bitcoincash:qdevice" 120000 0.0012)
      (Scenario.some_world Scenario.prices_500 [Scenario.device_address] ∅
         "bitcoincash:qdevice" [] [])
    = (Ok tt, w') /\
    map fst (statements (db w'))
    = [SelectCryptoFeedPrice (Some 3); SelectDevice (Some 3);
       UpdateFeedings (Some 3) Scenario.noon;
       InsertBchPayment
         {| tx_id := "a0"; amount := 120000; reference := "feeder";
            description := "Direct payment to cam1";
            pay_address := "bitcoincash:qdevice";
            pay_euro_amount := Some (0.0012 * 500)%float;
            usd_amount := Some (0.0012 * 540)%float;
            succeeded_at := Scenario.noon |}] /\
    (devices (tables (db w')) !! 3) ≫= total_feedings = Some 10.
Proof.
  eexists. split; [vm_compute; reflexivity|]. split; vm_compute; reflexivity.
Qed.

(** ** The notification worker *)

Lemma same_memory_refl w : same_memory w w.
Proof. repeat split. Qed.








Lemma listunspent_on_net address w r w' :
  on_net (listunspent address) w = (r, w') ->
  w' = set_net {| chain := chain (net w); rpc_faults := tail (rpc_faults (net w));
                  calls := calls (net w)
                    ++ [(ListUnspent address, negb (next_rpc_fault (net w)))] |} w /\
  r = if next_rpc_fault (net w) then Raise ConnectionError
      else Ok (listed (net w) address).
Proof.
  unfold on_net, zoom, listunspent, bind, call, next_rpc_fault, listed.
  destruct (match rpc_faults (net w) with b :: _ => b | [] => false end);
    intros [= <- <-]; split; reflexivity.
Qed.









(** ** Priming and subscribing *)

Lemma call_on_net c w :
  exists w',
    on_net (call c) w
    = (if next_rpc_fault (net w) then Raise ConnectionError else Ok tt, w') /\
    w' = set_net {| chain := chain (net w); rpc_faults := tail (rpc_faults (net w));
                    calls := calls (net w) ++ [(c, negb (next_rpc_fault (net w)))] |} w.
Proof.
  unfold on_net, zoom, call, next_rpc_fault.
  destruct (match rpc_faults (net w) with b :: _ => b | [] => false end);
    eexists; split; reflexivity.
Qed.

Lemma prime_run addr w :
  exists w' subscribed,
    prime addr w = (Ok tt, w') /\
    calls (net w') = calls (net w)
      ++ [(ListUnspent addr, negb (next_rpc_fault (net w))); (Subscribe addr, subscribed)] /\
    known_utxos_by_addr w'
    = <[addr := if negb (next_rpc_fault (net w))
                then keys_of (listed (net w) addr) else ∅]> (known_utxos_by_addr w) /\
    chain (net w') = chain (net w) /\
    received w' = received w /\
    address_to_payment w' = address_to_payment w /\
    current_addresses w' = current_addresses w.
Proof.
  unfold prime. unfold bind at 1, try_except at 1.
  destruct (on_net (listunspent addr) w) as [r1 w1] eqn:E1.
  apply listunspent_on_net in E1. destruct E1 as [-> ->].
  set (w1 := set_net _ w).
  assert (exists utxos,
             (if next_rpc_fault (net w)
              then ret (S := World) ([] : list Utxo) w1
              else (Ok (listed (net w) addr), w1)) = (Ok utxos, w1) /\
             keys_of utxos = if negb (next_rpc_fault (net w))
                             then keys_of (listed (net w) addr) else ∅)
    as (utxos & Hu & Hk).
  { destruct (next_rpc_fault (net w)); eexists; split; reflexivity. }
  replace (match (if next_rpc_fault (net w) then Raise ConnectionError
                  else Ok (listed (net w) addr)) with
           | Ok a => (Ok a, w1)
           | Raise _ => ret [] w1
           end) with (Ok utxos, w1)
    by (rewrite <- Hu; destruct (next_rpc_fault (net w)); reflexivity).
  unfold bind at 1, modify. unfold try_except.
  match goal with |- context [on_net (call ?c) ?x] =>
    destruct (call_on_net c x) as (w3 & -> & Hw3) end.
  assert (Hm : same_memory w3 w3) by apply same_memory_refl.
  assert (Hsub : forall e, exists w',
             on_db (print (SubscribeFailed addr e)) w3 = (Ok tt, w') /\ same_memory w3 w').
  { intros e. unfold on_db, zoom, print, modify. eexists. split; [reflexivity|].
    repeat split. }
  match goal with |- context [if ?b then Raise ConnectionError else Ok tt] =>
    destruct b end.
  - destruct (Hsub ConnectionError) as (w' & -> & (M1 & M2 & M3 & M4 & M5 & _ & _)).
    exists w'. eexists. split; [reflexivity|].
    rewrite M1, M2, M3, M4, M5, Hw3. simpl. rewrite Hk.
    split; [rewrite <- app_assoc; reflexivity|]. repeat split.
  - exists w3. eexists. split; [reflexivity|].
    rewrite Hw3. simpl. rewrite Hk.
    split; [rewrite <- app_assoc; reflexivity|]. repeat split.
Qed.

Lemma for_each_prime l : NoDup l -> forall w,
  exists w',
    for_each prime l w = (Ok tt, w') /\
    chain (net w') = chain (net w) /\
    received w' = received w /\
    address_to_payment w' = address_to_payment w /\
    current_addresses w' = current_addresses w /\
    (exists issued, calls (net w') = calls (net w) ++ issued) /\
    (forall a, a ∉ l -> known_utxos_by_addr w' !! a = known_utxos_by_addr w !! a) /\
    (forall addr, addr ∈ l -> primed addr w w').
Proof.
  induction 1 as [|a rest Hnotin Hnd IH]; intros w.
  - exists w. split; [reflexivity|]. repeat (split; [reflexivity|]).
    split; [exists []; symmetry; apply app_nil_r|].
    split; [reflexivity|]. intros addr Hin. inversion Hin.
  - simpl. unfold bind at 1.
    destruct (prime_run a w) as (w1 & sub & -> & Hc1 & Hk1 & Hch1 & Hr1 & Ha1 & Hcur1).
    destruct (IH w1) as (w' & -> & Hch & Hr & Ha & Hcur & [issued Hc] & Hk & Hp).
    exists w'. split; [reflexivity|].
    split; [congruence|]. split; [congruence|]. split; [congruence|]. split; [congruence|].
    split; [eexists; rewrite Hc, Hc1, <- app_assoc; reflexivity|].
    split.
    + intros b Hb. apply not_elem_of_cons in Hb. destruct Hb as [Hne Hb].
      rewrite (Hk b Hb), Hk1. apply lookup_insert_ne. congruence.
    + intros addr Hin. apply elem_of_cons in Hin. destruct Hin as [->|Hin].
      * exists (negb (next_rpc_fault (net w))), sub, [], issued.
        split; [rewrite Hc, Hc1, <- app_assoc; reflexivity|].
        rewrite (Hk a Hnotin), Hk1. apply lookup_insert_eq.
      * destruct (Hp addr Hin) as (fetched & subscribed & before & after & Hcalls & Hknown).
        exists fetched, subscribed,
          ([(ListUnspent a, negb (next_rpc_fault (net w))); (Subscribe a, sub)] ++ before),
          after.
        split; [rewrite Hcalls, Hc1, <- !app_assoc; reflexivity|].
        rewrite Hknown. unfold listed. rewrite Hch1. reflexivity.
Qed.

Lemma forget_run addr w :
  exists w' issued,
    forget addr w = (Ok tt, w') /\
    calls (net w') = calls (net w) ++ issued /\
    chain (net w') = chain (net w) /\
    known_utxos_by_addr w' = delete addr (known_utxos_by_addr w) /\
    received w' = received w /\
    current_addresses w' = current_addresses w.
Proof.
  unfold forget. unfold bind at 1, try_except.
  destruct (call_on_net (Unsubscribe addr) w) as (w1 & -> & Hw1).
  unfold modify. destruct (next_rpc_fault (net w)); subst w1;
    do 2 eexists; (split; [reflexivity|]); simpl; repeat split.
Qed.

Lemma for_each_forget l : forall w,
  exists w' issued,
    for_each forget l w = (Ok tt, w') /\
    calls (net w') = calls (net w) ++ issued /\
    chain (net w') = chain (net w) /\
    received w' = received w /\
    current_addresses w' = current_addresses w.
Proof.
  induction l as [|a rest IH]; intros w.
  - exists w, []. split; [reflexivity|]. split; [symmetry; apply app_nil_r|].
    repeat split.
  - simpl. unfold bind at 1.
    destruct (forget_run a w) as (w1 & i1 & -> & Hc1 & Hch1 & _ & Hr1 & Hcur1).
    destruct (IH w1) as (w' & i2 & -> & Hc & Hch & Hr & Hcur).
    exists w', (i1 ++ i2). split; [reflexivity|].
    split; [rewrite Hc, Hc1, <- app_assoc; reflexivity|].
    repeat split; congruence.
Qed.

Lemma primed_after_calls addr w0 w w' issued :
  calls (net w) = calls (net w0) ++ issued ->
  chain (net w) = chain (net w0) ->
  primed addr w w' -> primed addr w0 w'.
Proof.
  intros Hc Hch (fetched & subscribed & before & after & Hcalls & Hknown).
  exists fetched, subscribed, (issued ++ before), after.
  split; [rewrite Hcalls, Hc, <- !app_assoc; reflexivity|].
  rewrite Hknown. unfold listed. rewrite Hch. reflexivity.
Qed.


Lemma sync_primes updated_payments w :
  exists w',
    sync updated_payments w = (Ok tt, w') /\
    current_addresses w' = _build_address_set updated_payments /\
    address_to_payment w' = address_map updated_payments /\
    forall addr, addr ∈ _build_address_set updated_payments ->
                 addr ∉ current_addresses w -> primed addr w w'.
Proof.
  unfold sync. unfold bind at 1, gets. unfold bind at 1.
  destruct (for_each_forget
              (elements (current_addresses w ∖ _build_address_set updated_payments)) w)
    as (w1 & issued & -> & Hc1 & Hch1 & _ & Hcur1).
  unfold bind at 1.
  destruct (for_each_prime
              (elements (_build_address_set updated_payments ∖ current_addresses w))
              (NoDup_elements _) w1)
    as (w2 & -> & _ & _ & _ & _ & _ & _ & Hp).
  unfold modify. eexists. split; [reflexivity|]. simpl.
  split; [reflexivity|]. split; [reflexivity|].
  intros addr Hin Hnew.
  assert (Hp2 : primed addr w w2).
  { apply (primed_after_calls addr w w1 w2 issued Hc1 Hch1).
    apply Hp, elem_of_elements, elem_of_difference. auto. }
  destruct Hp2 as (fetched & subscribed & before & after & Hcalls & Hknown).
  exists fetched, subscribed, before, after. simpl. auto.
Qed.





Example notified_world_reports_the_new_output :
  map event_key
    (received (snd (fetch_and_emit "bitcoincash:quser" Scenario.notified_world)))
  = [(Some "a0", Some 0)] /\
  map fst
    (statements (db (snd (fetch_and_emit "bitcoincash:quser" Scenario.notified_world))))
  = [SelectUsername 7; UpdateGrainBalance 7 40;
     InsertBchPayment
       {| tx_id := "a0"; amount := 250000; reference := "7";
          description := "alice (+40 grain)"; pay_address := "bitcoincash:quser";
          pay_euro_amount := Some 10%float;
          usd_amount := Some ((250000 / 1e8) * 430)%float;
          succeeded_at := Scenario.noon |}].
Proof. split; vm_compute; reflexivity. Qed.


(** ** Version negotiation *)

Lemma getitem_two response :
  (exists a b, Fulcrum.getitem response 0 = Ok a /\ Fulcrum.getitem response 1 = Ok b)
  <-> two_leading_elements response.
Proof.
  destruct response as [|b|n|f|s|items|fields]; simpl;
    try (split; [intros (x1 & x2 & H & _); discriminate|intros []]).
  - destruct (Fulcrum.code_points s) as [|x [|y rest]]; simpl.
    + split; [intros (a & b & H & _); discriminate|lia].
    + split; [intros (a & b & _ & H); discriminate|lia].
    + split; [intros _; lia|intros _; eauto].
  - destruct items as [|x [|y rest]]; simpl.
    + split; [intros (a & b & H & _); discriminate|lia].
    + split; [intros (a & b & _ & H); discriminate|lia].
    + split; [intros _; lia|intros _; eauto].
Qed.

Lemma two_leading_elements_truthy response :
  two_leading_elements response -> truthy response = true.
Proof.
  destruct response as [|b|n|f|s|items|fields]; simpl; try tauto.
  - destruct s; simpl; [lia|reflexivity].
  - destruct items; simpl; [lia|reflexivity].
Qed.

Lemma negotiate_true x c :
  Fulcrum.connected c = true ->
  fst (Fulcrum._negotiate_version x c) = true <->
  exists message response,
    Fulcrum.delivered x c = Some message /\ obj_has "error" message = false /\
    obj_get "result" message = Some response /\ two_leading_elements response.
Proof.
  intros Hc. unfold Fulcrum._negotiate_version, Fulcrum.server_version,
    Fulcrum._send_request. rewrite Hc. simpl negb. cbv iota.
  destruct x as [|closed|message]; simpl.
  - split; [discriminate|intros (m & r & H & _); discriminate].
  - split; [discriminate|intros (m & r & H & _); discriminate].
  - destruct (Fulcrum.stop_event c); simpl.
    { split; [discriminate|intros (m & r & H & _); discriminate]. }
    destruct message as [|field rest].
    + simpl. split; [discriminate|].
      intros (m & r & [= <-] & _ & H & _). discriminate.
    + destruct (obj_has "error" (field :: rest)) eqn:Eerr.
      * simpl. split; [discriminate|].
        intros (m & r & [= <-] & H & _). congruence.
      * destruct (obj_get "result" (field :: rest)) as [response|] eqn:Eres; simpl.
        -- destruct (truthy response) eqn:Et.
           ++ destruct (Fulcrum.getitem response 0) as [a|e0] eqn:E0;
                destruct (Fulcrum.getitem response 1) as [b|e1] eqn:E1; simpl.
              ** split; [|reflexivity]. intros _. exists (field :: rest), response.
                 repeat split; try assumption. apply getitem_two. eauto.
              ** split; [discriminate|].
                 intros (m & r & [= <-] & _ & Hres & H).
                 rewrite Eres in Hres. injection Hres as <-.
                 apply getitem_two in H. destruct H as (a' & b' & _ & H). congruence.
              ** split; [discriminate|].
                 intros (m & r & [= <-] & _ & Hres & H).
                 rewrite Eres in Hres. injection Hres as <-.
                 apply getitem_two in H. destruct H as (a' & b' & H & _). congruence.
              ** split; [discriminate|].
                 intros (m & r & [= <-] & _ & Hres & H).
                 rewrite Eres in Hres. injection Hres as <-.
                 apply getitem_two in H. destruct H as (a' & b' & H & _). congruence.
           ++ simpl. split; [discriminate|].
              intros (m & r & [= <-] & _ & Hres & H).
              rewrite Eres in Hres. injection Hres as <-.
              apply two_leading_elements_truthy in H. congruence.
        -- split; [discriminate|].
           intros (m & r & [= <-] & _ & H & _). congruence.
Qed.

(** C7, as amended. [connect] opens the socket and sends
    [server.version(client_name, protocol_version)]; it returns success
    exactly when the socket opened and the reader delivered a reply that
    carries no error and whose result has elements at positions 0 and 1
    (an array or a string of at least two elements, not necessarily
    exactly two); for every other outcome (no socket, a failed write, no
    reply delivered in time, an error reply, a result that is null,
    false, zero, empty, shorter, an object or a number) it returns
    failure. *)
Theorem negotiation_wants_two_leading_elements :
  forall socket_ok x c,
    (fst (Fulcrum.connect socket_ok x c) = true <->
     socket_ok = true /\
     exists message response,
       Fulcrum.delivered x c = Some message /\ obj_has "error" message = false /\
       obj_get "result" message = Some response /\ two_leading_elements response) /\
    (socket_ok = true -> x <> Fulcrum.SendFails ->
     Fulcrum.outbox (snd (Fulcrum.connect socket_ok x c))
     = Fulcrum.outbox c ++ [version_request c]) /\
    (fst (Fulcrum.connect socket_ok x c) = true ->
     Fulcrum.connected (snd (Fulcrum.connect socket_ok x c)) = true).
Proof.
  intros socket_ok x c. unfold Fulcrum.connect. destruct socket_ok.
  - split; [|split].
    + rewrite negotiate_true by reflexivity. split; [auto|tauto].
    + intros _ Hx. unfold Fulcrum._negotiate_version, Fulcrum.server_version,
        Fulcrum._send_request. simpl.
      destruct x as [|closed|message]; [congruence| |]; simpl; [reflexivity|].
      repeat case_match; simplify_eq; reflexivity.
    + unfold Fulcrum._negotiate_version, Fulcrum.server_version,
        Fulcrum._send_request. simpl.
      destruct x as [|closed|message]; simpl; try discriminate.
      repeat case_match; simplify_eq; simpl; try discriminate; reflexivity.
  - simpl. split; [|split].
    + split; [discriminate|]. intros [H _]. discriminate.
    + discriminate.
    + discriminate.
Qed.

(** The claim C7 as the specification words it fails on a response that
    is an array of three elements: [connect] succeeds, the client is
    connected, and the next request is written to the socket. *)
Lemma three_element_response_connects :
  ~ two_element_array
      (JArr [JStr "Fulcrum 1.9.1"; JStr "1.5"; JStr "extra"]) /\
  fst (Fulcrum.connect true
         (Fulcrum.Reply [("jsonrpc", JStr "2.0"); ("id", JInt 1);
                         ("result", JArr [JStr "Fulcrum 1.9.1"; JStr "1.5"; JStr "extra"])])
         Fulcrum.new_client) = true /\
  Fulcrum.connected
    (snd (Fulcrum.connect true
            (Fulcrum.Reply [("jsonrpc", JStr "2.0"); ("id", JInt 1);
                            ("result", JArr [JStr "Fulcrum 1.9.1"; JStr "1.5"; JStr "extra"])])
            Fulcrum.new_client)) = true /\
  fst (Fulcrum.server_ping (Fulcrum.Reply [("id", JInt 2); ("result", JNull)])
         (snd (Fulcrum.connect true
                 (Fulcrum.Reply [("jsonrpc", JStr "2.0"); ("id", JInt 1);
                                 ("result",
                                  JArr [JStr "Fulcrum 1.9.1"; JStr "1.5"; JStr "extra"])])
                 Fulcrum.new_client))) = Ok JNull.
Proof.
  split; [simpl; lia|]. repeat split; reflexivity.
Qed.

(** After a negotiation that failed on the shape of the result,
    [connected] is still set: a later request is written and waits for
    its reply instead of failing at once. *)
Example failed_negotiation_keeps_the_flag :
  fst (Fulcrum.connect true
         (Fulcrum.Reply [("id", JInt 1); ("result", JArr [JStr "Fulcrum 1.9.1"])])
         Fulcrum.new_client) = false /\
  Fulcrum.connected
    (snd (Fulcrum.connect true
            (Fulcrum.Reply [("id", JInt 1); ("result", JArr [JStr "Fulcrum 1.9.1"])])
            Fulcrum.new_client)) = true /\
  fst (Fulcrum.server_ping (Fulcrum.NoReply false)
         (snd (Fulcrum.connect true
                 (Fulcrum.Reply [("id", JInt 1); ("result", JArr [JStr "Fulcrum 1.9.1"])])
                 Fulcrum.new_client))) = Raise TimeoutError.
Proof. repeat split; reflexivity. Qed.

(** [disconnect] sets [stop_event] and nothing clears it: on a client that
    was disconnected once, the reader of a new connection stops at once
    and the answer to [server.version] is never delivered. *)
Example reconnect_after_disconnect_times_out :
  fst (Fulcrum.connect true
         (Fulcrum.Reply [("id", JInt 1);
                         ("result", JArr [JStr "Fulcrum 1.9.1"; JStr "1.5"])])
         Fulcrum.new_client) = true /\
  fst (Fulcrum.connect true
         (Fulcrum.Reply [("id", JInt 2);
                         ("result", JArr [JStr "Fulcrum 1.9.1"; JStr "1.5"])])
         (Fulcrum.disconnect
            (snd (Fulcrum.connect true
                    (Fulcrum.Reply [("id", JInt 1);
                                    ("result", JArr [JStr "Fulcrum 1.9.1"; JStr "1.5"])])
                    Fulcrum.new_client)))) = false.
Proof. split; reflexivity. Qed.

(** ** Registry notifications *)

(** C8, as amended. For a payload that decodes to an object: when its
    action is a string that upper-cases to INSERT or UPDATE and it
    carries an address, the row is upserted under that address; when it
    upper-cases to DELETE and it carries an address, the address is
    removed; when the action is missing or is a string that upper-cases
    to none of the three, the map is reloaded from the watch table.  A
    payload that is not valid JSON also reloads.  Every other payload
    (valid JSON that is not an object, an action that is not a string,
    an INSERT, UPDATE or DELETE without an address) is reported and
    leaves the map as it was, with no reload.  A reload replaces the map
    by the rows of the table, and keeps it when the table cannot be
    read. *)
Theorem notification_updates_the_map :
  forall (upper : string -> string) (table : result (list AddressConfig))
         (addresses : gmap string AddressConfig),
    (forall action act a uid did cat thr eur,
        action_of upper action = Ok act ->
        act = "INSERT" \/ act = "UPDATE" ->
        _handle_notification upper (RowObject action (Some a) uid did cat thr eur)
          table addresses
        = (Upserted a,
           <[a := {| address := a; user_id := uid; device_id := did;
                     created_at := cat; threshold := thr; euro_amount := eur |}]>
             addresses)) /\
    (forall action a uid did cat thr eur,
        action_of upper action = Ok "DELETE" ->
        _handle_notification upper (RowObject action (Some a) uid did cat thr eur)
          table addresses
        = (Deleted a, delete a addresses)) /\
    (forall action act row_address uid did cat thr eur,
        action_of upper action = Ok act ->
        act <> "INSERT" -> act <> "UPDATE" -> act <> "DELETE" ->
        _handle_notification upper (RowObject action row_address uid did cat thr eur)
          table addresses
        = reloaded table addresses) /\
    _handle_notification upper Malformed table addresses = reloaded table addresses /\
    _handle_notification upper NotAnObject table addresses
    = (Failed AttributeError, addresses) /\
    (forall action e row_address uid did cat thr eur,
        action_of upper action = Raise e ->
        _handle_notification upper (RowObject action row_address uid did cat thr eur)
          table addresses
        = (Failed e, addresses)) /\
    (forall action act uid did cat thr eur,
        action_of upper action = Ok act ->
        act = "INSERT" \/ act = "UPDATE" \/ act = "DELETE" ->
        _handle_notification upper (RowObject action None uid did cat thr eur)
          table addresses
        = (Failed KeyError, addresses)) /\
    (forall s, action_of upper (Some (JStr s)) = Ok (upper s)) /\
    action_of upper None = Ok (upper "") /\
    (forall v, (forall s, v <> JStr s) -> action_of upper (Some v) = Raise AttributeError) /\
    (forall rows,
        reloaded (Ok rows) addresses
        = (Reloaded true, foldl (fun m r => <[address r := r]> m) ∅ rows)) /\
    (forall e, reloaded (Raise e) addresses = (Reloaded false, addresses)).
Proof.
  intros upper table addresses.
  repeat match goal with |- _ /\ _ => split end.
  - intros action act a uid did cat thr eur Ha Hact. unfold _handle_notification.
    rewrite Ha. destruct Hact as [-> | ->]; reflexivity.
  - intros action a uid did cat thr eur Ha. unfold _handle_notification.
    rewrite Ha. reflexivity.
  - intros action act row_address uid did cat thr eur Ha H1 H2 H3.
    unfold _handle_notification. rewrite Ha.
    apply String.eqb_neq in H1, H2, H3. rewrite H1, H2, H3. reflexivity.
  - reflexivity.
  - reflexivity.
  - intros action e row_address uid did cat thr eur Ha. unfold _handle_notification.
    rewrite Ha. reflexivity.
  - intros action act uid did cat thr eur Ha Hact. unfold _handle_notification.
    rewrite Ha. destruct Hact as [-> | [-> | ->]]; reflexivity.
  - reflexivity.
  - reflexivity.
  - intros v Hv. destruct v; try reflexivity. exfalso. eapply Hv. reflexivity.
  - reflexivity.
  - reflexivity.
Qed.

(** The claim C8 as the specification words it fails on a payload whose
    action is not one of the three and yet triggers no reload: with one
    row in the watch table and an empty map, the payloads
    [{"action": 5, "address": ...}] and [[]] are reported and leave the
    map empty, where a reload fills it. *)
Lemma unrecognized_action_without_reload :
  _handle_notification ascii_upper
    (RowObject (Some (JInt 5)) (Some "bitcoincash:quser") None None None None None)
    (Ok [Scenario.user_address (Some 10%float)]) ∅
  = (Failed AttributeError, ∅) /\
  _handle_notification ascii_upper NotAnObject
    (Ok [Scenario.user_address (Some 10%float)]) ∅
  = (Failed AttributeError, ∅) /\
  snd (reloaded (Ok [Scenario.user_address (Some 10%float)]) ∅)
    !! "bitcoincash:quser" = Some (Scenario.user_address (Some 10%float)) /\
  snd (reloaded (Ok [Scenario.user_address (Some 10%float)]) ∅) <> ∅.
Proof.
  split; [reflexivity|]. split; [reflexivity|].
  assert (H : snd (reloaded (Ok [Scenario.user_address (Some 10%float)]) ∅)
                !! "bitcoincash:quser" = Some (Scenario.user_address (Some 10%float))).
  { unfold reloaded. simpl. apply lookup_insert_eq. }
  split; [exact H|]. intros E. rewrite E in H. rewrite lookup_empty in H. discriminate.
Qed.

Example notifications_by_action :
  fst (_handle_notification ascii_upper
         (RowObject (Some (JStr "insert")) (Some "bitcoincash:quser")
            (Some 7) None None (Some 200000) (Some 10%float)) (Raise StoreUnavailable) ∅)
  = Upserted "bitcoincash:quser" /\
  fst (_handle_notification ascii_upper
         (RowObject (Some (JStr "DELETE")) (Some "bitcoincash:quser")
            None None None None None) (Raise StoreUnavailable) ∅)
  = Deleted "bitcoincash:quser" /\
  fst (_handle_notification ascii_upper
         (RowObject (Some (JStr "TRUNCATE")) None None None None None None)
         (Ok []) ∅)
  = Reloaded true /\
  fst (_handle_notification ascii_upper
         (RowObject None None None None None None None) (Ok []) ∅)
  = Reloaded true.
Proof. repeat split; reflexivity. Qed.

(** ** The client over its lifetime *)

(** Between two states of the client: nothing was written and the
    counter did not go back, or one request was written under the next
    id. *)
Lemma _send_request_outbox method params x c :
  let c' := snd (Fulcrum._send_request method params x c) in
  Fulcrum.stop_event c' = Fulcrum.stop_event c /\
  ((Fulcrum.outbox c' = Fulcrum.outbox c /\
    Fulcrum.request_id c <= Fulcrum.request_id c') \/
   (exists r, Fulcrum.outbox c' = Fulcrum.outbox c ++ [r] /\
              Fulcrum.rq_id r = Fulcrum.request_id c + 1 /\
              Fulcrum.request_id c' = Fulcrum.request_id c + 1)).
Proof.
  unfold Fulcrum._send_request. destruct (Fulcrum.connected c); simpl.
  - destruct x as [|closed|message]; simpl.
    + split; [reflexivity|]. left. split; [reflexivity|lia].
    + split; [reflexivity|]. right. eexists. split; [reflexivity|]. split; reflexivity.
    + destruct (Fulcrum.stop_event c) eqn:Es; simpl.
      { rewrite Es. split; [reflexivity|]. right. eexists.
        split; [reflexivity|]. split; reflexivity. }
      destruct message as [|field rest]; simpl.
      { rewrite Es. split; [reflexivity|]. right. eexists.
        split; [reflexivity|]. split; reflexivity. }
      destruct (obj_has "error" (field :: rest)); simpl; rewrite Es;
        (split; [reflexivity|]); right; eexists;
        (split; [reflexivity|]); split; reflexivity.
  - split; [reflexivity|]. left. split; [reflexivity|lia].
Qed.

Lemma step_outbox o c :
  let c' := snd (Session.step o c) in
  (Fulcrum.stop_event c = true -> Fulcrum.stop_event c' = true) /\
  ((Fulcrum.outbox c' = Fulcrum.outbox c /\
    Fulcrum.request_id c <= Fulcrum.request_id c') \/
   (exists r, Fulcrum.outbox c' = Fulcrum.outbox c ++ [r] /\
              Fulcrum.rq_id r = Fulcrum.request_id c + 1 /\
              Fulcrum.request_id c' = Fulcrum.request_id c + 1)).
Proof.
  destruct o as [socket_ok x| |method params x]; simpl.
  - unfold Fulcrum.connect. destruct socket_ok.
    + unfold Fulcrum._negotiate_version, Fulcrum.server_version.
      pose proof (_send_request_outbox "server.version"
                    [JStr (Fulcrum.client_name (Fulcrum.set_connected true c));
                     JStr (Fulcrum.protocol_version (Fulcrum.set_connected true c))]
                    x (Fulcrum.set_connected true c)) as H.
      simpl in H.
      destruct (Fulcrum._send_request _ _ x (Fulcrum.set_connected true c))
        as [[response|e] c1]; simpl in *.
      * destruct (truthy response);
          [destruct (Fulcrum.getitem response 0), (Fulcrum.getitem response 1)|];
          simpl; (split; [intros Hs; destruct H as [-> _]; exact Hs|apply H]).
      * split; [intros Hs; destruct H as [-> _]; exact Hs|apply H].
    + simpl. split; [tauto|]. left. split; [reflexivity|lia].
  - split; [reflexivity|]. left. split; [reflexivity|lia].
  - pose proof (_send_request_outbox method params x c) as H. simpl in H.
    destruct (Fulcrum._send_request method params x c) as [r c1]; simpl in *.
    split; [intros Hs; destruct H as [-> _]; exact Hs|apply H].
Qed.




(** Once [stop_event] is set, no request returns. *)
Lemma _send_request_stopped method params x c :
  Fulcrum.stop_event c = true ->
  is_ok (fst (Fulcrum._send_request method params x c)) = false.
Proof.
  intros Hs. unfold Fulcrum._send_request.
  destruct (Fulcrum.connected c); simpl; [|reflexivity].
  destruct x as [|closed|message]; simpl; try reflexivity.
  rewrite Hs. reflexivity.
Qed.

Lemma connect_stopped socket_ok x c :
  Fulcrum.stop_event c = true -> fst (Fulcrum.connect socket_ok x c) = false.
Proof.
  intros Hs. unfold Fulcrum.connect. destruct socket_ok; [|reflexivity].
  unfold Fulcrum._negotiate_version, Fulcrum.server_version.
  pose proof (_send_request_stopped "server.version"
                [JStr (Fulcrum.client_name (Fulcrum.set_connected true c));
                 JStr (Fulcrum.protocol_version (Fulcrum.set_connected true c))]
                x (Fulcrum.set_connected true c) Hs) as H.
  destruct (Fulcrum._send_request _ _ x (Fulcrum.set_connected true c)) as [[r|e] c1];
    [discriminate|reflexivity].
Qed.

Lemma session_stopped ops : forall c,
  Fulcrum.stop_event c = true ->
  Forall fruitless (fst (Session.session ops c)) /\
  Fulcrum.stop_event (snd (Session.session ops c)) = true.
Proof.
  induction ops as [|o rest IH]; intros c Hs; simpl; [split; [constructor|exact Hs]|].
  pose proof (step_outbox o c) as [Hstop _]. simpl in Hstop.
  assert (Hf : fruitless (fst (Session.step o c))).
  { destruct o as [socket_ok x| |method params x]; simpl.
    - pose proof (connect_stopped socket_ok x c Hs) as H.
      destruct (Fulcrum.connect socket_ok x c); exact H.
    - exact I.
    - pose proof (_send_request_stopped method params x c Hs) as H.
      destruct (Fulcrum._send_request method params x c); exact H. }
  destruct (Session.step o c) as [r c1]; simpl in *.
  destruct (IH c1 (Hstop Hs)) as [H1 H2].
  destruct (Session.session rest c1) as [rs c2]; simpl in *.
  split; [constructor; assumption|exact H2].
Qed.

(** X2. After [disconnect], the client is spent: whatever the socket and the
    peer do afterwards, every [connect] returns [False] and every request
    raises. [disconnect] sets [stop_event], nothing clears it, and the
    reader a later [connect] starts leaves its loop at once, so no reply
    is ever filed. *)
Theorem disconnected_client_is_spent :
  forall c ops,
    Forall fruitless (fst (Session.session ops (Fulcrum.disconnect c))) /\
    Fulcrum.stop_event (snd (Session.session ops (Fulcrum.disconnect c))) = true.
Proof.
  intros c ops. apply session_stopped. reflexivity.
Qed.

Lemma session_stop_event ops : forall c,
  Fulcrum.stop_event c = true ->
  Fulcrum.stop_event (snd (Session.session ops c)) = true.
Proof. intros c Hs. apply session_stopped, Hs. Qed.

Lemma watchdog_turn_cases ping socket_ok version c :
  let r := Session._connection_watchdog_turn ping socket_ok version c in
  (fst r = Session.Alive /\ Fulcrum.stop_event c = false) \/
  (fst r = Session.ReconnectFailed /\ Fulcrum.stop_event (snd r) = true).
Proof.
  unfold Session._connection_watchdog_turn, Fulcrum.server_ping.
  pose proof (_send_request_stopped "server.ping" [] ping c) as Hp.
  destruct (Fulcrum._send_request "server.ping" [] ping c) as [[r|e] c1]; simpl in *.
  - left. split; [reflexivity|].
    destruct (Fulcrum.stop_event c); [|reflexivity]. discriminate (Hp eq_refl).
  - right.
    pose proof (connect_stopped socket_ok version (Fulcrum.disconnect c1) eq_refl) as Hc.
    pose proof (step_outbox (Session.Connect socket_ok version) (Fulcrum.disconnect c1))
      as [Hs _].
    simpl in Hs.
    destruct (Fulcrum.connect socket_ok version (Fulcrum.disconnect c1)) as [ok c2];
      simpl in *.
    subst ok. simpl. split; [reflexivity|]. apply Hs. reflexivity.
Qed.

Lemma watchdog_stopped turns : forall c,
  Fulcrum.stop_event c = true ->
  fst (Session._connection_watchdog turns c)
  = replicate (length turns) Session.ReconnectFailed.
Proof.
  induction turns as [|[ops [[ping socket_ok] version]] rest IH]; intros c Hs; simpl;
    [reflexivity|].
  pose proof (session_stop_event ops c Hs) as H1.
  pose proof (watchdog_turn_cases ping socket_ok version (snd (Session.session ops c)))
    as H.
  simpl in H.
  destruct (Session._connection_watchdog_turn ping socket_ok version
              (snd (Session.session ops c))) as [o c2]; simpl in *.
  destruct H as [[_ H]|[-> H]]; [congruence|].
  specialize (IH c2 H).
  destruct (Session._connection_watchdog rest c2) as [os c3]; simpl in *.
  rewrite IH. reflexivity.
Qed.

(** X3. The watchdog never restores a connection. Whatever the other threads
    do with the client between its turns and whatever the socket and the
    peer do, no turn reaches [_resubscribe_all]: the turns see the
    connection alive until the first ping that raises, and from then on
    every turn ends in a failed reconnect. *)
Theorem watchdog_never_restores :
  forall turns c,
    let outcomes := fst (Session._connection_watchdog turns c) in
    (Session.Restored ∉ outcomes) /\
    exists n, (n <= length turns)%nat /\
      outcomes = replicate n Session.Alive
                   ++ replicate (length turns - n) Session.ReconnectFailed.
Proof.
  intros turns c. simpl.
  assert (H : exists n, (n <= length turns)%nat /\
            fst (Session._connection_watchdog turns c)
            = replicate n Session.Alive
                ++ replicate (length turns - n) Session.ReconnectFailed).
  { revert c. induction turns as [|[ops [[ping socket_ok] version]] rest IH];
      intros c; simpl.
    - exists 0%nat. split; [lia|reflexivity].
    - pose proof (watchdog_turn_cases ping socket_ok version
                    (snd (Session.session ops c))) as H.
      simpl in H.
      destruct (Session._connection_watchdog_turn ping socket_ok version
                  (snd (Session.session ops c))) as [o c2]; simpl in *.
      destruct H as [[-> _]|[-> H]].
      + destruct (IH c2) as (n & Hn & E).
        destruct (Session._connection_watchdog rest c2) as [os c3]; simpl in *.
        exists (S n). split; [lia|]. simpl. rewrite E. reflexivity.
      + pose proof (watchdog_stopped rest c2 H) as E.
        destruct (Session._connection_watchdog rest c2) as [os c3]; simpl in *.
        exists 0%nat. split; [lia|]. simpl. rewrite E. reflexivity. }
  destruct H as (n & Hn & E). split; [|exists n; split; assumption].
  rewrite E. intros Hin. apply elem_of_app in Hin.
  destruct Hin as [Hin|Hin]; apply elem_of_replicate in Hin; destruct Hin; discriminate.
Qed.

(** ** The listener over its lifetime *)

Lemma address_map_snoc rows x :
  address_map (rows ++ [x]) = <[address x := x]> (address_map rows).
Proof. unfold address_map. rewrite foldl_app. reflexivity. Qed.

(** Under an address the map built from a list of rows holds the last
    row of that address. *)
Lemma address_map_lookup rows a : address_map rows !! a = last_row a rows.
Proof.
  induction rows as [|x rows IH] using rev_ind; [reflexivity|].
  rewrite address_map_snoc. unfold last_row in *. rewrite filter_app.
  rewrite filter_cons, filter_nil.
  destruct (decide (address x = a)) as [E|E].
  - rewrite last_snoc, <- E. apply lookup_insert_eq.
  - rewrite app_nil_r, lookup_insert_ne; [exact IH|exact E].
Qed.

Lemma last_row_address a rows r : last_row a rows = Some r -> address r = a /\ r ∈ rows.
Proof.
  unfold last_row. intros H. apply last_Some in H. destruct H as [l H].
  assert (Hin : r ∈ filter (fun r => address r = a) rows).
  { rewrite H. apply elem_of_app. right. apply list_elem_of_here. }
  apply list_elem_of_filter in Hin. exact Hin.
Qed.

Lemma load_addresses_ok rows m : load_addresses (Ok rows) m = (true, address_map rows).
Proof. reflexivity. Qed.

Lemma keyed_address_map rows : keyed (address_map rows).
Proof.
  intros k r H. rewrite address_map_lookup in H. apply last_row_address in H. apply H.
Qed.

Lemma keyed_load table m : keyed m -> keyed (snd (load_addresses table m)).
Proof.
  intros Hm. destruct table as [rows|e]; [apply keyed_address_map|exact Hm].
Qed.

Lemma keyed_insert a r m : keyed m -> address r = a -> keyed (<[a := r]> m).
Proof.
  intros Hm Ha k x H. apply lookup_insert_Some in H.
  destruct H as [[<- <-]|[_ H]]; [exact Ha|apply Hm, H].
Qed.

Lemma keyed_delete a m : keyed m -> keyed (delete a m).
Proof.
  intros Hm k x H. apply lookup_delete_Some in H. apply Hm, H.
Qed.

Lemma keyed_notification upper p table m :
  keyed m -> keyed (snd (_handle_notification upper p table m)).
Proof.
  intros Hm. destruct p as [| |action row_address uid did cat thr eur]; simpl.
  - pose proof (keyed_load table m Hm) as H.
    destruct (load_addresses table m); exact H.
  - exact Hm.
  - destruct (action_of upper action) as [act|e]; [|exact Hm].
    destruct (String.eqb act "INSERT" || String.eqb act "UPDATE").
    { destruct row_address as [a|]; [|exact Hm]. simpl.
      apply keyed_insert; [exact Hm|reflexivity]. }
    destruct (String.eqb act "DELETE").
    { destruct row_address as [a|]; [|exact Hm]. simpl. apply keyed_delete, Hm. }
    pose proof (keyed_load table m Hm) as H.
    destruct (load_addresses table m); exact H.
Qed.

Lemma keyed_drain upper notifies : forall m,
  keyed m -> keyed (snd (Listening.drain upper notifies m)).
Proof.
  induction notifies as [|[p table] rest IH]; intros m Hm; simpl; [exact Hm|].
  pose proof (keyed_notification upper p table m Hm) as H.
  destruct (_handle_notification upper p table m) as [h m1]; simpl in H.
  specialize (IH m1 H).
  destruct (Listening.drain upper rest m1) as [hs m2]; exact IH.
Qed.

Lemma keyed_listener upper table notifies : keyed (Listening.listener upper table notifies).
Proof.
  unfold Listening.listener. apply keyed_drain, keyed_load.
  intros k r H. rewrite lookup_empty in H. discriminate.
Qed.

(** The values of a keyed map, read back into a map by address, are the
    map. *)
Lemma address_map_get_payments m : keyed m -> address_map (get_payments m) = m.
Proof.
  intros Hm. apply map_eq. intros a. rewrite address_map_lookup.
  unfold last_row, get_payments.
  destruct (m !! a) as [r|] eqn:E.
  - assert (Hall : Forall (fun x => x = r)
                     (filter (fun r => address r = a) (map snd (map_to_list m)))).
    { apply Forall_forall. intros x Hx. apply list_elem_of_filter in Hx.
      destruct Hx as [Ha Hx]. apply list_elem_of_In, in_map_iff in Hx.
      destruct Hx as ([k y] & Hy & Hin). simpl in Hy. subst y.
      apply list_elem_of_In, elem_of_map_to_list in Hin.
      pose proof (Hm _ _ Hin) as Hk. rewrite Ha in Hk. subst k. congruence. }
    assert (Hne : r ∈ filter (fun r => address r = a) (map snd (map_to_list m))).
    { apply list_elem_of_filter. split; [apply (Hm _ _ E)|].
      apply list_elem_of_In, in_map_iff. exists (a, r). split; [reflexivity|].
      apply list_elem_of_In, elem_of_map_to_list, E. }
    destruct (last (filter (fun r => address r = a) (map snd (map_to_list m))))
      as [y|] eqn:El.
    + apply last_Some_elem_of in El. rewrite Forall_forall in Hall.
      rewrite (Hall y El). reflexivity.
    + apply last_None in El. rewrite El in Hne. apply elem_of_nil in Hne. destruct Hne.
  - destruct (filter (fun r => address r = a) (map snd (map_to_list m)))
      as [|x l] eqn:Ef; [reflexivity|].
    exfalso.
    assert (Hx : x ∈ filter (fun r => address r = a) (map snd (map_to_list m))).
    { rewrite Ef. apply list_elem_of_here. }
    apply list_elem_of_filter in Hx. destruct Hx as [Ha Hx].
    apply list_elem_of_In, in_map_iff in Hx. destruct Hx as ([k y] & Hy & Hin).
    simpl in Hy. subst y. apply list_elem_of_In, elem_of_map_to_list in Hin.
    pose proof (Hm _ _ Hin) as Hk. rewrite Ha in Hk. subst k. congruence.
Qed.

Lemma _build_address_set_get_payments m :
  keyed m -> _build_address_set (get_payments m) = dom m.
Proof.
  intros Hm. apply set_eq. intros a. unfold _build_address_set, get_payments.
  rewrite elem_of_list_to_set, list_elem_of_fmap, elem_of_dom. split.
  - intros (r & -> & Hr). apply list_elem_of_In, in_map_iff in Hr.
    destruct Hr as ([k y] & Hy & Hin). simpl in Hy. subst y.
    apply list_elem_of_In, elem_of_map_to_list in Hin.
    rewrite (Hm _ _ Hin). eauto.
  - intros [r Hr]. exists r. split; [symmetry; apply (Hm _ _ Hr)|].
    apply list_elem_of_In, in_map_iff. exists (a, r). split; [reflexivity|].
    apply list_elem_of_In, elem_of_map_to_list, Hr.
Qed.

(** X4. Whatever the table held at the start and whatever notifications came
    (well-formed or not, reloading or not), every entry of the listener's
    map sits under the address it carries: [get_address(a)], when it
    answers, answers with a row whose address is [a]. *)
Theorem listener_map_is_keyed_by_address :
  forall upper table notifies a r,
    let m := Listening.listener upper table notifies in
    (Listening.get_address m a = Some r <-> r ∈ get_payments m /\ address r = a).
Proof.
  intros upper table notifies a r m.
  pose proof (keyed_listener upper table notifies) as Hm. fold m in Hm.
  unfold Listening.get_address, get_payments. split.
  - intros H. split; [|apply (Hm _ _ H)].
    apply list_elem_of_In, in_map_iff. exists (a, r). split; [reflexivity|].
    apply list_elem_of_In, elem_of_map_to_list, H.
  - intros [Hin Ha]. apply list_elem_of_In, in_map_iff in Hin.
    destruct Hin as ([k y] & Hy & Hin). simpl in Hy. subst y.
    apply list_elem_of_In, elem_of_map_to_list in Hin.
    pose proof (Hm _ _ Hin) as Hk. rewrite Ha in Hk. subst k. exact Hin.
Qed.

(** X5. What the monitor takes from the listener is the listener's map: for
    the map the listener holds after any notifications, the dictionary
    [{p.address: p for p in get_payments()}] is that map and
    [_build_address_set(get_payments())] is its key set, and these are the
    watch list and the lookup table a turn of the reconciliation loop
    leaves. *)
Theorem monitor_reads_the_listener_map :
  forall upper table notifies w,
    let m := Listening.listener upper table notifies in
    address_map (get_payments m) = m /\
    _build_address_set (get_payments m) = dom m /\
    fst (sync (get_payments m) w) = Ok tt /\
    address_to_payment (snd (sync (get_payments m) w)) = m /\
    current_addresses (snd (sync (get_payments m) w)) = dom m.
Proof.
  intros upper table notifies w m.
  pose proof (keyed_listener upper table notifies) as Hm. fold m in Hm.
  pose proof (address_map_get_payments m Hm) as H1.
  pose proof (_build_address_set_get_payments m Hm) as H2.
  destruct (sync_primes (get_payments m) w) as (w' & Hs & Hc & Ha & _).
  rewrite Hs. simpl. rewrite Ha, Hc, H1, H2. repeat split; reflexivity.
Qed.

Lemma map_to_list_address_map rows :
  NoDup (address <$> rows) ->
  map_to_list (address_map rows) ≡ₚ (fun r => (address r, r)) <$> rows.
Proof.
  induction rows as [|x rows IH] using rev_ind; intros Hnd.
  - unfold address_map. simpl. rewrite map_to_list_empty. reflexivity.
  - rewrite fmap_app in Hnd. apply NoDup_app in Hnd. destruct Hnd as (Hnd & Hx & _).
    rewrite address_map_snoc, fmap_app. simpl.
    rewrite map_to_list_insert.
    + rewrite (IH Hnd). apply Permutation_cons_append.
    + rewrite address_map_lookup.
      destruct (last_row (address x) rows) as [r|] eqn:E; [|reflexivity].
      exfalso. apply last_row_address in E. destruct E as [Ea Er].
      apply (Hx (address x)); [|apply list_elem_of_here].
      apply list_elem_of_fmap. exists r. split; [symmetry; exact Ea|exact Er].
Qed.

(** X6. [load_addresses]: a load that goes through replaces the map, whatever
    it held, by the rows of the table, the last row winning among rows of
    one address; when the addresses of the table are distinct (it is the
    primary key), [get_payments] returns the rows of the table, in some
    order.  A load that fails keeps the map. *)
Theorem load_addresses_replaces_the_map :
  forall rows m,
    (forall a, snd (load_addresses (Ok rows) m) !! a = last_row a rows) /\
    (forall a r, last_row a rows = Some r -> address r = a /\ r ∈ rows) /\
    (forall a, a ∉ address <$> rows -> snd (load_addresses (Ok rows) m) !! a = None) /\
    (NoDup (address <$> rows) ->
     get_payments (snd (load_addresses (Ok rows) m)) ≡ₚ rows) /\
    (forall e, load_addresses (Raise e) m = (false, m)).
Proof.
  intros rows m. rewrite load_addresses_ok. simpl.
  split; [apply address_map_lookup|].
  split; [intros a r; apply last_row_address|].
  split; [|split; [|reflexivity]].
  - intros a Ha. rewrite address_map_lookup.
    destruct (last_row a rows) as [r|] eqn:E; [|reflexivity].
    exfalso. apply last_row_address in E. destruct E as [Ea Er]. apply Ha.
    apply list_elem_of_fmap. exists r. split; [symmetry; exact Ea|exact Er].
  - intros Hnd. unfold get_payments.
    change (map snd (map_to_list (address_map rows)))
      with (snd <$> map_to_list (address_map rows)).
    rewrite (map_to_list_address_map rows Hnd), <- list_fmap_compose.
    rewrite (list_fmap_ext _ id rows); [rewrite list_fmap_id; reflexivity|].
    intros i r _. reflexivity.
Qed.

(** ** The price cache, exactly *)

Lemma refresh_entry_eur float_of_str now_ts o c :
  _PRICE_CACHE_EUR (_refresh_bch_prices_once float_of_str now_ts o c)
  = entry_of (latest_positive (offered_eur float_of_str) [(now_ts, o)])
      (_PRICE_CACHE_EUR c).
Proof.
  unfold _refresh_bch_prices_once, latest_positive, offered_eur. simpl.
  destruct (fetched_values float_of_str o) as [[eur_val usd_val]|e]; [|reflexivity].
  unfold write_if_positive.
  destruct (0 <? eur_val)%float; simpl; [reflexivity|].
  destruct (0 <? usd_val)%float; reflexivity.
Qed.

Lemma refresh_entry_usd float_of_str now_ts o c :
  _PRICE_CACHE_USD (_refresh_bch_prices_once float_of_str now_ts o c)
  = entry_of (latest_positive (offered_usd float_of_str) [(now_ts, o)])
      (_PRICE_CACHE_USD c).
Proof.
  unfold _refresh_bch_prices_once, latest_positive, offered_usd. simpl.
  destruct (fetched_values float_of_str o) as [[eur_val usd_val]|e]; [|reflexivity].
  unfold write_if_positive.
  destruct (0 <? usd_val)%float; simpl.
  - destruct (0 <? eur_val)%float; reflexivity.
  - destruct (0 <? eur_val)%float; reflexivity.
Qed.

Lemma latest_positive_cons offered x schedule :
  latest_positive offered (x :: schedule)
  = match latest_positive offered schedule with
    | Some y => Some y
    | None => latest_positive offered [x]
    end.
Proof.
  unfold latest_positive. simpl.
  destruct (offered (snd x)) as [v|]; simpl.
  - destruct (0 <? v)%float; simpl.
    + rewrite last_cons. reflexivity.
    + destruct (last _); reflexivity.
  - destruct (last _); reflexivity.
Qed.

Lemma refresher_entries float_of_str schedule : forall c,
  _PRICE_CACHE_EUR (refresher float_of_str schedule c)
  = entry_of (latest_positive (offered_eur float_of_str) schedule) (_PRICE_CACHE_EUR c) /\
  _PRICE_CACHE_USD (refresher float_of_str schedule c)
  = entry_of (latest_positive (offered_usd float_of_str) schedule) (_PRICE_CACHE_USD c).
Proof.
  induction schedule as [|[now_ts o] rest IH]; intros c; simpl; [split; reflexivity|].
  destruct (IH (_refresh_bch_prices_once float_of_str now_ts o c)) as [He Hu].
  rewrite He, Hu, refresh_entry_eur, refresh_entry_usd.
  rewrite (latest_positive_cons _ (now_ts, o) rest).
  rewrite (latest_positive_cons (offered_usd float_of_str) (now_ts, o) rest).
  split.
  - destruct (latest_positive (offered_eur float_of_str) rest) as [[t v]|]; reflexivity.
  - destruct (latest_positive (offered_usd float_of_str) rest) as [[t v]|]; reflexivity.
Qed.

(** X7. The cached price of a currency is the latest value above zero that
    any refresh offered for it, stamped with the time of that refresh,
    however many failed, empty or non-positive refreshes came after it and
    however old it is; it is [None] when no refresh offered one. A value
    for one currency never touches the entry of the other. *)
Theorem cached_price_is_the_latest_positive :
  forall float_of_str schedule,
    let c := refresher float_of_str schedule initial_cache in
    _PRICE_CACHE_EUR c
    = entry_of (latest_positive (offered_eur float_of_str) schedule)
        {| ts := 0; price := None |} /\
    _PRICE_CACHE_USD c
    = entry_of (latest_positive (offered_usd float_of_str) schedule)
        {| ts := 0; price := None |} /\
    get_bch_eur_price_cached c
    = snd <$> latest_positive (offered_eur float_of_str) schedule /\
    get_bch_usd_price_cached c
    = snd <$> latest_positive (offered_usd float_of_str) schedule.
Proof.
  intros float_of_str schedule c.
  destruct (refresher_entries float_of_str schedule initial_cache) as [He Hu].
  fold c in He, Hu. simpl in He, Hu.
  split; [exact He|]. split; [exact Hu|].
  unfold get_bch_eur_price_cached, get_bch_usd_price_cached. rewrite He, Hu.
  split.
  - destruct (latest_positive (offered_eur float_of_str) schedule) as [[t v]|]; reflexivity.
  - destruct (latest_positive (offered_usd float_of_str) schedule) as [[t v]|]; reflexivity.
Qed.

(** ** Events and reconciliation *)

(** X8. The event of an output carries the output's key, the address of the
    notification and the output's value (0 when the listing gives none);
    its status is never [unconfirmed]: [int(u.get("height", -1) or -1)]
    turns the height 0 of a mempool output into -1, so a mempool output is
    reported as [unknown] with height -1, as is an output without height;
    an output with a positive height is [confirmed].  The only way the
    construction fails is a value too large for a float. *)
Theorem mempool_output_is_reported_unknown :
  forall address u,
    match synthesize address u with
    | Ok e =>
        event_key e = key_of u /\ ev_address e = address /\
        value_sats e = default 0 (value u) /\
        status e <> unconfirmed /\ ev_height e <> 0 /\
        (status e = confirmed <-> exists h, height u = Some h /\ 0 < h) /\
        (height u = Some 0 \/ height u = None -> status e = unknown /\ ev_height e = -1)
    | Raise e =>
        e = OverflowError /\ float_of_int (default 0 (value u)) = Raise OverflowError
    end.
Proof.
  intros address u. unfold synthesize.
  destruct (float_of_int (default 0 (value u))) as [f|e] eqn:Ef.
  - unfold event_key, key_of. simpl.
    split; [reflexivity|]. split; [reflexivity|]. split; [reflexivity|].
    destruct (height u) as [h|]; simpl.
    + destruct (h =? 0) eqn:E0; simpl.
      * apply Z.eqb_eq in E0. subst h. split; [discriminate|]. split; [lia|].
        split; [|auto]. split; [discriminate|]. intros (h & [= <-] & Hh). lia.
      * rewrite E0. apply Z.eqb_neq in E0. split.
        { destruct (0 <? h); discriminate. }
        split; [exact E0|]. split.
        { destruct (0 <? h) eqn:Ep.
          - apply Z.ltb_lt in Ep. split; [eauto|reflexivity].
          - apply Z.ltb_ge in Ep. split; [discriminate|].
            intros (h' & [= <-] & Hh). lia. }
        intros [[= ->]|[=]]. lia.
    + split; [discriminate|]. split; [lia|]. split; [|auto].
      split; [discriminate|]. intros (h & [=] & _).
  - unfold float_of_int in *.
    destruct (is_infinity _); [|discriminate]. injection Ef as <-. split; reflexivity.
Qed.






(** X10. A second turn of the reconciliation loop with the same list does
    nothing: it makes no call of the client and leaves the monitor as the
    first turn left it. *)
Theorem second_sync_does_nothing :
  forall updated_payments w,
    sync updated_payments (snd (sync updated_payments w))
    = (Ok tt, snd (sync updated_payments w)).
Proof.
  intros updated_payments w.
  destruct (sync_primes updated_payments w) as (w' & Hs & Hc & Ha & _).
  rewrite Hs. simpl.
  unfold sync. unfold bind at 1, gets. rewrite Hc.
  rewrite difference_diag_L, elements_empty. simpl.
  unfold bind, ret, modify. destruct w'; simpl in *. subst. reflexivity.
Qed.

(** ** The handler at its edges *)

Lemma price_based_credit prices user_id username event f r f' p d :
  available (get_bch_eur_price_cached prices) = Some p ->
  ceil (compute_grain_reward_eur (or_zero (value_bch event) * p)) = Ok d ->
  price_based prices user_id username event f = (r, f') ->
  euro_amount_insert f' = Some (or_zero (value_bch event) * p)%float /\
  run (store f) [(UpdateGrainBalance user_id d, negb (next_fault (store f)))] (store f').
Proof.
  intros Hp Hd. unfold price_based. rewrite Hp.
  unfold bind, set_euro_amount_insert, modify.
  match goal with |- context [snapshot_usd ?q ?v ?g] =>
    destruct (snapshot_usd_run q v g) as (f1 & -> & Hs & He & _) end.
  unfold credit_grain, bind, lift_result. rewrite Hd.
  destruct (on_store (execute (UpdateGrainBalance user_id d)) f1) as [r0 f0] eqn:E.
  apply on_store_execute in E. destruct E as (Hr & _ & Hok & _ & He0 & _).
  simpl in Hok. rewrite andb_true_r in Hok. rewrite Hok, Hs in Hr. simpl in Hr.
  destruct r0 as [[]|e]; intros [= <- <-]; simpl;
    (split; [rewrite He0, He; reflexivity|exact Hr]).
Qed.

(** X11. The reward does not wait for the record. On a user-linked address
    handled by the price-based method with a cached price, when the
    output is already recorded under its [tx_id] and the store is
    available, the handler still adds the reward to the balance; then the
    insert fails on the duplicate and leaves [bchpayment] as it was. An
    output handled twice is paid out twice and recorded once. *)
Theorem credit_does_not_wait_for_the_insert
  prices now payment event s user_id created p d old :
  Registry.user_id payment = Some user_id ->
  created_at payment = Some created ->
  (window <= now - created \/ threshold_sats_of payment = None \/
   exists t, threshold_sats_of payment = Some t /\ value_sats event < t) ->
  available (get_bch_eur_price_cached prices) = Some p ->
  ceil (compute_grain_reward_eur (or_zero (value_bch event) * p)) = Ok d ->
  db_faults s = [] ->
  bchpayment (tables s) !! default "" (ev_tx_hash event) = Some old ->
  exists s' row,
    threshold_handler prices now payment event s = (Ok tt, s') /\
    statements s' = statements s
      ++ [(SelectUsername user_id, true); (UpdateGrainBalance user_id d, true);
          (InsertBchPayment row, false)] /\
    tx_id row = default "" (ev_tx_hash event) /\
    users (tables s') = alter (credit d) user_id (users (tables s)) /\
    bchpayment (tables s') = bchpayment (tables s).
Proof.
  intros Hu Hc Hmode Hp Hd Hf Hold.
  destruct (threshold_handler_user prices now payment event s user_id Hu)
    as (username & f1 & r & f2 & desc & s' & H1 & _ & _ & Hg & Hh & s2 & H2 & H3 & _).
  rewrite (grain_update_price_mode prices now payment user_id username event created
             Hc Hmode) in Hg.
  destruct (price_based_credit _ _ _ _ _ _ _ p d Hp Hd Hg) as [_ Hrun].
  assert (Hn0 : next_fault s = false) by (unfold next_fault; rewrite Hf; reflexivity).
  assert (Hn1 : next_fault (store f1) = false).
  { rewrite (next_fault_drop s (store f1) _ (run_faults _ _ _ H1)), Hf. reflexivity. }
  rewrite Hn0 in H1. rewrite Hn1 in Hrun. simpl in H1, Hrun.
  pose proof (run_app _ _ _ _ _ (run_app _ _ _ _ _ H1 Hrun) H2) as H12.
  simpl in H12.
  destruct (run_insert _ _ _ _ _ H12 H3) as (Hst & Hins & Hus & _).
  assert (Hno : insertable
                  (payment_row now payment event (str_of_int user_id) desc
                     (euro_amount_insert f2) (usd_amount_insert f2)) s2 = false).
  { rewrite Hins. unfold replay, replay1. simpl. rewrite Hold.
    rewrite bool_decide_eq_false_2 by discriminate. apply andb_false_r. }
  rewrite Hno in Hst, H3.
  exists s'. eexists. split; [exact Hh|]. split; [exact Hst|].
  split; [reflexivity|]. split; [exact Hus|].
  rewrite (run_tables _ _ _ H3), (run_tables _ _ _ H12). reflexivity.
Qed.

(** X12. A user-linked address without [created_at] earns nothing: the [try]
    block of the reward stops on the date (a [ValueError]) before any
    price or amount is looked at, so no balance update is issued; the
    output is still recorded, without [euro_amount] and [usd_amount]. *)
Theorem address_without_created_at_earns_nothing
  prices now payment event s user_id :
  Registry.user_id payment = Some user_id ->
  created_at payment = None ->
  exists s' row,
    threshold_handler prices now payment event s = (Ok tt, s') /\
    statements s' = statements s
      ++ [(SelectUsername user_id, negb (next_fault s));
          (InsertBchPayment row,
           negb (nth 1 (db_faults s) false)
           && bool_decide (bchpayment (tables s) !! tx_id row = None))] /\
    tx_id row = default "" (ev_tx_hash event) /\
    amount row = value_sats event /\
    pay_euro_amount row = None /\
    usd_amount row = None /\
    users (tables s') = users (tables s).
Proof.
  intros Hu Hc.
  destruct (user_payment_of prices now payment event s user_id
              (fun e u tr => e = None /\ u = None /\ tr = []) Hu)
    as (s' & s2 & grain & row & Hh & H1 & H2 & (He & Hus & ->) & Htx & Ham & _).
  { intros username f r f' He Hus. unfold grain_update. rewrite Hc.
    intros [= <- <-]. exists []. split; [apply run_nil|]. auto. }
  destruct (run_insert _ _ _ _ _ H1 H2) as (Hst & Hins & Husers & _).
  exists s', row. split; [exact Hh|]. split.
  { assert (Hb : bchpayment
                   (replay1 (tables s) (SelectUsername user_id, negb (next_fault s)))
                 = bchpayment (tables s)).
    { unfold replay1. simpl. destruct (next_fault s); reflexivity. }
    unfold replay in Hins. simpl in Hins. rewrite Hb in Hins.
    rewrite Hst, Hins. reflexivity. }
  split; [exact Htx|]. split; [exact Ham|]. split; [exact He|]. split; [exact Hus|].
  rewrite Husers. simpl. destruct (next_fault s); reflexivity.
Qed.

Lemma feed_price_lookup_none payment w :
  next_fault (db w) = true \/
  (device_id payment ≫= fun d => devices (tables (db w)) !! d ≫= crypto_feed_price)
  = None ->
  exists s1,
    try_except (on_db (select_crypto_feed_price (device_id payment)))
      (fun e => bind (on_db (print (FeedPriceLookupFailed e))) (fun _ => ret None)) w
    = (Ok None, set_db s1 w) /\
    run (db w)
      [(SelectCryptoFeedPrice (device_id payment), negb (next_fault (db w)))] s1.
Proof.
  intros H. unfold try_except, on_db, zoom, select_crypto_feed_price, bind.
  destruct (execute (SelectCryptoFeedPrice (device_id payment)) (db w)) as [r s1] eqn:E.
  apply execute_run in E. destruct E as (Hr & _ & Hok).
  simpl in Hok. rewrite andb_true_r in Hok. rewrite Hok in Hr.
  destruct r as [[]|e]; simpl in Hok.
  - destruct H as [H|H]; [rewrite H in Hok; discriminate|].
    exists s1. unfold gets. rewrite (run_tables _ _ _ Hr).
    unfold replay, replay1. simpl. destruct (negb (next_fault (db w))); simpl;
      rewrite H; split; first [reflexivity|exact Hr].
  - unfold print, modify, ret. simpl. eexists. split; [reflexivity|].
    apply run_printed. exact Hr.
Qed.

(** X13. The device gate is open whenever the price of a feeding cannot be
    read: when the store is unavailable for the lookup, when the address
    has no device, when the device is not in the table or has no
    [crypto_feed_price], the handler runs whatever the value of the
    output: the feeding counters are updated and the payment is
    recorded. *)
Theorem device_gate_is_open_without_a_feed_price payment event w :
  Registry.user_id payment = None ->
  (next_fault (db w) = true \/
   (device_id payment ≫= fun d => devices (tables (db w)) !! d ≫= crypto_feed_price)
   = None) ->
  exists w' paid ok2 ok3 ok4,
    device_gate payment event w = (Ok tt, w') /\
    statements (db w') = statements (db w)
      ++ [(SelectCryptoFeedPrice (device_id payment), negb (next_fault (db w)));
          (SelectDevice (device_id payment), ok2);
          (UpdateFeedings (device_id payment) (now w), ok3);
          (InsertBchPayment paid, ok4)] /\
    tx_id paid = default "" (ev_tx_hash event) /\
    amount paid = value_sats event.
Proof.
  intros Hu H.
  destruct (feed_price_lookup_none payment w H) as (s1 & Hlook & Hrun).
  unfold device_gate. unfold bind at 1. rewrite Hlook.
  destruct (handle_on_db payment event (set_db s1 w)) as (s' & Hh & ->).
  simpl in Hh.
  destruct (threshold_handler_device (prices w) (now w) payment event s1 Hu)
    as (s'' & s2 & paid & Hh' & Hr2 & Hr3 & _ & _ & Htx & Ham & _).
  rewrite Hh in Hh'. injection Hh' as <-.
  pose proof (run_app _ _ _ _ _ (run_app _ _ _ _ _ Hrun Hr2) Hr3) as Hall.
  eexists. exists paid. do 3 eexists. split; [reflexivity|].
  split; [exact (run_statements _ _ _ Hall)|]. split; [exact Htx|exact Ham].
Qed.





(** X15. When the request for the outputs raises, the worker reports the
    error and returns: no event is reported, no statement is issued, and
    the outputs the address is known by are left as they were, so the
    outputs are still new to the next notification. *)
Theorem failed_request_changes_nothing address w :
  next_rpc_fault (net w) = true ->
  exists w',
    fetch_and_emit address w = (Ok tt, w') /\
    calls (net w') = calls (net w) ++ [(ListUnspent address, false)] /\
    received w' = received w /\
    known_utxos_by_addr w' = known_utxos_by_addr w /\
    tables (db w') = tables (db w) /\
    statements (db w') = statements (db w) /\
    printed (db w') = printed (db w) ++ [AddressError address ConnectionError].
Proof.
  intros Hf. unfold fetch_and_emit, try_except, fetch_and_emit_body.
  unfold bind at 1.
  destruct (on_net (listunspent address) w) as [r1 w1] eqn:E1.
  apply listunspent_on_net in E1. destruct E1 as [-> ->]. rewrite Hf.
  eexists. split; [reflexivity|]. simpl. repeat split.
Qed.

(** The same output of 100000 sats handled a second time, forty minutes
    after the address was created, at 400 EUR a coin: 2 grain are added
    again and no second row is written. *)
Lemma credit_does_not_wait_for_the_insert_twice :
  exists s' row,
    threshold_handler Scenario.prices_400 Edge.late
      (Scenario.user_address (Some 10%float)) Edge.small_payment Edge.handled_once
    = (Ok tt, s') /\
    statements s' = statements Edge.handled_once
      ++ [(SelectUsername 7, true); (UpdateGrainBalance 7 2, true);
          (InsertBchPayment row, false)] /\
    tx_id row = default "" (ev_tx_hash Edge.small_payment) /\
    users (tables s') = alter (credit 2) 7 (users (tables Edge.handled_once)) /\
    bchpayment (tables s') = bchpayment (tables Edge.handled_once).
Proof.
  eapply (credit_does_not_wait_for_the_insert Scenario.prices_400 Edge.late
            (Scenario.user_address (Some 10%float)) Edge.small_payment Edge.handled_once
            7 (Scenario.noon - Scenario.minutes 5) 400%float 2).
  - reflexivity.
  - reflexivity.
  - left. vm_compute. discriminate.
  - reflexivity.
  - vm_compute. reflexivity.
  - vm_compute. reflexivity.
  - vm_compute. reflexivity.
Defined.

Example handled_twice_is_credited_twice :
  (users Scenario.some_tables !! 7) ≫= grain_balance = Some 5 /\
  (users (tables Edge.handled_once) !! 7) ≫= grain_balance = Some 7 /\
  (users (tables (snd (threshold_handler Scenario.prices_400 Edge.late
                         (Scenario.user_address (Some 10%float)) Edge.small_payment
                         Edge.handled_once))) !! 7) ≫= grain_balance = Some 9 /\
  size (bchpayment (tables (snd (threshold_handler Scenario.prices_400 Edge.late
                                   (Scenario.user_address (Some 10%float))
                                   Edge.small_payment Edge.handled_once)))) = 1%nat.
Proof. repeat split; vm_compute; reflexivity. Qed.

(** An output of 250000 sats on the address as a notification in the
    documented format left it. *)
Lemma address_without_created_at_earns_nothing_notified :
  exists s' row,
    threshold_handler Scenario.prices_400 Scenario.noon Edge.notified_address
      (Scenario.payment_of "bitcoincash:quser" 250000 0.0025) Scenario.some_store
    = (Ok tt, s') /\
    statements s' = statements Scenario.some_store
      ++ [(SelectUsername 7, negb (next_fault Scenario.some_store));
          (InsertBchPayment row,
           negb (nth 1 (db_faults Scenario.some_store) false)
           && bool_decide (bchpayment (tables Scenario.some_store) !! tx_id row = None))] /\
    tx_id row
    = default "" (ev_tx_hash (Scenario.payment_of "bitcoincash:quser" 250000 0.0025)) /\
    amount row = value_sats (Scenario.payment_of "bitcoincash:quser" 250000 0.0025) /\
    pay_euro_amount row = None /\
    usd_amount row = None /\
    users (tables s') = users (tables Scenario.some_store).
Proof.
  apply (address_without_created_at_earns_nothing Scenario.prices_400 Scenario.noon
           Edge.notified_address
           (Scenario.payment_of "bitcoincash:quser" 250000 0.0025) Scenario.some_store 7).
  - reflexivity.
  - reflexivity.
Defined.

Example documented_notification_has_no_created_at :
  _handle_notification ascii_upper
    (RowObject (Some (JStr "INSERT")) (Some "bitcoincash:quser") (Some 7) None
       None None None) (Raise StoreUnavailable) ∅
  = (Upserted "bitcoincash:quser", {[ "bitcoincash:quser" := Edge.notified_address ]}).
Proof. reflexivity. Qed.

(** One satoshi on the address of a device that is not in the table. *)
Lemma device_gate_is_open_without_a_feed_price_stray :
  exists w' paid ok2 ok3 ok4,
    device_gate Edge.stray_device_address
      (Scenario.payment_of "bitcoincash:qstray" 1 0.00000001)
      (Scenario.some_world Scenario.prices_500 [Edge.stray_device_address] ∅
         "bitcoincash:qstray" [] [])
    = (Ok tt, w') /\
    statements (db w')
    = statements Scenario.some_store
      ++ [(SelectCryptoFeedPrice (Some 99), negb (next_fault Scenario.some_store));
          (SelectDevice (Some 99), ok2);
          (UpdateFeedings (Some 99) Scenario.noon, ok3);
          (InsertBchPayment paid, ok4)] /\
    tx_id paid
    = default "" (ev_tx_hash (Scenario.payment_of "bitcoincash:qstray" 1 0.00000001)) /\
    amount paid = 1.
Proof.
  apply (device_gate_is_open_without_a_feed_price Edge.stray_device_address
           (Scenario.payment_of "bitcoincash:qstray" 1 0.00000001)
           (Scenario.some_world Scenario.prices_500 [Edge.stray_device_address] ∅
              "bitcoincash:qstray" [] [])).
  - reflexivity.
  - right. vm_compute. reflexivity.
Defined.


(** The request of the worker raises in front of the user address. *)
Lemma failed_request_changes_nothing_once :
  exists w',
    fetch_and_emit "bitcoincash:quser" Scenario.unprimed_world = (Ok tt, w') /\
    calls (net w')
    = calls (net Scenario.unprimed_world) ++ [(ListUnspent "bitcoincash:quser", false)] /\
    received w' = received Scenario.unprimed_world /\
    known_utxos_by_addr w' = known_utxos_by_addr Scenario.unprimed_world /\
    tables (db w') = tables (db Scenario.unprimed_world) /\
    statements (db w') = statements (db Scenario.unprimed_world) /\
    printed (db w')
    = printed (db Scenario.unprimed_world)
      ++ [AddressError "bitcoincash:quser" ConnectionError].
Proof.
  apply (failed_request_changes_nothing "bitcoincash:quser" Scenario.unprimed_world).
  reflexivity.
Defined.

(** ** The cleanup job *)

Lemma paid_spec bchpayment a :
  Cleanup.paid bchpayment a = true <->
  exists tx p, bchpayment !! tx = Some p /\ pay_address p = a.
Proof.
  unfold Cleanup.paid. rewrite existsb_exists. split.
  - intros ([tx p] & Hin & He). simpl in He. apply String.eqb_eq in He.
    apply list_elem_of_In, elem_of_map_to_list in Hin. eauto.
  - intros (tx & p & Hp & Ha). exists (tx, p). split.
    + apply list_elem_of_In, elem_of_map_to_list, Hp.
    + simpl. apply String.eqb_eq, Ha.
Qed.

Lemma elem_of_kept now bchpayment bch x :
  x ∈ Cleanup.kept now bchpayment bch <->
  x ∈ bch /\
  (Cleanup.expired now x = false \/ Cleanup.paid bchpayment (address x) = true).
Proof.
  unfold Cleanup.kept. rewrite !list_elem_of_In, filter_In, negb_true_iff, andb_false_iff,
    negb_false_iff. reflexivity.
Qed.

Lemma expired_spec now x :
  Cleanup.expired now x = true <-> exists c, created_at x = Some c /\ c < now - Cleanup.day.
Proof.
  unfold Cleanup.expired. destruct (created_at x) as [c|].
  - rewrite Z.ltb_lt. split; [eauto|]. intros (c' & [= <-] & H). exact H.
  - split; [discriminate|]. intros (c & [=] & _).
Qed.

(** X16. What the job deletes and what it keeps: a row goes exactly when it
    was created more than 24 hours ago and no recorded payment names its
    address; a row without [created_at] stays; the rows kept keep their
    order and the count reported is the number of rows gone.  When the
    [DELETE] fails the error is printed and the table is as it was; the
    job raises only when the pool cannot be created. *)
Theorem cleanup_deletes_old_unpaid_addresses :
  forall pool_ok store_ok now bchpayment bch,
    let r := Cleanup.cleanup_old_bch_addresses pool_ok store_ok now bchpayment bch in
    (is_ok (fst r) = pool_ok) /\
    (forall x, x ∈ snd r <->
       x ∈ bch /\
       (pool_ok && store_ok = false \/
        created_at x = None \/
        (exists c, created_at x = Some c /\ now - Cleanup.day <= c) \/
        exists tx p, bchpayment !! tx = Some p /\ pay_address p = address x)) /\
    snd r `sublist_of` bch /\
    (forall n, fst r = Ok (Cleanup.CleanedUp n) ->
               store_ok = true /\ (length (snd r) + n)%nat = length bch) /\
    (forall e, fst r = Ok (Cleanup.CleanupError e) ->
               store_ok = false /\ snd r = bch).
Proof.
  intros pool_ok store_ok now bchpayment bch. simpl.
  assert (Hlen : (length (Cleanup.kept now bchpayment bch) <= length bch)%nat).
  { unfold Cleanup.kept. clear. induction bch as [|x l IH]; simpl; [lia|].
    destruct (negb _); simpl; lia. }
  assert (Hsub : Cleanup.kept now bchpayment bch `sublist_of` bch).
  { unfold Cleanup.kept. clear. induction bch as [|x l IH]; simpl; [constructor|].
    destruct (negb _); [apply sublist_skip|apply sublist_cons]; exact IH. }
  assert (Hkept : forall x, x ∈ Cleanup.kept now bchpayment bch <->
            x ∈ bch /\
            (created_at x = None \/
             (exists c, created_at x = Some c /\ now - Cleanup.day <= c) \/
             exists tx p, bchpayment !! tx = Some p /\ pay_address p = address x)).
  { intros x. rewrite elem_of_kept, <- paid_spec.
    assert (He : Cleanup.expired now x = false <->
                 created_at x = None \/
                 exists c, created_at x = Some c /\ now - Cleanup.day <= c).
    { unfold Cleanup.expired. destruct (created_at x) as [c|].
      - rewrite Z.ltb_ge. split.
        + intros H. right. eauto.
        + intros [[=]|(c' & [= <-] & H)]. exact H.
      - split; [auto|reflexivity]. }
    rewrite He. tauto. }
  unfold Cleanup.cleanup_old_bch_addresses.
  destruct pool_ok, store_ok; simpl.
  - split; [reflexivity|]. split.
    { intros x. rewrite Hkept. split; [tauto|].
      intros [Hx [[=]|H]]. tauto. }
    split; [exact Hsub|]. split.
    + intros n [= <-]. split; [reflexivity|lia].
    + intros e [=].
  - split; [reflexivity|]. split; [intros x; tauto|]. split; [reflexivity|].
    split; [intros n [=]|]. intros e _. split; reflexivity.
  - split; [reflexivity|]. split; [intros x; tauto|]. split; [reflexivity|].
    split; [intros n [=]|intros e [=]].
  - split; [reflexivity|]. split; [intros x; tauto|]. split; [reflexivity|].
    split; [intros n [=]|intros e [=]].
Qed.

Lemma kept_kept now later bchpayment bch :
  now <= later ->
  Cleanup.kept later bchpayment (Cleanup.kept now bchpayment bch)
  = Cleanup.kept later bchpayment bch.
Proof.
  intros Hle. unfold Cleanup.kept. induction bch as [|x l IH]; simpl; [reflexivity|].
  destruct (negb (Cleanup.expired now x && negb (Cleanup.paid bchpayment (address x))))
    eqn:E1; simpl.
  - rewrite IH. reflexivity.
  - rewrite IH. apply negb_false_iff, andb_true_iff in E1. destruct E1 as [E1 Ep].
    assert (E2 : Cleanup.expired later x = true).
    { apply expired_spec in E1. destruct E1 as (c & Hc & H).
      apply expired_spec. exists c. split; [exact Hc|lia]. }
    rewrite E2, Ep. reflexivity.
Qed.

(** X17. Running the job again deletes no more than running it once at the
    later time: with the payments as they are, a run at [now] followed
    by a run at a later time leaves what the later run alone leaves, and
    a second run at the same time reports [DELETE 0]. *)
Theorem cleanup_again_deletes_nothing_more now later bchpayment bch :
  now <= later ->
  snd (Cleanup.cleanup_old_bch_addresses true true later bchpayment
         (snd (Cleanup.cleanup_old_bch_addresses true true now bchpayment bch)))
  = snd (Cleanup.cleanup_old_bch_addresses true true later bchpayment bch) /\
  Cleanup.cleanup_old_bch_addresses true true now bchpayment
    (snd (Cleanup.cleanup_old_bch_addresses true true now bchpayment bch))
  = (Ok (Cleanup.CleanedUp 0),
     snd (Cleanup.cleanup_old_bch_addresses true true now bchpayment bch)).
Proof.
  intros Hle. unfold Cleanup.cleanup_old_bch_addresses. simpl.
  split; [apply kept_kept, Hle|].
  rewrite kept_kept by lia. rewrite Nat.sub_diag. reflexivity.
Qed.

Lemma threshold_handler_last prices now payment event s s' :
  threshold_handler prices now payment event s = (Ok tt, s') ->
  exists s2 row,
    run s2 [(InsertBchPayment row, insertable row s2)] s' /\
    pay_address row
    = (if String.eqb (ev_address event) "" then address payment else ev_address event) /\
    tx_id row = default "" (ev_tx_hash event).
Proof.
  unfold threshold_handler. unfold bind at 1.
  destruct (print_run (PaymentDetected (address payment) (value_sats event)) s)
    as (s0 & -> & _ & _).
  match goal with |- context [match ?b ?f with _ => _ end] =>
    destruct (b f) as [[reference|e] f1] end.
  - match goal with |- context [write_payment_record ?n ?t ?a ?rf ?d ?ad ?eu ?us ?st] =>
      destruct (write_payment_record_run n t a rf d ad eu us st) as (s'' & -> & Hw & _)
    end.
    intros [= <-]. do 2 eexists. split; [exact Hw|]. split; reflexivity.
  - discriminate.
Qed.

(** X18. A recorded payment protects its address: once the handler has
    recorded an output (its insert went through), the job never deletes
    the row of that address, whenever it runs and however old the row
    is. *)
Theorem recorded_payment_protects_the_address
  prices now payment event s s' row pool_ok store_ok later bch x :
  threshold_handler prices now payment event s = (Ok tt, s') ->
  last (statements s') = Some (InsertBchPayment row, true) ->
  ev_address event = address payment ->
  x ∈ bch ->
  address x = address payment ->
  x ∈ snd (Cleanup.cleanup_old_bch_addresses pool_ok store_ok later
             (bchpayment (tables s')) bch).
Proof.
  intros Hh Hlast Hev Hx Ha.
  destruct (threshold_handler_last _ _ _ _ _ _ Hh) as (s2 & row' & Hrun & Hpay & _).
  rewrite (run_statements _ _ _ Hrun), last_snoc in Hlast.
  injection Hlast as <- Hins.
  destruct (run_insert s2 [] s2 row' s' (run_nil s2)) as (_ & _ & _ & Hrow).
  { exact Hrun. }
  specialize (Hrow Hins).
  assert (Hp : pay_address row' = address x).
  { rewrite Hpay, Ha, Hev. destruct (String.eqb (address payment) ""); reflexivity. }
  assert (Hk : x ∈ Cleanup.kept later (bchpayment (tables s')) bch).
  { apply elem_of_kept. split; [exact Hx|]. right. apply paid_spec. eauto. }
  unfold Cleanup.cleanup_old_bch_addresses.
  destruct pool_ok, store_ok; simpl; assumption.
Qed.

(** Two runs of the job, two and three days after [noon]. *)
Lemma cleanup_again_deletes_nothing_more_next_day :
  snd (Cleanup.cleanup_old_bch_addresses true true
         (Old.two_days_later + Cleanup.day) (bchpayment (tables Edge.handled_once))
         (snd (Cleanup.cleanup_old_bch_addresses true true Old.two_days_later
                 (bchpayment (tables Edge.handled_once)) Old.bch)))
  = snd (Cleanup.cleanup_old_bch_addresses true true
           (Old.two_days_later + Cleanup.day) (bchpayment (tables Edge.handled_once))
           Old.bch) /\
  Cleanup.cleanup_old_bch_addresses true true Old.two_days_later
    (bchpayment (tables Edge.handled_once))
    (snd (Cleanup.cleanup_old_bch_addresses true true Old.two_days_later
            (bchpayment (tables Edge.handled_once)) Old.bch))
  = (Ok (Cleanup.CleanedUp 0),
     snd (Cleanup.cleanup_old_bch_addresses true true Old.two_days_later
            (bchpayment (tables Edge.handled_once)) Old.bch)).
Proof.
  apply (cleanup_again_deletes_nothing_more Old.two_days_later
           (Old.two_days_later + Cleanup.day) (bchpayment (tables Edge.handled_once))
           Old.bch).
  vm_compute. discriminate.
Defined.

(** The user address, paid once, two days later. *)
Lemma recorded_payment_protects_the_address_two_days_later :
  Scenario.user_address (Some 10%float)
  ∈ snd (Cleanup.cleanup_old_bch_addresses true true Old.two_days_later
           (bchpayment (tables Edge.handled_once)) Old.bch).
Proof.
  eapply (recorded_payment_protects_the_address Scenario.prices_400 Edge.late
            (Scenario.user_address (Some 10%float)) Edge.small_payment
            Scenario.some_store Edge.handled_once _ true true Old.two_days_later
            Old.bch (Scenario.user_address (Some 10%float))).
  - vm_compute. reflexivity.
  - vm_compute. reflexivity.
  - reflexivity.
  - apply list_elem_of_here.
  - reflexivity.
Defined.

Example cleanup_two_days_later :
  Cleanup.cleanup_old_bch_addresses true true Old.two_days_later
    (bchpayment (tables Edge.handled_once)) Old.bch
  = (Ok (Cleanup.CleanedUp 1), [Scenario.user_address (Some 10%float)]) /\
  Cleanup.cleanup_old_bch_addresses true true Old.two_days_later ∅ Old.bch
  = (Ok (Cleanup.CleanedUp 2), []) /\
  Cleanup.cleanup_old_bch_addresses true false Old.two_days_later ∅ Old.bch
  = (Ok (Cleanup.CleanupError StoreUnavailable), Old.bch) /\
  Cleanup.cleanup_old_bch_addresses false true Old.two_days_later ∅ Old.bch
  = (Raise StoreUnavailable, Old.bch).
Proof. repeat split; vm_compute; reflexivity. Qed.

(** ** What the record carries *)

Lemma configured_usd prices user_id username eur_amount event f r f' :
  configured prices user_id username eur_amount event f = (r, f') ->
  usd_amount_insert f'
  = match available (get_bch_usd_price_cached prices) with
    | Some price_usd => Some (or_zero (value_bch event) * price_usd)%float
    | None => usd_amount_insert f
    end.
Proof.
  unfold configured, bind, set_euro_amount_insert, modify.
  match goal with |- context [snapshot_usd ?p ?v ?g] =>
    destruct (snapshot_usd_run p v g) as (f1 & -> & _ & _ & Hu) end.
  intros H. apply credit_grain_run in H. destruct H as (_ & Hu' & _).
  rewrite Hu', Hu. reflexivity.
Qed.

Lemma price_based_usd prices user_id username event f r f' price_eur :
  available (get_bch_eur_price_cached prices) = Some price_eur ->
  price_based prices user_id username event f = (r, f') ->
  usd_amount_insert f'
  = match available (get_bch_usd_price_cached prices) with
    | Some price_usd => Some (or_zero (value_bch event) * price_usd)%float
    | None => usd_amount_insert f
    end.
Proof.
  intros Hp. unfold price_based. rewrite Hp.
  unfold bind, set_euro_amount_insert, modify.
  match goal with |- context [snapshot_usd ?p ?v ?g] =>
    destruct (snapshot_usd_run p v g) as (f1 & -> & _ & _ & Hu) end.
  intros H. apply credit_grain_run in H. destruct H as (_ & Hu' & _).
  rewrite Hu', Hu. reflexivity.
Qed.

Lemma price_based_amounts prices user_id username event f r f' :
  euro_amount_insert f = None -> usd_amount_insert f = None ->
  price_based prices user_id username event f = (r, f') ->
  usd_amount_insert f'
  = match euro_amount_insert f' with
    | Some _ =>
        match available (get_bch_usd_price_cached prices) with
        | Some price_usd => Some (or_zero (value_bch event) * price_usd)%float
        | None => None
        end
    | None => None
    end.
Proof.
  intros He Hu H. pose proof (price_based_run _ _ _ _ _ _ _ H) as Hr.
  destruct (available (get_bch_eur_price_cached prices)) as [price_eur|] eqn:Ep.
  - destruct Hr as [-> _]. rewrite (price_based_usd _ _ _ _ _ _ _ _ Ep H), Hu.
    reflexivity.
  - destruct Hr as (_ & _ & -> & ->). rewrite He. exact Hu.
Qed.

Lemma grain_update_amounts prices now payment user_id username event f r f' :
  euro_amount_insert f = None -> usd_amount_insert f = None ->
  grain_update prices now payment user_id username event f = (r, f') ->
  usd_amount_insert f'
  = match euro_amount_insert f' with
    | Some _ =>
        match available (get_bch_usd_price_cached prices) with
        | Some price_usd => Some (or_zero (value_bch event) * price_usd)%float
        | None => None
        end
    | None => None
    end.
Proof.
  intros He Hu. unfold grain_update.
  destruct (created_at payment) as [created|].
  - destruct (now - created <? window), (threshold_sats_of payment) as [t|];
      try (apply price_based_amounts; assumption).
    destruct (t <=? value_sats event); [|apply price_based_amounts; assumption].
    destruct (euro_amount payment) as [cfg|]; [|apply price_based_amounts; assumption].
    destruct (0 <? cfg)%float; [|apply price_based_amounts; assumption].
    intros H. pose proof (configured_run _ _ _ _ _ _ _ _ H) as [-> _].
    rewrite (configured_usd _ _ _ _ _ _ _ _ H), Hu. reflexivity.
  - intros [= <- <-]. rewrite He. exact Hu.
Qed.

(** X19. The USD figure of a user's record is a snapshot: whenever the record
    carries a EUR amount (the configured one or the price-derived one),
    its [usd_amount] is the value in coins times the cached USD price, or
    null when no USD price is cached; a record without EUR amount has no
    USD amount either, even when a USD price is cached. *)
Theorem usd_amount_is_a_snapshot prices now payment event s user_id :
  Registry.user_id payment = Some user_id ->
  exists s' row ok,
    threshold_handler prices now payment event s = (Ok tt, s') /\
    last (statements s') = Some (InsertBchPayment row, ok) /\
    tx_id row = default "" (ev_tx_hash event) /\
    amount row = value_sats event /\
    usd_amount row
    = match pay_euro_amount row with
      | Some _ =>
          match available (get_bch_usd_price_cached prices) with
          | Some price_usd => Some (or_zero (value_bch event) * price_usd)%float
          | None => None
          end
      | None => None
      end.
Proof.
  intros Hu.
  destruct (user_payment_of prices now payment event s user_id
              (fun e u tr =>
                 u = match e with
                     | Some _ =>
                         match available (get_bch_usd_price_cached prices) with
                         | Some price_usd =>
                             Some (or_zero (value_bch event) * price_usd)%float
                         | None => None
                         end
                     | None => None
                     end) Hu)
    as (s' & s2 & grain & row & Hh & H1 & H2 & Husd & Htx & Ham & _).
  { intros username f r f' He Hus Hg.
    destruct (grain_update_rewarded _ _ _ _ _ _ _ _ _ Hg) as (tr & Hrun & _).
    exists tr. split; [exact Hrun|].
    apply (grain_update_amounts _ _ _ _ _ _ _ _ _ He Hus Hg). }
  exists s', row, (insertable row s2). split; [exact Hh|].
  split; [rewrite (run_statements _ _ _ H2); apply last_snoc|].
  split; [exact Htx|]. split; [exact Ham|exact Husd].
Qed.


(** The output of 100000 sats on the user address, forty minutes after
    the address was created, at 400 EUR and 430 USD a coin. *)
Lemma usd_amount_is_a_snapshot_late :
  exists s' row ok,
    threshold_handler Scenario.prices_400 Edge.late
      (Scenario.user_address (Some 10%float)) Edge.small_payment Scenario.some_store
    = (Ok tt, s') /\
    last (statements s') = Some (InsertBchPayment row, ok) /\
    tx_id row = default "" (ev_tx_hash Edge.small_payment) /\
    amount row = value_sats Edge.small_payment /\
    usd_amount row
    = match pay_euro_amount row with
      | Some _ =>
          match available (get_bch_usd_price_cached Scenario.prices_400) with
          | Some price_usd =>
              Some (or_zero (value_bch Edge.small_payment) * price_usd)%float
          | None => None
          end
      | None => None
      end.
Proof.
  apply (usd_amount_is_a_snapshot Scenario.prices_400 Edge.late
           (Scenario.user_address (Some 10%float)) Edge.small_payment
           Scenario.some_store 7).
  reflexivity.
Defined.


Example feeding_counters_after_S6 :
  (devices (tables (snd (threshold_handler Scenario.prices_500 Scenario.noon
                           Scenario.device_address
                           (Scenario.payment_of "bitcoincash:qdevice" 120000 0.0012)
                           Scenario.some_store))) !! 3)
  = Some {| alias := Some "feeder"; stream_name := Some "cam1";
            crypto_feed_price := Some 0.5%float;
            total_feedings_today := Some 1; total_feedings := Some 10;
            last_feeding := Some Scenario.noon |}.
Proof. vm_compute. reflexivity. Qed.

(** ** The logo on the QR code *)

Lemma whole_modules_bounds raw :
  raw <= QRCode.whole_modules raw < raw + 6 /\ (6 | QRCode.whole_modules raw).
Proof.
  unfold QRCode.whole_modules, QRCode.box_size_value.
  replace (raw + 6 - 1) with (raw + 5) by lia.
  pose proof (Z.div_mod (raw + 5) 6 ltac:(lia)) as H.
  pose proof (Z.mod_pos_bound (raw + 5) 6 ltac:(lia)) as Hm.
  split; [lia|]. exists ((raw + 5) / 6). reflexivity.
Qed.

Lemma snap_divide x y : QRCode.snap x = Ok y -> (6 | y).
Proof.
  unfold QRCode.snap. destruct (QRCode.true_div x QRCode.box_size_value) as [q|e];
    [|discriminate].
  destruct (QRCode.round q) as [n|e]; [|discriminate].
  intros [= <-]. exists n. reflexivity.
Qed.

(** X21. The white square behind the logo is a whole number of modules wide
    and high and its corner is on the module grid; it is the smallest
    such square that leaves one module (6 pixels) on each side of the
    logo, and the logo is centred in it: on each side there are at least
    6 pixels of white, and the two sides differ by at most one pixel. *)
Theorem logo_keeps_a_module_of_white qr_w qr_h icon_w icon_h p :
  QRCode.place_icon qr_w qr_h icon_w icon_h = Ok p ->
  ((6 | QRCode.bg_w p) /\ (6 | QRCode.bg_h p) /\
   (6 | QRCode.bg_left p) /\ (6 | QRCode.bg_top p)) /\
  (icon_w + 12 <= QRCode.bg_w p < icon_w + 18 /\
   icon_h + 12 <= QRCode.bg_h p < icon_h + 18) /\
  (let left := QRCode.icon_left p - QRCode.bg_left p in
   let right := (QRCode.bg_left p + QRCode.bg_w p) - (QRCode.icon_left p + icon_w) in
   6 <= left /\ left <= right <= left + 1) /\
  (let top := QRCode.icon_top p - QRCode.bg_top p in
   let bottom := (QRCode.bg_top p + QRCode.bg_h p) - (QRCode.icon_top p + icon_h) in
   6 <= top /\ top <= bottom <= top + 1).
Proof.
  unfold QRCode.place_icon, QRCode.margin_px, QRCode.box_size_value.
  destruct (QRCode.snap _) as [l|e] eqn:El; [|discriminate].
  destruct (QRCode.snap ((qr_h - _) / 2)) as [t|e] eqn:Et; [|discriminate].
  intros [= <-]. simpl.
  pose proof (whole_modules_bounds (icon_w + 2 * (1 * 6))) as [Hw Hwd].
  pose proof (whole_modules_bounds (icon_h + 2 * (1 * 6))) as [Hh Hhd].
  split.
  { split; [exact Hwd|]. split; [exact Hhd|].
    split; [exact (snap_divide _ _ El)|exact (snap_divide _ _ Et)]. }
  split; [lia|].
  set (w := QRCode.whole_modules (icon_w + 2 * (1 * 6))) in *.
  set (h := QRCode.whole_modules (icon_h + 2 * (1 * 6))) in *.
  pose proof (Z.div_mod (w - icon_w) 2 ltac:(lia)) as Dw.
  pose proof (Z.mod_pos_bound (w - icon_w) 2 ltac:(lia)) as Mw.
  pose proof (Z.div_mod (h - icon_h) 2 ltac:(lia)) as Dh.
  pose proof (Z.mod_pos_bound (h - icon_h) 2 ltac:(lia)) as Mh.
  split; lia.
Qed.

Lemma range_check (P : Z -> bool) (lo n : Z) :
  forallb P (seqZ lo n) = true ->
  forall x, lo <= x < lo + n -> P x = true.
Proof.
  intros H x Hx. rewrite forallb_forall in H. apply H.
  apply list_elem_of_In, elem_of_seqZ. lia.
Qed.

(** Snapping to the grid moves a coordinate by half a module at most. *)
Lemma snap_near x :
  -4096 <= x <= 4096 ->
  exists y, QRCode.snap x = Ok y /\ x - 3 <= y <= x + 3.
Proof.
  intros Hx.
  pose proof (range_check
                (fun x => match QRCode.snap x with
                          | Ok y => (x - 3 <=? y) && (y <=? x + 3)
                          | Raise _ => false
                          end) (-4096) 8193) as H.
  specialize (H ltac:(vm_compute; reflexivity) x ltac:(lia)). simpl in H.
  destruct (QRCode.snap x) as [y|e]; [|discriminate].
  apply andb_true_iff in H. destruct H as [H1 H2].
  apply Z.leb_le in H1. apply Z.leb_le in H2. exists y. split; [reflexivity|lia].
Qed.

(** A fifth of the smaller side, never more. *)
Lemma target_size_bound qr_w qr_h :
  0 <= qr_w <= 4096 -> 0 <= qr_h <= 4096 ->
  exists t, QRCode.target_size qr_w qr_h = Ok t /\
            8 <= t /\ (t = 8 \/ 5 * (t + 12) <= Z.min qr_w qr_h).
Proof.
  intros Hw Hh.
  pose proof (range_check
                (fun m => match float_of_int m with
                          | Ok f =>
                              match int_of_float (f * 0.2)%float with
                              | Ok t => 5 * t <=? m
                              | Raise _ => false
                              end
                          | Raise _ => false
                          end) 0 4097) as H.
  specialize (H ltac:(vm_compute; reflexivity) (Z.min qr_w qr_h) ltac:(lia)).
  simpl in H. unfold QRCode.target_size, QRCode.margin_px, QRCode.box_size_value.
  destruct (float_of_int (Z.min qr_w qr_h)) as [f|e]; [|discriminate].
  destruct (int_of_float (f * 0.2)%float) as [t|e]; [|discriminate].
  apply Z.leb_le in H. eexists. split; [reflexivity|]. lia.
Qed.

(** X22. For a code between 30 and 4096 pixels on each side and a logo that
    fits the target size (which is what [thumbnail] leaves): the target
    size is at least 8 pixels, the placement is defined, the square is
    within half a module of the centred position in each direction, and
    it lies inside the code. *)
Theorem logo_is_centred_inside_the_code qr_w qr_h icon_w icon_h :
  30 <= qr_w <= 4096 ->
  30 <= qr_h <= 4096 ->
  (forall t, QRCode.target_size qr_w qr_h = Ok t -> 0 <= icon_w <= t /\ 0 <= icon_h <= t) ->
  exists t p,
    QRCode.target_size qr_w qr_h = Ok t /\ 8 <= t /\
    QRCode.place_icon qr_w qr_h icon_w icon_h = Ok p /\
    (qr_w - QRCode.bg_w p) / 2 - 3 <= QRCode.bg_left p <= (qr_w - QRCode.bg_w p) / 2 + 3 /\
    (qr_h - QRCode.bg_h p) / 2 - 3 <= QRCode.bg_top p <= (qr_h - QRCode.bg_h p) / 2 + 3 /\
    0 <= QRCode.bg_left p /\ QRCode.bg_left p + QRCode.bg_w p <= qr_w /\
    0 <= QRCode.bg_top p /\ QRCode.bg_top p + QRCode.bg_h p <= qr_h.
Proof.
  intros Hw Hh Hicon.
  destruct (target_size_bound qr_w qr_h ltac:(lia) ltac:(lia)) as (t & Ht & H8 & Hfifth).
  destruct (Hicon t Ht) as [Hiw Hih].
  pose proof (whole_modules_bounds (icon_w + 2 * (1 * 6))) as [Hbw [kw Hkw]].
  pose proof (whole_modules_bounds (icon_h + 2 * (1 * 6))) as [Hbh [kh Hkh]].
  unfold QRCode.place_icon, QRCode.margin_px, QRCode.box_size_value.
  set (w := QRCode.whole_modules (icon_w + 2 * (1 * 6))) in *.
  set (h := QRCode.whole_modules (icon_h + 2 * (1 * 6))) in *.
  assert (Hw6 : w + 6 <= qr_w) by lia.
  assert (Hh6 : h + 6 <= qr_h) by lia.
  pose proof (Z.div_mod (qr_w - w) 2 ltac:(lia)) as Dw.
  pose proof (Z.mod_pos_bound (qr_w - w) 2 ltac:(lia)) as Mw.
  pose proof (Z.div_mod (qr_h - h) 2 ltac:(lia)) as Dh.
  pose proof (Z.mod_pos_bound (qr_h - h) 2 ltac:(lia)) as Mh.
  destruct (snap_near ((qr_w - w) / 2) ltac:(lia)) as (l & -> & Hl).
  destruct (snap_near ((qr_h - h) / 2) ltac:(lia)) as (tp & -> & Htp).
  exists t. eexists. split; [exact Ht|]. split; [exact H8|].
  split; [reflexivity|]. simpl. lia.
Qed.

(** A code of 29 modules and a border of one (186 pixels) with a logo of
    25 by 20 pixels. *)
Lemma logo_keeps_a_module_of_white_186 :
  let p := {| QRCode.bg_w := 42; QRCode.bg_h := 36;
              QRCode.bg_left := 72; QRCode.bg_top := 72;
              QRCode.icon_left := 80; QRCode.icon_top := 80 |} in
  ((6 | QRCode.bg_w p) /\ (6 | QRCode.bg_h p) /\
   (6 | QRCode.bg_left p) /\ (6 | QRCode.bg_top p)) /\
  (25 + 12 <= QRCode.bg_w p < 25 + 18 /\
   20 + 12 <= QRCode.bg_h p < 20 + 18) /\
  (let left := QRCode.icon_left p - QRCode.bg_left p in
   let right := (QRCode.bg_left p + QRCode.bg_w p) - (QRCode.icon_left p + 25) in
   6 <= left /\ left <= right <= left + 1) /\
  (let top := QRCode.icon_top p - QRCode.bg_top p in
   let bottom := (QRCode.bg_top p + QRCode.bg_h p) - (QRCode.icon_top p + 20) in
   6 <= top /\ top <= bottom <= top + 1).
Proof.
  apply (logo_keeps_a_module_of_white 186 186 25 20).
  vm_compute. reflexivity.
Defined.

Lemma logo_is_centred_inside_the_code_186 :
  exists t p,
    QRCode.target_size 186 186 = Ok t /\ 8 <= t /\
    QRCode.place_icon 186 186 25 20 = Ok p /\
    (186 - QRCode.bg_w p) / 2 - 3 <= QRCode.bg_left p <= (186 - QRCode.bg_w p) / 2 + 3 /\
    (186 - QRCode.bg_h p) / 2 - 3 <= QRCode.bg_top p <= (186 - QRCode.bg_h p) / 2 + 3 /\
    0 <= QRCode.bg_left p /\ QRCode.bg_left p + QRCode.bg_w p <= 186 /\
    0 <= QRCode.bg_top p /\ QRCode.bg_top p + QRCode.bg_h p <= 186.
Proof.
  apply (logo_is_centred_inside_the_code 186 186 25 20).
  - lia.
  - lia.
  - intros t. vm_compute. intros [= <-]. split; split; discriminate.
Defined.

Example logo_on_186_pixels :
  QRCode.target_size 186 186 = Ok 25 /\
  QRCode.place_icon 186 186 25 20
  = Ok {| QRCode.bg_w := 42; QRCode.bg_h := 36;
          QRCode.bg_left := 72; QRCode.bg_top := 72;
          QRCode.icon_left := 80; QRCode.icon_top := 80 |} /\
  QRCode.round 0.5 = Ok 0 /\ QRCode.round 1.5 = Ok 2 /\ QRCode.round 2.5 = Ok 2 /\
  QRCode.round (-0.5) = Ok 0 /\ QRCode.round (-1.5) = Ok (-2) /\
  QRCode.snap 75 = Ok 72 /\ QRCode.snap 69 = Ok 72 /\ QRCode.snap 81 = Ok 84.
Proof. repeat split; vm_compute; reflexivity. Qed.
